(** * Elemental's AxpyInterface: a shallow embedding and its properties

    Source: [include/elemental/axpy_interface.hpp].

    The class [AxpyInterface<T>] emulates one-sided put/get on a
    distributed matrix on top of two-sided, non-blocking MPI.  The embedding
    follows the C++ text function by function:

    - C++ [int] is [Z].  Wherever the C++ arithmetic is defined (no signed
      overflow) it agrees with the arithmetic on [Z]; [%] and [/] are the
      truncating [Z.rem] and [Z.quot].  A buffer size, which the code
      computes in [size_t] and stores in an [int], is the number in [Z]
      too.  The statements that say what a bounds test does with a sum, or
      that a message of a computed size is sent, take the sum or the size
      to be in the range of [int] ([fits_int]).
    - The pointer to an attached matrix is an [option]; the code
      dereferences it without a test, which is undefined for a null
      pointer.  The statements about an operation that reads the matrix
      take the object to be attached.
    - A [std::vector] is a [list]; [operator[]] outside the range of the
      vector is undefined in C++: the model then reads the default value and
      leaves the vector unchanged on a write.
    - A [std::vector<char>] used as a message buffer is modelled by its size
      in bytes and by the typed message last packed into it; the byte layout
      behind the [memcpy] of a header and the [T*] cast is not modelled.
    - A member function is a function from the state of the object to an
      [outcome]: it returns, or throws, and in both cases leaves a state.
    - The MPI layer is the environment: the result of [mpi::Test] is an
      oracle on request handles, the result of [mpi::IProbe] followed by
      [mpi::Recv] is an optional incoming message, and every [mpi::ISSend]
      is appended to a log kept in the state.  The two polling loops
      ([Detach], and the wait for the replies in [AxpyGlobalToLocal]) take
      the answers of the environment round by round, as a list.
    - The preprocessor symbol [RELEASE] is the boolean [RELEASE].
    - [utilities::Shift] and [utilities::LocalLength], which are not in the
      file, are parameters of the operations; the general statements hold
      for every choice of them, and the examples use the usual formulas of
      a cyclic distribution. *)

From Stdlib Require Import ZArith Lia String.
From stdpp Require Import base list.

Local Open Scope Z_scope.

(** ** Exceptions and outcomes *)

Inductive exn : Type :=
| logic_error (what : string)   (* std::logic_error *)
| length_error.                 (* std::length_error, from vector::resize *)

(** [Spinning] is the outcome of a polling loop ([while( !Finished() )],
    [while( numReplies < p )]) that has consumed all of the environment's
    events it was given and is still polling. *)
Inductive outcome (S A : Type) : Type :=
| Returned (a : A) (s : S)
| Thrown (e : exn) (s : S)
| Spinning (s : S).
Arguments Returned {S A} a s.
Arguments Thrown {S A} e s.
Arguments Spinning {S A} s.

Definition M (S A : Type) : Type := S -> outcome S A.

Definition ret {S A} (a : A) : M S A := fun s => Returned a s.
Definition bind {S A B} (m : M S A) (k : A -> M S B) : M S B :=
  fun s => match m s with
           | Returned a s' => k a s'
           | Thrown e s' => Thrown e s'
           | Spinning s' => Spinning s'
           end.
Definition modify {S} (f : S -> S) : M S unit := fun s => Returned tt (f s).

Definition final_state {S A} (o : outcome S A) : S :=
  match o with Returned _ s => s | Thrown _ s => s | Spinning s => s end.

Definition returned {S A} (o : outcome S A) : bool :=
  match o with Returned _ _ => true | _ => false end.


(** [for( int i=0; i<n; ++i ) body(i)], leaving the loop when the body
    throws. *)
Fixpoint for_each {S I} (idxs : list I) (body : I -> M S unit) : M S unit :=
  match idxs with
  | [] => ret tt
  | i :: rest => bind (body i) (fun _ => for_each rest body)
  end.

(** The values [0, 1, ..., n-1] of an [int] loop counter. *)
Definition upto (n : Z) : list Z := Z.of_nat <$> seq 0 (Z.to_nat n).

(** ** Vectors indexed by [int] *)

Definition vat {A} `{Inhabited A} (v : list A) (k : Z) : A :=
  if 0 <=? k then v !!! Z.to_nat k else inhabitant.

Definition vupd {A} (f : A -> A) (v : list A) (k : Z) : list A :=
  if 0 <=? k then alter f (Z.to_nat k) v else v.

Definition vset {A} (v : list A) (k : Z) (x : A) : list A :=
  vupd (fun _ => x) v k.

(** [v.resize(n)] with value-initialised new elements ([n] already a
    size). *)
Definition vresize {A} (n : nat) (d : A) (v : list A) : list A :=
  take n v ++ replicate (n - length v)%nat d.

Definition vsize {A} (v : list A) : Z := Z.of_nat (length v).

(** ** Scalars, matrices and the process grid *)

(** The template parameter [T]: "any ring", with the sizes the code takes
    with [sizeof]. *)
Class Scalar (T : Type) : Type := {
  Tzero : T;
  Tadd : T -> T -> T;
  Tmul : T -> T -> T;
  sizeof_T : positive;
  sizeof_LocalToGlobalHeader : positive
}.

Definition sizeof_GlobalToLocalRequestHeader : Z := 16.
Definition sizeof_GlobalToLocalReplyHeader : Z := 8.

Definition DATA_TAG : Z := 1.
Definition EOM_TAG : Z := 2.
Definition DATA_REQUEST_TAG : Z := 3.
Definition DATA_REPLY_TAG : Z := 4.

Inductive AxpyType : Type := LOCAL_TO_GLOBAL | GLOBAL_TO_LOCAL.

(** Modelled from the spec: the class [Grid] is not part of the sources at
    hand.  The spec (section 3) describes it as an r x c arrangement of
    P = r*c processes in which each process has a row and a column
    coordinate. *)
Record Grid : Type := {
  gHeight : Z;      (* g.Height(), r *)
  gWidth : Z;       (* g.Width(), c *)
  MCRank : Z;       (* the row of this process *)
  MRRank : Z        (* the column of this process *)
}.

(** Modelled from the spec: [Grid::Size] is not part of the sources at
    hand; the grid has P = r*c processes. *)
Definition gSize (g : Grid) : Z := gHeight g * gWidth g.

Section AxpyInterface.

Context {T : Type} {ST : Scalar T}.

#[global] Instance T_inhabited : Inhabited T := populate Tzero.

(** Modelled from the spec: the classes [Matrix<T>] and
    [DistMatrix<T,MC,MR>] are not part of the sources at hand.  A local
    matrix is a column-major buffer with a leading dimension; a distributed
    matrix has a global shape, the alignments and shifts of its cyclic
    distribution, a grid and a local matrix (spec, section 3). *)
Record Matrix : Type := {
  mHeight : Z;
  mWidth : Z;
  LDim : Z;
  mBuffer : list T
}.

(** Modelled from the spec: [DistMatrix<T,MC,MR>], as described above. *)
Record DistMatrix : Type := {
  dHeight : Z;
  dWidth : Z;
  ColAlignment : Z;
  RowAlignment : Z;
  ColShift : Z;
  RowShift : Z;
  dGrid : Grid;
  LocalMatrix : Matrix
}.

(** Modelled from the spec: the accessors [Buffer(i,j)], [LockedBuffer(i,j)]
    and [LocalBuffer(i,j)] are not part of the sources at hand; they point
    at the entry [(i,j)] of the column-major buffer, which is
    [i + j*LDim] entries from its start. *)
Definition mOffset (A : Matrix) (i j : Z) : Z := i + j * LDim A.
Definition mRead (A : Matrix) (k : Z) : T := vat (mBuffer A) k.
Definition mUpdate (f : T -> T) (A : Matrix) (k : Z) : Matrix :=
  {| mHeight := mHeight A; mWidth := mWidth A; LDim := LDim A;
     mBuffer := vupd f (mBuffer A) k |}.

Definition with_LocalMatrix (f : Matrix -> Matrix) (Y : DistMatrix)
  : DistMatrix :=
  {| dHeight := dHeight Y; dWidth := dWidth Y;
     ColAlignment := ColAlignment Y; RowAlignment := RowAlignment Y;
     ColShift := ColShift Y; RowShift := RowShift Y;
     dGrid := dGrid Y; LocalMatrix := f (LocalMatrix Y) |}.

(** ** Messages *)

Record LocalToGlobalHeader : Type := {
  lg_i : Z; lg_j : Z; lg_height : Z; lg_width : Z; lg_alpha : T
}.

Record GlobalToLocalRequestHeader : Type := {
  rq_i : Z; rq_j : Z; rq_height : Z; rq_width : Z
}.

Record GlobalToLocalReplyHeader : Type := {
  processRow : Z; processCol : Z
}.

(** What a buffer holds, seen through the header struct and the [T*] cast
    that the code applies to it. *)
Inductive Packed : Type :=
| Unpacked
| DataMsg (h : LocalToGlobalHeader) (payload : list T)
| RequestMsg (h : GlobalToLocalRequestHeader)
| ReplyMsg (h : GlobalToLocalReplyHeader) (payload : list T)
| EomMsg.

Record Buffer : Type := {
  buf_size : Z;
  buf_content : Packed
}.

Definition empty_Buffer : Buffer := {| buf_size := 0; buf_content := Unpacked |}.
#[global] Instance Buffer_inhabited : Inhabited Buffer := populate empty_Buffer.

(** [b.resize(n)] for an [int n]: a negative [n] converts to a [size_t]
    above [max_size()] and [resize] throws [std::length_error].  (Running
    out of memory is not modelled.) *)
Definition buf_resize (n : Z) (b : Buffer) : option Buffer :=
  if n <? 0 then None
  else Some {| buf_size := n; buf_content := buf_content b |}.

Definition buf_pack (m : Packed) (b : Buffer) : Buffer :=
  {| buf_size := buf_size b; buf_content := m |}.

(** ** The MPI layer *)

Definition Request : Type := nat.
Definition null_Request : Request := 0%nat.

Record Send : Type := {
  snd_dest : Z;
  snd_tag : Z;
  snd_count : Z;
  snd_body : Packed
}.

(** ** The buffer pool of one peer and one kind of traffic, as
    [ReadyForSend] receives it: three vectors passed by reference. *)
Record Channel : Type := {
  sendVectors : list Buffer;
  requests : list Request;
  requestStatuses : list bool
}.

Section ReadyForSend.

Variable RELEASE : bool.
Variable Test : Request -> bool.    (* imports::mpi::Test *)

(** One pass of the loop body of [ReadyForSend] at slot [i]: [Some] is the
    early [return i]. *)
Definition ReadyForSend_slot (sendSize : Z) (i : nat) (ch : Channel)
  : outcome Channel (option Z) :=
  let statuses1 :=
    if (requestStatuses ch !!! i : bool)
    then <[i := negb (Test (requests ch !!! i : Request))]> (requestStatuses ch)
    else requestStatuses ch in
  if negb (statuses1 !!! i : bool) then
    let statuses2 := <[i := true]> statuses1 in
    match buf_resize sendSize (sendVectors ch !!! i) with
    | Some b =>
        Returned (Some (Z.of_nat i))
          {| sendVectors := <[i := b]> (sendVectors ch);
             requests := requests ch;
             requestStatuses := statuses2 |}
    | None =>
        Thrown length_error
          {| sendVectors := sendVectors ch;
             requests := requests ch;
             requestStatuses := statuses2 |}
    end
  else
    Returned None
      {| sendVectors := sendVectors ch;
         requests := requests ch;
         requestStatuses := statuses1 |}.

Fixpoint ReadyForSend_scan (sendSize : Z) (slots : list nat)
  : M Channel (option Z) :=
  match slots with
  | [] => ret None
  | i :: slots' =>
      bind (ReadyForSend_slot sendSize i)
        (fun r => match r with
                  | Some idx => ret (Some idx)
                  | None => ReadyForSend_scan sendSize slots'
                  end)
  end.

(** The code after the loop: append a slot. *)
Definition ReadyForSend_append (sendSize : Z) (numCreated : nat)
  : M Channel Z :=
  fun ch =>
    let vectors1 := vresize (numCreated + 1) empty_Buffer (sendVectors ch) in
    match buf_resize sendSize (vectors1 !!! numCreated) with
    | Some b =>
        Returned (Z.of_nat numCreated)
          {| sendVectors := <[numCreated := b]> vectors1;
             requests := vresize (numCreated + 1) null_Request (requests ch);
             requestStatuses := requestStatuses ch ++ [true] |}
    | None =>
        Thrown length_error
          {| sendVectors := vectors1;
             requests := requests ch;
             requestStatuses := requestStatuses ch |}
    end.

Definition ReadyForSend (sendSize : Z) : M Channel Z :=
  fun ch =>
    let numCreated := length (sendVectors ch) in
    if negb RELEASE
       && (negb (numCreated =? length (requests ch))%nat
           || negb (numCreated =? length (requestStatuses ch))%nat)
    then Thrown (logic_error "size mismatch") ch
    else
      bind (ReadyForSend_scan sendSize (seq 0 numCreated))
        (fun r => match r with
                  | Some idx => ret idx
                  | None => ReadyForSend_append sendSize numCreated
                  end) ch.

End ReadyForSend.

(** ** The state of an [AxpyInterface<T>] object

    The fields are those of the class.  The two pointers to the attached
    matrix are modelled by the matrix they point to ([None] is the null
    pointer): while it is attached the interface is the only one to touch
    the matrix, and the caller finds it there again afterwards.  [mpi_sent]
    is the log of the [mpi::ISSend] calls, oldest first, and [mpi_next] the
    next request handle that MPI hands out. *)
Record State : Type := {
  _attachedForLocalToGlobal : bool;
  _attachedForGlobalToLocal : bool;
  _localToGlobalMat : option DistMatrix;
  _globalToLocalMat : option DistMatrix;
  _sentEomTo : list bool;
  _haveEomFrom : list bool;
  _recvVector : Buffer;
  _eomSendRequests : list Request;
  _dataVectors : list (list Buffer);
  _requestVectors : list (list Buffer);
  _replyVectors : list (list Buffer);
  _sendingData : list (list bool);
  _sendingRequest : list (list bool);
  _sendingReply : list (list bool);
  _dataSendRequests : list (list Request);
  _requestSendRequests : list (list Request);
  _replySendRequests : list (list Request);
  mpi_sent : list Send;
  mpi_next : Request
}.

Definition set_attachedForLocalToGlobal (v : bool) (st : State) : State :=
  {| _attachedForLocalToGlobal := v;
     _attachedForGlobalToLocal := _attachedForGlobalToLocal st;
     _localToGlobalMat := _localToGlobalMat st;
     _globalToLocalMat := _globalToLocalMat st; _sentEomTo := _sentEomTo st;
     _haveEomFrom := _haveEomFrom st; _recvVector := _recvVector st;
     _eomSendRequests := _eomSendRequests st;
     _dataVectors := _dataVectors st; _requestVectors := _requestVectors st;
     _replyVectors := _replyVectors st; _sendingData := _sendingData st;
     _sendingRequest := _sendingRequest st;
     _sendingReply := _sendingReply st;
     _dataSendRequests := _dataSendRequests st;
     _requestSendRequests := _requestSendRequests st;
     _replySendRequests := _replySendRequests st; mpi_sent := mpi_sent st;
     mpi_next := mpi_next st |}.

Definition set_attachedForGlobalToLocal (v : bool) (st : State) : State :=
  {| _attachedForLocalToGlobal := _attachedForLocalToGlobal st;
     _attachedForGlobalToLocal := v;
     _localToGlobalMat := _localToGlobalMat st;
     _globalToLocalMat := _globalToLocalMat st; _sentEomTo := _sentEomTo st;
     _haveEomFrom := _haveEomFrom st; _recvVector := _recvVector st;
     _eomSendRequests := _eomSendRequests st;
     _dataVectors := _dataVectors st; _requestVectors := _requestVectors st;
     _replyVectors := _replyVectors st; _sendingData := _sendingData st;
     _sendingRequest := _sendingRequest st;
     _sendingReply := _sendingReply st;
     _dataSendRequests := _dataSendRequests st;
     _requestSendRequests := _requestSendRequests st;
     _replySendRequests := _replySendRequests st; mpi_sent := mpi_sent st;
     mpi_next := mpi_next st |}.

Definition set_localToGlobalMat (v : option DistMatrix) (st : State) : State :=
  {| _attachedForLocalToGlobal := _attachedForLocalToGlobal st;
     _attachedForGlobalToLocal := _attachedForGlobalToLocal st;
     _localToGlobalMat := v; _globalToLocalMat := _globalToLocalMat st;
     _sentEomTo := _sentEomTo st; _haveEomFrom := _haveEomFrom st;
     _recvVector := _recvVector st; _eomSendRequests := _eomSendRequests st;
     _dataVectors := _dataVectors st; _requestVectors := _requestVectors st;
     _replyVectors := _replyVectors st; _sendingData := _sendingData st;
     _sendingRequest := _sendingRequest st;
     _sendingReply := _sendingReply st;
     _dataSendRequests := _dataSendRequests st;
     _requestSendRequests := _requestSendRequests st;
     _replySendRequests := _replySendRequests st; mpi_sent := mpi_sent st;
     mpi_next := mpi_next st |}.

Definition set_globalToLocalMat (v : option DistMatrix) (st : State) : State :=
  {| _attachedForLocalToGlobal := _attachedForLocalToGlobal st;
     _attachedForGlobalToLocal := _attachedForGlobalToLocal st;
     _localToGlobalMat := _localToGlobalMat st; _globalToLocalMat := v;
     _sentEomTo := _sentEomTo st; _haveEomFrom := _haveEomFrom st;
     _recvVector := _recvVector st; _eomSendRequests := _eomSendRequests st;
     _dataVectors := _dataVectors st; _requestVectors := _requestVectors st;
     _replyVectors := _replyVectors st; _sendingData := _sendingData st;
     _sendingRequest := _sendingRequest st;
     _sendingReply := _sendingReply st;
     _dataSendRequests := _dataSendRequests st;
     _requestSendRequests := _requestSendRequests st;
     _replySendRequests := _replySendRequests st; mpi_sent := mpi_sent st;
     mpi_next := mpi_next st |}.

Definition set_sentEomTo (v : list bool) (st : State) : State :=
  {| _attachedForLocalToGlobal := _attachedForLocalToGlobal st;
     _attachedForGlobalToLocal := _attachedForGlobalToLocal st;
     _localToGlobalMat := _localToGlobalMat st;
     _globalToLocalMat := _globalToLocalMat st; _sentEomTo := v;
     _haveEomFrom := _haveEomFrom st; _recvVector := _recvVector st;
     _eomSendRequests := _eomSendRequests st;
     _dataVectors := _dataVectors st; _requestVectors := _requestVectors st;
     _replyVectors := _replyVectors st; _sendingData := _sendingData st;
     _sendingRequest := _sendingRequest st;
     _sendingReply := _sendingReply st;
     _dataSendRequests := _dataSendRequests st;
     _requestSendRequests := _requestSendRequests st;
     _replySendRequests := _replySendRequests st; mpi_sent := mpi_sent st;
     mpi_next := mpi_next st |}.

Definition set_haveEomFrom (v : list bool) (st : State) : State :=
  {| _attachedForLocalToGlobal := _attachedForLocalToGlobal st;
     _attachedForGlobalToLocal := _attachedForGlobalToLocal st;
     _localToGlobalMat := _localToGlobalMat st;
     _globalToLocalMat := _globalToLocalMat st; _sentEomTo := _sentEomTo st;
     _haveEomFrom := v; _recvVector := _recvVector st;
     _eomSendRequests := _eomSendRequests st;
     _dataVectors := _dataVectors st; _requestVectors := _requestVectors st;
     _replyVectors := _replyVectors st; _sendingData := _sendingData st;
     _sendingRequest := _sendingRequest st;
     _sendingReply := _sendingReply st;
     _dataSendRequests := _dataSendRequests st;
     _requestSendRequests := _requestSendRequests st;
     _replySendRequests := _replySendRequests st; mpi_sent := mpi_sent st;
     mpi_next := mpi_next st |}.

Definition set_recvVector (v : Buffer) (st : State) : State :=
  {| _attachedForLocalToGlobal := _attachedForLocalToGlobal st;
     _attachedForGlobalToLocal := _attachedForGlobalToLocal st;
     _localToGlobalMat := _localToGlobalMat st;
     _globalToLocalMat := _globalToLocalMat st; _sentEomTo := _sentEomTo st;
     _haveEomFrom := _haveEomFrom st; _recvVector := v;
     _eomSendRequests := _eomSendRequests st;
     _dataVectors := _dataVectors st; _requestVectors := _requestVectors st;
     _replyVectors := _replyVectors st; _sendingData := _sendingData st;
     _sendingRequest := _sendingRequest st;
     _sendingReply := _sendingReply st;
     _dataSendRequests := _dataSendRequests st;
     _requestSendRequests := _requestSendRequests st;
     _replySendRequests := _replySendRequests st; mpi_sent := mpi_sent st;
     mpi_next := mpi_next st |}.

Definition set_eomSendRequests (v : list Request) (st : State) : State :=
  {| _attachedForLocalToGlobal := _attachedForLocalToGlobal st;
     _attachedForGlobalToLocal := _attachedForGlobalToLocal st;
     _localToGlobalMat := _localToGlobalMat st;
     _globalToLocalMat := _globalToLocalMat st; _sentEomTo := _sentEomTo st;
     _haveEomFrom := _haveEomFrom st; _recvVector := _recvVector st;
     _eomSendRequests := v; _dataVectors := _dataVectors st;
     _requestVectors := _requestVectors st;
     _replyVectors := _replyVectors st; _sendingData := _sendingData st;
     _sendingRequest := _sendingRequest st;
     _sendingReply := _sendingReply st;
     _dataSendRequests := _dataSendRequests st;
     _requestSendRequests := _requestSendRequests st;
     _replySendRequests := _replySendRequests st; mpi_sent := mpi_sent st;
     mpi_next := mpi_next st |}.

Definition set_dataVectors (v : list (list Buffer)) (st : State) : State :=
  {| _attachedForLocalToGlobal := _attachedForLocalToGlobal st;
     _attachedForGlobalToLocal := _attachedForGlobalToLocal st;
     _localToGlobalMat := _localToGlobalMat st;
     _globalToLocalMat := _globalToLocalMat st; _sentEomTo := _sentEomTo st;
     _haveEomFrom := _haveEomFrom st; _recvVector := _recvVector st;
     _eomSendRequests := _eomSendRequests st; _dataVectors := v;
     _requestVectors := _requestVectors st;
     _replyVectors := _replyVectors st; _sendingData := _sendingData st;
     _sendingRequest := _sendingRequest st;
     _sendingReply := _sendingReply st;
     _dataSendRequests := _dataSendRequests st;
     _requestSendRequests := _requestSendRequests st;
     _replySendRequests := _replySendRequests st; mpi_sent := mpi_sent st;
     mpi_next := mpi_next st |}.

Definition set_requestVectors (v : list (list Buffer)) (st : State) : State :=
  {| _attachedForLocalToGlobal := _attachedForLocalToGlobal st;
     _attachedForGlobalToLocal := _attachedForGlobalToLocal st;
     _localToGlobalMat := _localToGlobalMat st;
     _globalToLocalMat := _globalToLocalMat st; _sentEomTo := _sentEomTo st;
     _haveEomFrom := _haveEomFrom st; _recvVector := _recvVector st;
     _eomSendRequests := _eomSendRequests st;
     _dataVectors := _dataVectors st; _requestVectors := v;
     _replyVectors := _replyVectors st; _sendingData := _sendingData st;
     _sendingRequest := _sendingRequest st;
     _sendingReply := _sendingReply st;
     _dataSendRequests := _dataSendRequests st;
     _requestSendRequests := _requestSendRequests st;
     _replySendRequests := _replySendRequests st; mpi_sent := mpi_sent st;
     mpi_next := mpi_next st |}.

Definition set_replyVectors (v : list (list Buffer)) (st : State) : State :=
  {| _attachedForLocalToGlobal := _attachedForLocalToGlobal st;
     _attachedForGlobalToLocal := _attachedForGlobalToLocal st;
     _localToGlobalMat := _localToGlobalMat st;
     _globalToLocalMat := _globalToLocalMat st; _sentEomTo := _sentEomTo st;
     _haveEomFrom := _haveEomFrom st; _recvVector := _recvVector st;
     _eomSendRequests := _eomSendRequests st;
     _dataVectors := _dataVectors st; _requestVectors := _requestVectors st;
     _replyVectors := v; _sendingData := _sendingData st;
     _sendingRequest := _sendingRequest st;
     _sendingReply := _sendingReply st;
     _dataSendRequests := _dataSendRequests st;
     _requestSendRequests := _requestSendRequests st;
     _replySendRequests := _replySendRequests st; mpi_sent := mpi_sent st;
     mpi_next := mpi_next st |}.

Definition set_sendingData (v : list (list bool)) (st : State) : State :=
  {| _attachedForLocalToGlobal := _attachedForLocalToGlobal st;
     _attachedForGlobalToLocal := _attachedForGlobalToLocal st;
     _localToGlobalMat := _localToGlobalMat st;
     _globalToLocalMat := _globalToLocalMat st; _sentEomTo := _sentEomTo st;
     _haveEomFrom := _haveEomFrom st; _recvVector := _recvVector st;
     _eomSendRequests := _eomSendRequests st;
     _dataVectors := _dataVectors st; _requestVectors := _requestVectors st;
     _replyVectors := _replyVectors st; _sendingData := v;
     _sendingRequest := _sendingRequest st;
     _sendingReply := _sendingReply st;
     _dataSendRequests := _dataSendRequests st;
     _requestSendRequests := _requestSendRequests st;
     _replySendRequests := _replySendRequests st; mpi_sent := mpi_sent st;
     mpi_next := mpi_next st |}.

Definition set_sendingRequest (v : list (list bool)) (st : State) : State :=
  {| _attachedForLocalToGlobal := _attachedForLocalToGlobal st;
     _attachedForGlobalToLocal := _attachedForGlobalToLocal st;
     _localToGlobalMat := _localToGlobalMat st;
     _globalToLocalMat := _globalToLocalMat st; _sentEomTo := _sentEomTo st;
     _haveEomFrom := _haveEomFrom st; _recvVector := _recvVector st;
     _eomSendRequests := _eomSendRequests st;
     _dataVectors := _dataVectors st; _requestVectors := _requestVectors st;
     _replyVectors := _replyVectors st; _sendingData := _sendingData st;
     _sendingRequest := v; _sendingReply := _sendingReply st;
     _dataSendRequests := _dataSendRequests st;
     _requestSendRequests := _requestSendRequests st;
     _replySendRequests := _replySendRequests st; mpi_sent := mpi_sent st;
     mpi_next := mpi_next st |}.

Definition set_sendingReply (v : list (list bool)) (st : State) : State :=
  {| _attachedForLocalToGlobal := _attachedForLocalToGlobal st;
     _attachedForGlobalToLocal := _attachedForGlobalToLocal st;
     _localToGlobalMat := _localToGlobalMat st;
     _globalToLocalMat := _globalToLocalMat st; _sentEomTo := _sentEomTo st;
     _haveEomFrom := _haveEomFrom st; _recvVector := _recvVector st;
     _eomSendRequests := _eomSendRequests st;
     _dataVectors := _dataVectors st; _requestVectors := _requestVectors st;
     _replyVectors := _replyVectors st; _sendingData := _sendingData st;
     _sendingRequest := _sendingRequest st; _sendingReply := v;
     _dataSendRequests := _dataSendRequests st;
     _requestSendRequests := _requestSendRequests st;
     _replySendRequests := _replySendRequests st; mpi_sent := mpi_sent st;
     mpi_next := mpi_next st |}.

Definition set_dataSendRequests (v : list (list Request)) (st : State) : State :=
  {| _attachedForLocalToGlobal := _attachedForLocalToGlobal st;
     _attachedForGlobalToLocal := _attachedForGlobalToLocal st;
     _localToGlobalMat := _localToGlobalMat st;
     _globalToLocalMat := _globalToLocalMat st; _sentEomTo := _sentEomTo st;
     _haveEomFrom := _haveEomFrom st; _recvVector := _recvVector st;
     _eomSendRequests := _eomSendRequests st;
     _dataVectors := _dataVectors st; _requestVectors := _requestVectors st;
     _replyVectors := _replyVectors st; _sendingData := _sendingData st;
     _sendingRequest := _sendingRequest st;
     _sendingReply := _sendingReply st; _dataSendRequests := v;
     _requestSendRequests := _requestSendRequests st;
     _replySendRequests := _replySendRequests st; mpi_sent := mpi_sent st;
     mpi_next := mpi_next st |}.

Definition set_requestSendRequests (v : list (list Request)) (st : State) : State :=
  {| _attachedForLocalToGlobal := _attachedForLocalToGlobal st;
     _attachedForGlobalToLocal := _attachedForGlobalToLocal st;
     _localToGlobalMat := _localToGlobalMat st;
     _globalToLocalMat := _globalToLocalMat st; _sentEomTo := _sentEomTo st;
     _haveEomFrom := _haveEomFrom st; _recvVector := _recvVector st;
     _eomSendRequests := _eomSendRequests st;
     _dataVectors := _dataVectors st; _requestVectors := _requestVectors st;
     _replyVectors := _replyVectors st; _sendingData := _sendingData st;
     _sendingRequest := _sendingRequest st;
     _sendingReply := _sendingReply st;
     _dataSendRequests := _dataSendRequests st; _requestSendRequests := v;
     _replySendRequests := _replySendRequests st; mpi_sent := mpi_sent st;
     mpi_next := mpi_next st |}.

Definition set_replySendRequests (v : list (list Request)) (st : State) : State :=
  {| _attachedForLocalToGlobal := _attachedForLocalToGlobal st;
     _attachedForGlobalToLocal := _attachedForGlobalToLocal st;
     _localToGlobalMat := _localToGlobalMat st;
     _globalToLocalMat := _globalToLocalMat st; _sentEomTo := _sentEomTo st;
     _haveEomFrom := _haveEomFrom st; _recvVector := _recvVector st;
     _eomSendRequests := _eomSendRequests st;
     _dataVectors := _dataVectors st; _requestVectors := _requestVectors st;
     _replyVectors := _replyVectors st; _sendingData := _sendingData st;
     _sendingRequest := _sendingRequest st;
     _sendingReply := _sendingReply st;
     _dataSendRequests := _dataSendRequests st;
     _requestSendRequests := _requestSendRequests st;
     _replySendRequests := v; mpi_sent := mpi_sent st;
     mpi_next := mpi_next st |}.

Definition set_mpi_sent (v : list Send) (st : State) : State :=
  {| _attachedForLocalToGlobal := _attachedForLocalToGlobal st;
     _attachedForGlobalToLocal := _attachedForGlobalToLocal st;
     _localToGlobalMat := _localToGlobalMat st;
     _globalToLocalMat := _globalToLocalMat st; _sentEomTo := _sentEomTo st;
     _haveEomFrom := _haveEomFrom st; _recvVector := _recvVector st;
     _eomSendRequests := _eomSendRequests st;
     _dataVectors := _dataVectors st; _requestVectors := _requestVectors st;
     _replyVectors := _replyVectors st; _sendingData := _sendingData st;
     _sendingRequest := _sendingRequest st;
     _sendingReply := _sendingReply st;
     _dataSendRequests := _dataSendRequests st;
     _requestSendRequests := _requestSendRequests st;
     _replySendRequests := _replySendRequests st; mpi_sent := v;
     mpi_next := mpi_next st |}.

Definition set_mpi_next (v : Request) (st : State) : State :=
  {| _attachedForLocalToGlobal := _attachedForLocalToGlobal st;
     _attachedForGlobalToLocal := _attachedForGlobalToLocal st;
     _localToGlobalMat := _localToGlobalMat st;
     _globalToLocalMat := _globalToLocalMat st; _sentEomTo := _sentEomTo st;
     _haveEomFrom := _haveEomFrom st; _recvVector := _recvVector st;
     _eomSendRequests := _eomSendRequests st;
     _dataVectors := _dataVectors st; _requestVectors := _requestVectors st;
     _replyVectors := _replyVectors st; _sendingData := _sendingData st;
     _sendingRequest := _sendingRequest st;
     _sendingReply := _sendingReply st;
     _dataSendRequests := _dataSendRequests st;
     _requestSendRequests := _requestSendRequests st;
     _replySendRequests := _replySendRequests st; mpi_sent := mpi_sent st;
     mpi_next := v |}.

Definition default_Matrix : Matrix :=
  {| mHeight := 0; mWidth := 0; LDim := 0; mBuffer := [] |}.

Definition default_DistMatrix : DistMatrix :=
  {| dHeight := 0; dWidth := 0; ColAlignment := 0; RowAlignment := 0;
     ColShift := 0; RowShift := 0;
     dGrid := {| gHeight := 0; gWidth := 0; MCRank := 0; MRRank := 0 |};
     LocalMatrix := default_Matrix |}.

(** [*p] for one of the two matrix pointers (a null pointer must not be
    dereferenced in C++; the model then reads an empty matrix). *)
Definition deref (p : option DistMatrix) : DistMatrix :=
  default default_DistMatrix p.

(** The grid that [Finished], [HandleEoms], [UpdateRequestStatuses] and
    [Detach] select. *)
Definition attached_Grid (st : State) : Grid :=
  if _attachedForLocalToGlobal st
  then dGrid (deref (_localToGlobalMat st))
  else dGrid (deref (_globalToLocalMat st)).

(** The three kinds of outgoing traffic and, for each, the three parallel
    vectors of vectors of the class. *)
Inductive Kind : Type := Data | Req | Reply.

Definition Vectors (k : Kind) (st : State) : list (list Buffer) :=
  match k with
  | Data => _dataVectors st
  | Req => _requestVectors st
  | Reply => _replyVectors st
  end.

Definition Sending (k : Kind) (st : State) : list (list bool) :=
  match k with
  | Data => _sendingData st
  | Req => _sendingRequest st
  | Reply => _sendingReply st
  end.

Definition SendRequests (k : Kind) (st : State) : list (list Request) :=
  match k with
  | Data => _dataSendRequests st
  | Req => _requestSendRequests st
  | Reply => _replySendRequests st
  end.

Definition set_Vectors (k : Kind) (v : list (list Buffer)) : State -> State :=
  match k with
  | Data => set_dataVectors v
  | Req => set_requestVectors v
  | Reply => set_replyVectors v
  end.

Definition set_Sending (k : Kind) (v : list (list bool)) : State -> State :=
  match k with
  | Data => set_sendingData v
  | Req => set_sendingRequest v
  | Reply => set_sendingReply v
  end.

Definition set_SendRequests (k : Kind) (v : list (list Request))
  : State -> State :=
  match k with
  | Data => set_dataSendRequests v
  | Req => set_requestSendRequests v
  | Reply => set_replySendRequests v
  end.

(** The arguments [( xVectors[peer], xSendRequests[peer], xSending[peer] )]
    of a call of [ReadyForSend], and the write-back of what the callee did
    to them through the references. *)
Definition get_Channel (k : Kind) (peer : Z) (st : State) : Channel :=
  {| sendVectors := vat (Vectors k st) peer;
     requests := vat (SendRequests k st) peer;
     requestStatuses := vat (Sending k st) peer |}.

Definition put_Channel (k : Kind) (peer : Z) (ch : Channel) (st : State)
  : State :=
  set_Vectors k (vset (Vectors k st) peer (sendVectors ch))
    (set_SendRequests k (vset (SendRequests k st) peer (requests ch))
       (set_Sending k (vset (Sending k st) peer (requestStatuses ch)) st)).

Definition on_Channel {A} (k : Kind) (peer : Z) (m : M Channel A)
  : M State A :=
  fun st =>
    match m (get_Channel k peer st) with
    | Returned a ch => Returned a (put_Channel k peer ch st)
    | Thrown e ch => Thrown e (put_Channel k peer ch st)
    | Spinning ch => Spinning (put_Channel k peer ch st)
    end.

(** [mpi::ISSend( buf, count, dest, tag, comm, request )]: the send is
    logged and a fresh handle comes back for [request]. *)
Definition ISSend (body : Packed) (count dest tag : Z) : M State Request :=
  fun st =>
    Returned (mpi_next st)
      (set_mpi_next (S (mpi_next st))
         (set_mpi_sent
            (mpi_sent st ++
             [{| snd_dest := dest; snd_tag := tag; snd_count := count;
                 snd_body := body |}]) st)).

(** ** What arrives: the outcome of [mpi::IProbe] and [mpi::Recv] *)

Record DataArrival : Type := {
  da_source : Z;
  da_count : Z;                       (* mpi::GetCount<char>( status ) *)
  da_header : LocalToGlobalHeader;
  da_payload : list T
}.

Record RequestArrival : Type := {
  ra_source : Z;
  ra_header : GlobalToLocalRequestHeader
}.

Record ReplyArrival : Type := {
  pa_source : Z;
  pa_count : Z;
  pa_header : GlobalToLocalReplyHeader;
  pa_payload : list T
}.

(** One round of a polling loop, as the environment answers it. *)
Record Tick : Type := {
  tk_Test : Request -> bool;          (* mpi::Test while servicing *)
  tk_TestEom : Request -> bool;       (* mpi::Test within HandleEoms *)
  tk_data : option DataArrival;
  tk_request : option RequestArrival;
  tk_reply : option ReplyArrival;
  tk_eom : option Z
}.

Section Operations.

(** [utilities::Shift] and [utilities::LocalLength] are not part of the
    sources at hand: the operations take them as parameters. *)
Variable Shift : Z -> Z -> Z -> Z.
Variable LocalLength : Z -> Z -> Z -> Z.
Variable RELEASE : bool.

(** *** Finished *)

Fixpoint Finished_loop (ranks : list Z) (st : State) : bool :=
  match ranks with
  | [] => true
  | rank :: ranks' =>
      if negb (vat (_sentEomTo st) rank) || negb (vat (_haveEomFrom st) rank)
      then false
      else Finished_loop ranks' st
  end.

Definition Finished : M State bool :=
  fun st =>
    if negb RELEASE
       && negb (_attachedForLocalToGlobal st)
       && negb (_attachedForGlobalToLocal st)
    then Thrown (logic_error "Not attached!") st
    else Returned (Finished_loop (upto (gSize (attached_Grid st))) st) st.

(** *** UpdateRequestStatuses *)

(** [for j: if( sending[j] ) sending[j] = !Test( requests[j] )] *)
Definition update_statuses (Test : Request -> bool) (reqs : list Request)
    (sending : list bool) : list bool :=
  foldl (fun fl j =>
           if (fl !!! j : bool)
           then <[j := negb (Test (reqs !!! j : Request))]> fl
           else fl)
        sending (seq 0 (length reqs)).

Definition UpdateRequestStatuses_peer (Test : Request -> bool) (i : Z)
    (st : State) : State :=
  let st1 :=
    set_sendingData
      (vupd (update_statuses Test (vat (_dataSendRequests st) i))
         (_sendingData st) i) st in
  let st2 :=
    set_sendingRequest
      (vupd (update_statuses Test (vat (_requestSendRequests st1) i))
         (_sendingRequest st1) i) st1 in
  set_sendingReply
    (vupd (update_statuses Test (vat (_replySendRequests st2) i))
       (_sendingReply st2) i) st2.

Definition UpdateRequestStatuses (Test : Request -> bool) : M State unit :=
  fun st =>
    for_each (upto (gSize (attached_Grid st)))
      (fun i => modify (UpdateRequestStatuses_peer Test i)) st.

(** *** HandleEoms *)

(** The first inner loop: [if( sending[j] ) { should = false; break; }] *)
Fixpoint scan_first (sending : list bool) (shouldSendEom : bool) : bool :=
  match sending with
  | [] => shouldSendEom
  | f :: sending' => if f then false else scan_first sending' shouldSendEom
  end.

(** The second and third inner loops:
    [if( !should || sending[j] ) { should = false; break; }] *)
Fixpoint scan_next (sending : list bool) (shouldSendEom : bool) : bool :=
  match sending with
  | [] => shouldSendEom
  | f :: sending' =>
      if negb shouldSendEom || f then false
      else scan_next sending' shouldSendEom
  end.

Definition shouldSendEom (i : Z) (st : State) : bool :=
  scan_next (vat (_sendingReply st) i)
    (scan_next (vat (_sendingRequest st) i)
       (scan_first (vat (_sendingData st) i) true)).

(** The body of the loop "Try to progress our EOM sends". *)
Definition HandleEoms_peer (i : Z) : M State unit :=
  fun st =>
    if negb (vat (_sentEomTo st) i) then
      if shouldSendEom i st then
        bind (ISSend EomMsg 1 i EOM_TAG)
          (fun request =>
             modify (fun st' =>
                       set_sentEomTo (vset (_sentEomTo st') i true)
                         (set_eomSendRequests
                            (vset (_eomSendRequests st') i request) st')))
          st
      else Returned tt st
    else Returned tt st.

Definition HandleEoms_receive (haveEom : option Z) : M State unit :=
  match haveEom with
  | Some source =>
      modify (fun st => set_haveEomFrom (vset (_haveEomFrom st) source true) st)
  | None => ret tt
  end.

Definition HandleEoms (Test : Request -> bool) (haveEom : option Z)
  : M State unit :=
  fun st =>
    let p := gSize (attached_Grid st) in
    bind (UpdateRequestStatuses Test)
      (fun _ => bind (for_each (upto p) HandleEoms_peer)
                  (fun _ => HandleEoms_receive haveEom)) st.

(** *** HandleLocalToGlobalData *)

(** [for( s<localHeight ) YCol[s] += alpha*XCol[s]] with
    [YCol = Y.LocalBuffer(iLocalOffset,jLocalOffset+t)] and
    [XCol = &XBuffer[t*localHeight]]. *)
Definition accumulate_column (alpha : T) (XBuffer : list T)
    (localHeight iLocalOffset jLocalOffset t : Z) (A : Matrix) : Matrix :=
  foldl (fun A' s =>
           mUpdate
             (fun y => Tadd y (Tmul alpha (vat XBuffer (t * localHeight + s))))
             A' (mOffset A' iLocalOffset (jLocalOffset + t) + s))
        A (upto localHeight).

(** The part "Update Y" of [HandleLocalToGlobalData]. *)
Definition accumulate (h : LocalToGlobalHeader) (XBuffer : list T)
    (Y : DistMatrix) : DistMatrix :=
  let g := dGrid Y in
  let r := gHeight g in
  let c := gWidth g in
  let myRow := MCRank g in
  let myCol := MRRank g in
  let colAlignment := Z.rem (ColAlignment Y + lg_i h) r in
  let rowAlignment := Z.rem (RowAlignment Y + lg_j h) c in
  let colShift := Shift myRow colAlignment r in
  let rowShift := Shift myCol rowAlignment c in
  let localHeight := LocalLength (lg_height h) colShift r in
  let localWidth := LocalLength (lg_width h) rowShift c in
  let iLocalOffset := LocalLength (lg_i h) (ColShift Y) r in
  let jLocalOffset := LocalLength (lg_j h) (RowShift Y) c in
  with_LocalMatrix
    (fun A =>
       foldl (fun A' t =>
                accumulate_column (lg_alpha h) XBuffer localHeight
                  iLocalOffset jLocalOffset t A')
             A (upto localWidth))
    Y.

Definition HandleLocalToGlobalData (haveData : option DataArrival)
  : M State unit :=
  fun st =>
    match haveData with
    | None => Returned tt st
    | Some a =>
        let Y := deref (_localToGlobalMat st) in
        let header := da_header a in
        let st1 :=
          set_recvVector
            {| buf_size := da_count a;
               buf_content := DataMsg header (da_payload a) |} st in
        let i := lg_i header in
        let j := lg_j header in
        let height := lg_height header in
        let width := lg_width header in
        if negb RELEASE && ((height <? 0) || (width <? 0)) then
          Thrown (logic_error "Unpacked heights were negative") st1
        else if negb RELEASE && ((i <? 0) || (j <? 0)) then
          Thrown (logic_error "Offsets must be non-negative") st1
        else if negb RELEASE
                && ((i + height >? dHeight Y) || (j + width >? dWidth Y)) then
          Thrown (logic_error "Submatrix out of bounds of global matrix") st1
        else
          Returned tt
            (set_recvVector empty_Buffer
               (set_localToGlobalMat
                  (accumulate header (da_payload a) <$> _localToGlobalMat st1)
                  st1))
    end.

(** *** HandleGlobalToLocalRequest *)

(** The payload of a reply: [localWidth] columns of [localHeight] entries,
    column [t] copied from [X.LockedLocalBuffer(iLocalOffset,jLocalOffset+t)]. *)
Definition reply_payload (A : Matrix)
    (localHeight localWidth iLocalOffset jLocalOffset : Z) : list T :=
  flat_map
    (fun t =>
       (fun s => mRead A (mOffset A iLocalOffset (jLocalOffset + t) + s))
         <$> upto localHeight)
    (upto localWidth).

(** Writing a message into [xVectors[peer][index]] and remembering the
    request of its send in [xSendRequests[peer][index]]. *)
Definition pack_into (k : Kind) (peer index : Z) (body : Packed) (st : State)
  : State :=
  set_Vectors k
    (vupd (fun row => vupd (buf_pack body) row index) (Vectors k st) peer) st.

Definition store_request (k : Kind) (peer index : Z) (request : Request)
    (st : State) : State :=
  set_SendRequests k
    (vupd (fun row => vset row index request) (SendRequests k st) peer) st.

Definition HandleGlobalToLocalRequest (Test : Request -> bool)
    (haveRequest : option RequestArrival) : M State unit :=
  fun st =>
    match haveRequest with
    | None => Returned tt st
    | Some a =>
        let X := deref (_globalToLocalMat st) in
        let g := dGrid X in
        let r := gHeight g in
        let c := gWidth g in
        let myRow := MCRank g in
        let myCol := MRRank g in
        let source := ra_source a in
        let requestHeader := ra_header a in
        let st1 :=
          set_recvVector
            {| buf_size := sizeof_GlobalToLocalRequestHeader;
               buf_content := RequestMsg requestHeader |} st in
        let i := rq_i requestHeader in
        let j := rq_j requestHeader in
        let height := rq_height requestHeader in
        let width := rq_width requestHeader in
        let colAlignment := Z.rem (ColAlignment X + i) r in
        let rowAlignment := Z.rem (RowAlignment X + j) c in
        let colShift := Shift myRow colAlignment r in
        let rowShift := Shift myCol rowAlignment c in
        let iLocalOffset := LocalLength i (ColShift X) r in
        let jLocalOffset := LocalLength j (RowShift X) c in
        let localHeight := LocalLength height colShift r in
        let localWidth := LocalLength width rowShift c in
        let numEntries := localHeight * localWidth in
        let replyHeader := {| processRow := myRow; processCol := myCol |} in
        let bufferSize :=
          numEntries * Z.pos sizeof_T + sizeof_GlobalToLocalReplyHeader in
        let body :=
          ReplyMsg replyHeader
            (reply_payload (LocalMatrix X) localHeight localWidth
               iLocalOffset jLocalOffset) in
        bind (on_Channel Reply source (ReadyForSend RELEASE Test bufferSize))
          (fun index =>
             bind (modify (pack_into Reply source index body))
               (fun _ =>
                  bind (ISSend body bufferSize source DATA_REPLY_TAG)
                    (fun request =>
                       modify (store_request Reply source index request))))
          st1
    end.

(** *** Attach, for a modifiable and for a constant matrix *)

(** The twelve [resize( p )] calls that end both overloads ([p] is the
    number of processes of the grid). *)
Definition Attach_resize (p : Z) (st : State) : State :=
  let n := Z.to_nat p in
  {| _attachedForLocalToGlobal := _attachedForLocalToGlobal st;
     _attachedForGlobalToLocal := _attachedForGlobalToLocal st;
     _localToGlobalMat := _localToGlobalMat st;
     _globalToLocalMat := _globalToLocalMat st;
     _sentEomTo := vresize n false (_sentEomTo st);
     _haveEomFrom := vresize n false (_haveEomFrom st);
     _recvVector := _recvVector st;
     _eomSendRequests := vresize n null_Request (_eomSendRequests st);
     _dataVectors := vresize n [] (_dataVectors st);
     _requestVectors := vresize n [] (_requestVectors st);
     _replyVectors := vresize n [] (_replyVectors st);
     _sendingData := vresize n [] (_sendingData st);
     _sendingRequest := vresize n [] (_sendingRequest st);
     _sendingReply := vresize n [] (_sendingReply st);
     _dataSendRequests := vresize n [] (_dataSendRequests st);
     _requestSendRequests := vresize n [] (_requestSendRequests st);
     _replySendRequests := vresize n [] (_replySendRequests st);
     mpi_sent := mpi_sent st;
     mpi_next := mpi_next st |}.

Definition Attach (axpyType : AxpyType) (Z0 : DistMatrix) : M State unit :=
  fun st =>
    if _attachedForLocalToGlobal st || _attachedForGlobalToLocal st then
      Thrown (logic_error "Must detach before reattaching.") st
    else
      let st1 :=
        match axpyType with
        | LOCAL_TO_GLOBAL =>
            set_localToGlobalMat (Some Z0)
              (set_attachedForLocalToGlobal true st)
        | GLOBAL_TO_LOCAL =>
            set_globalToLocalMat (Some Z0)
              (set_attachedForGlobalToLocal true st)
        end in
      Returned tt (Attach_resize (gSize (dGrid Z0)) st1).

Definition Attach_const (axpyType : AxpyType) (X : DistMatrix)
  : M State unit :=
  fun st =>
    if _attachedForLocalToGlobal st || _attachedForGlobalToLocal st then
      Thrown (logic_error "Must detach before reattaching.") st
    else
      match axpyType with
      | LOCAL_TO_GLOBAL =>
          Thrown (logic_error "Cannot update a constant matrix") st
      | GLOBAL_TO_LOCAL =>
          Returned tt
            (Attach_resize (gSize (dGrid X))
               (set_globalToLocalMat (Some X)
                  (set_attachedForGlobalToLocal true st)))
      end.

(** *** AxpyLocalToGlobal *)

(** The payload of an update message: [localWidth] columns of [localHeight]
    entries, [thisSendCol[s] = thisXCol[colShift+s*r]] with
    [thisXCol = &XBuffer[(rowShift+t*c)*XLDim]]. *)
Definition data_payload (X : Matrix) (r c colShift rowShift
    localHeight localWidth : Z) : list T :=
  flat_map
    (fun t =>
       (fun s => mRead X ((rowShift + t * c) * LDim X + (colShift + s * r)))
         <$> upto localHeight)
    (upto localWidth).

(** The body of the loop over [step], up to the update of [receivingRow]
    and [receivingCol]. *)
Definition AxpyLocalToGlobal_slot (Test : Request -> bool)
    (header : LocalToGlobalHeader) (X : Matrix)
    (r c colAlignment rowAlignment receivingRow receivingCol : Z)
  : M State unit :=
  let colShift := Shift receivingRow colAlignment r in
  let rowShift := Shift receivingCol rowAlignment c in
  let localHeight := LocalLength (lg_height header) colShift r in
  let localWidth := LocalLength (lg_width header) rowShift c in
  let numEntries := localHeight * localWidth in
  if negb (numEntries =? 0) then
    let destination := receivingRow + r * receivingCol in
    let bufferSize :=
      Z.pos sizeof_LocalToGlobalHeader + numEntries * Z.pos sizeof_T in
    let body :=
      DataMsg header
        (data_payload X r c colShift rowShift localHeight localWidth) in
    bind (on_Channel Data destination (ReadyForSend RELEASE Test bufferSize))
      (fun index =>
         bind (modify (pack_into Data destination index body))
           (fun _ =>
              bind (ISSend body bufferSize destination DATA_TAG)
                (fun request =>
                   modify (store_request Data destination index request))))
  else ret tt.

Definition next_receivingRow (r receivingRow : Z) : Z :=
  Z.rem (receivingRow + 1) r.

Definition next_receivingCol (r c receivingRow receivingCol : Z) : Z :=
  if next_receivingRow r receivingRow =? 0
  then Z.rem (receivingCol + 1) c
  else receivingCol.

Fixpoint AxpyLocalToGlobal_loop (Test : Request -> bool)
    (header : LocalToGlobalHeader) (X : Matrix)
    (r c colAlignment rowAlignment : Z)
    (steps : nat) (receivingRow receivingCol : Z) : M State unit :=
  match steps with
  | O => ret tt
  | S steps' =>
      bind (AxpyLocalToGlobal_slot Test header X r c colAlignment rowAlignment
              receivingRow receivingCol)
        (fun _ =>
           AxpyLocalToGlobal_loop Test header X r c colAlignment rowAlignment
             steps' (next_receivingRow r receivingRow)
             (next_receivingCol r c receivingRow receivingCol))
  end.

Definition AxpyLocalToGlobal (Test : Request -> bool) (alpha : T)
    (X : Matrix) (i j : Z) : M State unit :=
  fun st =>
    let Y := deref (_localToGlobalMat st) in
    if (i <? 0) || (j <? 0) then
      Thrown (logic_error "Submatrix offsets must be non-negative") st
    else if (i + mHeight X >? dHeight Y) || (j + mWidth X >? dWidth Y) then
      Thrown (logic_error "Submatrix out of bounds of global matrix") st
    else
      let g := dGrid Y in
      let r := gHeight g in
      let c := gWidth g in
      let p := gSize g in
      let myProcessRow := MCRank g in
      let myProcessCol := MRRank g in
      let colAlignment := Z.rem (ColAlignment Y + i) r in
      let rowAlignment := Z.rem (RowAlignment Y + j) c in
      let height := mHeight X in
      let width := mWidth X in
      let header :=
        {| lg_i := i; lg_j := j; lg_height := height; lg_width := width;
           lg_alpha := alpha |} in
      AxpyLocalToGlobal_loop Test header X r c colAlignment rowAlignment
        (Z.to_nat p) myProcessRow myProcessCol st.

(** *** AxpyGlobalToLocal

    The caller's matrix [Y] is passed by reference and is written: the
    function runs on the pair of the object's state and [Y]. *)

Definition on_State {A} (m : M State A) : M (State * Matrix) A :=
  fun sy =>
    match m (fst sy) with
    | Returned a st => Returned a (st, snd sy)
    | Thrown e st => Thrown e (st, snd sy)
    | Spinning st => Spinning (st, snd sy)
    end.

(** The body of the loop "Send out the requests to all processes". *)
Definition AxpyGlobalToLocal_request (Test : Request -> bool)
    (requestHeader : GlobalToLocalRequestHeader) (rank : Z) : M State unit :=
  let bufferSize := sizeof_GlobalToLocalRequestHeader in
  let body := RequestMsg requestHeader in
  bind (on_Channel Req rank (ReadyForSend RELEASE Test bufferSize))
    (fun index =>
       bind (modify (pack_into Req rank index body))
         (fun _ =>
            bind (ISSend body bufferSize rank DATA_REQUEST_TAG)
              (fun request =>
                 modify (store_request Req rank index request)))).

(** "Unpack the local matrix": [YCol[colShift+s*r] += alpha*XCol[s]] with
    [YCol = Y.Buffer(0,rowShift+t*c)] and [XCol = &recvData[t*localHeight]]. *)
Definition unpack_reply (alpha : T) (X : DistMatrix) (i j height width : Z)
    (a : ReplyArrival) (Y : Matrix) : Matrix :=
  let r := gHeight (dGrid X) in
  let c := gWidth (dGrid X) in
  let row := processRow (pa_header a) in
  let col := processCol (pa_header a) in
  let colAlignment := Z.rem (ColAlignment X + i) r in
  let rowAlignment := Z.rem (RowAlignment X + j) c in
  let colShift := Shift row colAlignment r in
  let rowShift := Shift col rowAlignment c in
  let localHeight := LocalLength height colShift r in
  let localWidth := LocalLength width rowShift c in
  foldl (fun Y1 t =>
           foldl (fun Y2 s =>
                    mUpdate
                      (fun y =>
                         Tadd y
                           (Tmul alpha
                              (vat (pa_payload a) (t * localHeight + s))))
                      Y2 (mOffset Y2 0 (rowShift + t * c) + (colShift + s * r)))
                 Y1 (upto localHeight))
        Y (upto localWidth).

(** The loop "Receive all of the replies", one [Tick] per round. *)
Fixpoint AxpyGlobalToLocal_wait (alpha : T) (X : DistMatrix)
    (i j height width p : Z) (ticks : list Tick) (numReplies : Z)
  : M (State * Matrix) unit :=
  fun sy =>
    if numReplies <? p then
      match ticks with
      | [] => Spinning sy
      | tk :: ticks' =>
          bind (on_State
                  (HandleGlobalToLocalRequest (tk_Test tk) (tk_request tk)))
            (fun _ =>
               match tk_reply tk with
               | Some a =>
                   bind (modify
                           (fun sy' =>
                              (set_recvVector
                                 {| buf_size := pa_count a;
                                    buf_content :=
                                      ReplyMsg (pa_header a) (pa_payload a) |}
                                 (fst sy'),
                               unpack_reply alpha X i j height width a
                                 (snd sy'))))
                     (fun _ =>
                        AxpyGlobalToLocal_wait alpha X i j height width p
                          ticks' (numReplies + 1))
               | None =>
                   AxpyGlobalToLocal_wait alpha X i j height width p
                     ticks' numReplies
               end) sy
      end
    else Returned tt sy.

Definition AxpyGlobalToLocal (Test : Request -> bool) (ticks : list Tick)
    (alpha : T) (i j : Z) : M (State * Matrix) unit :=
  fun sy =>
    let X := deref (_globalToLocalMat (fst sy)) in
    let height := mHeight (snd sy) in
    let width := mWidth (snd sy) in
    if (i + height >? dHeight X) || (j + width >? dWidth X) then
      Thrown (logic_error "Invalid AxpyGlobalToLocal submatrix") sy
    else
      let p := gSize (dGrid X) in
      let requestHeader :=
        {| rq_i := i; rq_j := j; rq_height := height; rq_width := width |} in
      bind (on_State
              (for_each (upto p)
                 (AxpyGlobalToLocal_request Test requestHeader)))
        (fun _ => AxpyGlobalToLocal_wait alpha X i j height width p ticks 0)
        sy.

(** *** Axpy, for a modifiable and for a constant local matrix *)

Definition Axpy (Test : Request -> bool) (ticks : list Tick) (alpha : T)
    (i j : Z) : M (State * Matrix) unit :=
  fun sy =>
    if _attachedForLocalToGlobal (fst sy) then
      on_State (AxpyLocalToGlobal Test alpha (snd sy) i j) sy
    else if _attachedForGlobalToLocal (fst sy) then
      AxpyGlobalToLocal Test ticks alpha i j sy
    else Thrown (logic_error "Cannot axpy before attaching.") sy.

Definition Axpy_const (Test : Request -> bool) (alpha : T) (Z0 : Matrix)
    (i j : Z) : M State unit :=
  fun st =>
    if _attachedForLocalToGlobal st then
      AxpyLocalToGlobal Test alpha Z0 i j st
    else if _attachedForGlobalToLocal st then
      Thrown (logic_error "Cannot update a constant matrix.") st
    else Thrown (logic_error "Cannot axpy before attaching.") st.

(** *** Detach *)

(** One round of [while( !Finished() )]: the body of the loop. *)
Definition Detach_round (tk : Tick) : M State unit :=
  fun st =>
    bind (if _attachedForLocalToGlobal st
          then HandleLocalToGlobalData (tk_data tk)
          else HandleGlobalToLocalRequest (tk_Test tk) (tk_request tk))
      (fun _ => HandleEoms (tk_TestEom tk) (tk_eom tk)) st.

Fixpoint Detach_drain (ticks : list Tick) : M State unit :=
  bind Finished
    (fun finished =>
       if finished then ret tt
       else match ticks with
            | [] => fun st => Spinning st
            | tk :: ticks' =>
                bind (Detach_round tk) (fun _ => Detach_drain ticks')
            end).

(** The assignments and [clear()] calls after [mpi::Barrier], which
    exchanges no data and is not modelled. *)
Definition Detach_clear (st : State) : State :=
  {| _attachedForLocalToGlobal := false;
     _attachedForGlobalToLocal := false;
     _localToGlobalMat := _localToGlobalMat st;
     _globalToLocalMat := _globalToLocalMat st;
     _sentEomTo := [];
     _haveEomFrom := [];
     _recvVector := empty_Buffer;
     _eomSendRequests := [];
     _dataVectors := [];
     _requestVectors := [];
     _replyVectors := [];
     _sendingData := [];
     _sendingRequest := [];
     _sendingReply := [];
     _dataSendRequests := [];
     _requestSendRequests := [];
     _replySendRequests := [];
     mpi_sent := mpi_sent st;
     mpi_next := mpi_next st |}.

Definition Detach (ticks : list Tick) : M State unit :=
  fun st =>
    if negb (_attachedForLocalToGlobal st)
       && negb (_attachedForGlobalToLocal st) then
      Thrown (logic_error "Must attach before detaching.") st
    else
      bind (Detach_drain ticks) (fun _ => modify Detach_clear) st.

End Operations.

(** The object that the default constructor [AxpyInterface()] builds. *)
Definition AxpyInterface_new : State :=
  {| _attachedForLocalToGlobal := false;
     _attachedForGlobalToLocal := false;
     _localToGlobalMat := None;
     _globalToLocalMat := None;
     _sentEomTo := [];
     _haveEomFrom := [];
     _recvVector := empty_Buffer;
     _eomSendRequests := [];
     _dataVectors := [];
     _requestVectors := [];
     _replyVectors := [];
     _sendingData := [];
     _sendingRequest := [];
     _sendingReply := [];
     _dataSendRequests := [];
     _requestSendRequests := [];
     _replySendRequests := [];
     mpi_sent := [];
     mpi_next := 1%nat |}.

End AxpyInterface.

Arguments Matrix T : clear implicits.
Arguments DistMatrix T : clear implicits.
Arguments State T : clear implicits.
Arguments Channel T : clear implicits.
Arguments Buffer T : clear implicits.
Arguments Packed T : clear implicits.
Arguments Send T : clear implicits.
Arguments Tick T : clear implicits.
Arguments LocalToGlobalHeader T : clear implicits.
Arguments DataArrival T : clear implicits.
Arguments ReplyArrival T : clear implicits.

(** * Instances used by the examples *)

(** The coordinate math of the cyclic distribution.  In the spec
    (section 3) the rows of a matrix cycle through the rows of the grid
    with the grid height as period, starting at the alignment; likewise for
    columns. *)
Module utilities.

(** Modelled from the spec: [utilities::Shift] is not part of the sources
    at hand.  The first row that the grid row [rank] owns: the distance of
    [rank] from the alignment, modulo the grid height. *)
Definition Shift (rank alignment modulus : Z) : Z :=
  Z.rem (rank + modulus - alignment) modulus.

(** Modelled from the spec: [utilities::LocalLength] is not part of the
    sources at hand.  The number of the rows [shift], [shift + modulus],
    [shift + 2*modulus], ... below [n]. *)
Definition LocalLength (n shift modulus : Z) : Z :=
  if n >? shift then Z.quot (n - shift - 1) modulus + 1 else 0.

End utilities.

(** The ring of the integers as [T], with 8-byte entries and a 24-byte
    update header. *)
#[global] Instance Z_Scalar : Scalar Z :=
  {| Tzero := 0; Tadd := Z.add; Tmul := Z.mul;
     sizeof_T := 8; sizeof_LocalToGlobalHeader := 24 |}.

(** ** Notions used in the statements about [ReadyForSend] *)

(** The prior send of slot [i] is still in flight: it was started and
    [mpi::Test] does not report it complete. *)
Definition in_flight {T} (Test : Request -> bool) (ch : Channel T) (i : nat)
  : Prop :=
  requestStatuses ch !!! i = true /\ Test (requests ch !!! i) = false.

(** The channel after slot [i] has been claimed for a send of [sendSize]
    bytes. *)
Definition claim {T} (sendSize : Z) (ch : Channel T) (i : nat) : Channel T :=
  {| sendVectors :=
       <[i := {| buf_size := sendSize;
                 buf_content := buf_content (sendVectors ch !!! i) |}]>
         (sendVectors ch);
     requests := requests ch;
     requestStatuses := <[i := true]> (requestStatuses ch) |}.

(** The channel after a slot for [sendSize] bytes has been appended. *)
Definition append_slot {T} (sendSize : Z) (ch : Channel T) : Channel T :=
  {| sendVectors :=
       sendVectors ch ++ [{| buf_size := sendSize; buf_content := Unpacked |}];
     requests := requests ch ++ [null_Request];
     requestStatuses := requestStatuses ch ++ [true] |}.

(** The three vectors of a channel have one length. *)
Definition aligned {T} (ch : Channel T) : Prop :=
  length (requests ch) = length (sendVectors ch)
  /\ length (requestStatuses ch) = length (sendVectors ch).

(** ** Notions used in the statements about [HandleEoms] *)

(** No data, request or reply send to [X] is marked as being in flight. *)
Definition no_send_in_flight {T} (X : Z) (st : State T) : Prop :=
  Forall (fun f => f = false) (vat (_sendingData st) X)
  /\ Forall (fun f => f = false) (vat (_sendingRequest st) X)
  /\ Forall (fun f => f = false) (vat (_sendingReply st) X).

(** The state of the object within a call [HandleEoms()] when [n] rounds
    of the loop "Try to progress our EOM sends" have run. *)
Definition HandleEoms_at {T} (Test : Request -> bool) (n : nat) (st : State T)
  : State T :=
  foldl (fun s i => final_state (HandleEoms_peer i s))
        (final_state (UpdateRequestStatuses Test st))
        (take n (upto (gSize (attached_Grid st)))).

(** The sends that a call has added to the log. *)
Definition new_sends {T} (before after : State T) : list (Send T) :=
  drop (length (mpi_sent before)) (mpi_sent after).

(** ** Notions used in the statements about the sends *)

(** The sequence that [AxpyLocalToGlobal], [AxpyGlobalToLocal] and
    [HandleGlobalToLocalRequest] each spell out: get a slot of
    [xVectors[peer]] from [ReadyForSend], pack [body] into it, send it with
    [mpi::ISSend] and keep the request in [xSendRequests[peer][index]]. *)
Definition post {T} {ST : Scalar T} (RELEASE : bool) (Test : Request -> bool)
    (k : Kind) (peer bufferSize : Z) (body : Packed T) (tag : Z)
  : M (State T) unit :=
  bind (on_Channel k peer (ReadyForSend RELEASE Test bufferSize))
    (fun index =>
       bind (modify (pack_into k peer index body))
         (fun _ =>
            bind (ISSend body bufferSize peer tag)
              (fun request => modify (store_request k peer index request)))).

(** The message that such a sequence puts on the wire. *)
Definition wire {T} (peer bufferSize : Z) (body : Packed T) (tag : Z)
  : Send T :=
  {| snd_dest := peer; snd_tag := tag; snd_count := bufferSize;
     snd_body := body |}.

(** The fields of the object other than the buffer pools and the MPI log:
    the attachment and both matrices, the End-Of-Message flags and
    requests, and the receive buffer. *)
Definition rest_of_State {T} (st : State T) :=
  (_attachedForLocalToGlobal st, _attachedForGlobalToLocal st,
   _localToGlobalMat st, _globalToLocalMat st,
   (_sentEomTo st, _haveEomFrom st, _recvVector st, _eomSendRequests st)).

(** In every buffer pool of the object the three vectors of vectors have
    one shape: as many peers, and for each peer as many buffers as requests
    and as statuses. *)
Definition pools_aligned {T} (st : State T) : Prop :=
  forall k : Kind,
    length <$> SendRequests k st = length <$> Vectors k st
    /\ length <$> Sending k st = length <$> Vectors k st.

(** ** Notions used in the statements about the attachment *)

Definition attached {T} (st : State T) : bool :=
  _attachedForLocalToGlobal st || _attachedForGlobalToLocal st.

(** The two attachment flags and the two attached matrices. *)
Definition attachment {T} (st : State T) :=
  (_attachedForLocalToGlobal st, _attachedForGlobalToLocal st,
   _localToGlobalMat st, _globalToLocalMat st).

(** [Y'] is [Y] after some number of updates, each of them the part
    "Update Y" of [HandleLocalToGlobalData] for some received message. *)
Inductive put_serviced {T} {ST : Scalar T} (Shift LocalLength : Z -> Z -> Z -> Z)
  : option (DistMatrix T) -> option (DistMatrix T) -> Prop :=
| put_serviced_none Y : put_serviced Shift LocalLength Y Y
| put_serviced_more Y Y' h XBuffer :
    put_serviced Shift LocalLength Y Y' ->
    put_serviced Shift LocalLength Y
      (accumulate Shift LocalLength h XBuffer <$> Y').

(** ** Notions used in the statements about [AxpyLocalToGlobal] *)

(** The slots of the grid in the order in which the loop over [step]
    visits them: the successive values of
    [(receivingRow, receivingCol)]. *)
Fixpoint visits (r c : Z) (steps : nat) (receivingRow receivingCol : Z)
  : list (Z * Z) :=
  match steps with
  | O => []
  | S steps' =>
      (receivingRow, receivingCol)
      :: visits r c steps' (next_receivingRow r receivingRow)
           (next_receivingCol r c receivingRow receivingCol)
  end.

(** The order that the spec words name: row-major by (row, col). *)
Definition row_major_slots (r c : Z) : list (Z * Z) :=
  flat_map (fun row => (fun col => (row, col)) <$> upto c) (upto r).

(** The rank [row + r*col] of a slot, as the code computes [destination],
    and the slot of a rank. *)
Definition rank_of_slot (r : Z) (slot : Z * Z) : Z := fst slot + r * snd slot.
Definition slot_of_rank (r : Z) (q : Z) : Z * Z := (q mod r, q / r).

Section put_notions.

Context {T : Type} {ST : Scalar T}.
Variable Shift : Z -> Z -> Z -> Z.
Variable LocalLength : Z -> Z -> Z -> Z.
Variable header : LocalToGlobalHeader T.
Variable X : Matrix T.
Variables r c colAlignment rowAlignment : Z.

(** [numEntries] as the loop computes it for a slot. *)
Definition slot_numEntries (slot : Z * Z) : Z :=
  LocalLength (lg_height header) (Shift (fst slot) colAlignment r) r
  * LocalLength (lg_width header) (Shift (snd slot) rowAlignment c) c.

Definition slot_owns (slot : Z * Z) : bool :=
  negb (slot_numEntries slot =? 0).

(** The update message that the loop sends to a slot. *)
Definition slot_message (slot : Z * Z) : Send T :=
  let colShift := Shift (fst slot) colAlignment r in
  let rowShift := Shift (snd slot) rowAlignment c in
  let localHeight := LocalLength (lg_height header) colShift r in
  let localWidth := LocalLength (lg_width header) rowShift c in
  wire (rank_of_slot r slot)
    (Z.pos sizeof_LocalToGlobalHeader
     + localHeight * localWidth * Z.pos sizeof_T)
    (DataMsg header
       (data_payload X r c colShift rowShift localHeight localWidth))
    DATA_TAG.

End put_notions.

(** ** Notions used in the statements about the life of an attachment *)

(** Every vector of the object is empty, as the default constructor and
    the [clear()] calls of [Detach] leave them. *)
Definition cleared {T} (st : State T) : Prop :=
  _sentEomTo st = [] /\ _haveEomFrom st = [] /\ _eomSendRequests st = []
  /\ forall k : Kind,
       Vectors k st = [] /\ Sending k st = [] /\ SendRequests k st = [].

(** The channel state of an attachment to [p] peers on which nothing has
    happened yet: no End-Of-Message sent or received, no buffer. *)
Definition pristine {T} (p : nat) (st : State T) : Prop :=
  _sentEomTo st = replicate p false
  /\ _haveEomFrom st = replicate p false
  /\ _eomSendRequests st = replicate p null_Request
  /\ forall k : Kind,
       Vectors k st = replicate p []
       /\ Sending k st = replicate p []
       /\ SendRequests k st = replicate p [].

(** For every rank of the attached grid the object has sent an
    End-Of-Message token and has received one. *)
Definition all_eoms_exchanged {T} (st : State T) : Prop :=
  forall rank,
    0 <= rank < gSize (attached_Grid st) ->
    vat (_sentEomTo st) rank = true /\ vat (_haveEomFrom st) rank = true.

(** The End-Of-Message token for a peer, as [HandleEoms] sends it. *)
Definition eom_token {T} (peer : Z) : Send T :=
  {| snd_dest := peer; snd_tag := EOM_TAG; snd_count := 1;
     snd_body := EomMsg |}.


(** The object after the sending sequence [post] has got the slot [index]
    and the channel [ch'] from [ReadyForSend]: the channel is written
    back, the message is packed and logged, the request is kept. *)
Definition post_state {T} (k : Kind) (peer index bufferSize : Z)
    (body : Packed T) (tag : Z) (ch' : Channel T) (st : State T) : State T :=
  store_request k peer index (mpi_next st)
    (set_mpi_next (S (mpi_next st))
       (set_mpi_sent
          (mpi_sent st ++ [wire peer bufferSize body tag])
          (pack_into k peer index body (put_Channel k peer ch' st)))).


(** ** Notions used in the statements about the entries of a matrix *)

(** A list of writes [(k, f)], each replacing the entry at the offset [k]
    of the buffer of a matrix by [f] of it, done from left to right. *)
Definition scatter {T} {ST : Scalar T} (writes : list (Z * (T -> T)))
    (A : Matrix T) : Matrix T :=
  foldl (fun A' w => mUpdate (snd w) A' (fst w)) A writes.


(** ** The range of [int] *)

(** The model computes in [Z] what the code computes in [int]: the sums
    of the bounds tests, and the buffer sizes, which the code computes in
    [size_t] and stores in an [int].  The two agree for the numbers in the
    range of [int]; the statements that depend on such a number take it to
    be in this range. *)
Definition INT_MAX : Z := 2147483647.
Definition INT_MIN : Z := - 2147483648.

Definition fits_int (z : Z) : Prop := INT_MIN <= z <= INT_MAX.

(** [bufferSize] as [HandleGlobalToLocalRequest] computes it on the
    process that holds [X], for the request [(i, j, height, width)]. *)
Definition reply_bufferSize {T} {ST : Scalar T}
    (Shift LocalLength : Z -> Z -> Z -> Z) (X : DistMatrix T)
    (i j height width : Z) : Z :=
  let g := dGrid X in
  let r := gHeight g in
  let c := gWidth g in
  let colShift := Shift (MCRank g) (Z.rem (ColAlignment X + i) r) r in
  let rowShift := Shift (MRRank g) (Z.rem (RowAlignment X + j) c) c in
  let localHeight := LocalLength height colShift r in
  let localWidth := LocalLength width rowShift c in
  localHeight * localWidth * Z.pos sizeof_T + sizeof_GlobalToLocalReplyHeader.


(** ** Concrete objects for the examples: [T] is [Z] *)

Module Examples.

Definition grid (r c myRow myCol : Z) : Grid :=
  {| gHeight := r; gWidth := c; MCRank := myRow; MRRank := myCol |}.

(** A [height] x [width] matrix, all zero, with both alignments 0, as the
    process [(myRow, myCol)] of an [r] x [c] grid holds it. *)
Definition zeros (height width r c myRow myCol : Z) : DistMatrix Z :=
  let localHeight := utilities.LocalLength height myRow r in
  let localWidth := utilities.LocalLength width myCol c in
  {| dHeight := height; dWidth := width;
     ColAlignment := 0; RowAlignment := 0;
     ColShift := myRow; RowShift := myCol;
     dGrid := grid r c myRow myCol;
     LocalMatrix :=
       {| mHeight := localHeight; mWidth := localWidth; LDim := localHeight;
          mBuffer := replicate (Z.to_nat (localHeight * localWidth)) 0 |} |}.

(** The same with the entries 1, 2, 3, ... in the local buffer. *)
Definition counting (height width r c myRow myCol : Z) : DistMatrix Z :=
  with_LocalMatrix
    (fun A =>
       {| mHeight := mHeight A; mWidth := mWidth A; LDim := LDim A;
          mBuffer := (fun k => k + 1) <$> upto (vsize (mBuffer A)) |})
    (zeros height width r c myRow myCol).

(** A local [height] x [width] matrix with the given entries, column by
    column. *)
Definition local (height width : Z) (entries : list Z) : Matrix Z :=
  {| mHeight := height; mWidth := width; LDim := height;
     mBuffer := entries |}.

(** A fresh object attached for put to [Y], and one attached for get to
    [X]. *)
Definition attached_for_put (Y : DistMatrix Z) : State Z :=
  final_state (Attach LOCAL_TO_GLOBAL Y AxpyInterface_new).

Definition attached_for_get (X : DistMatrix Z) : State Z :=
  final_state (Attach_const GLOBAL_TO_LOCAL X AxpyInterface_new).

Definition never_complete : Request -> bool := fun _ => false.
Definition only_first_complete : Request -> bool :=
  fun request => (request =? 1)%nat.

(** The operations on these objects, with the coordinate math of
    [utilities]. *)
Definition AxpyLocalToGlobal_Z (RELEASE : bool) :=
  @AxpyLocalToGlobal Z Z_Scalar utilities.Shift utilities.LocalLength RELEASE.
Definition AxpyGlobalToLocal_Z (RELEASE : bool) :=
  @AxpyGlobalToLocal Z Z_Scalar utilities.Shift utilities.LocalLength RELEASE.
Definition HandleLocalToGlobalData_Z (RELEASE : bool) :=
  @HandleLocalToGlobalData Z Z_Scalar utilities.Shift utilities.LocalLength
    RELEASE.
Definition HandleGlobalToLocalRequest_Z (RELEASE : bool) :=
  @HandleGlobalToLocalRequest Z Z_Scalar utilities.Shift utilities.LocalLength
    RELEASE.

(** A put of the column [10; 20] at [(0, 0)] into a 2 x 1 matrix on a 2 x 1
    grid, by the process [(0, 0)]; and a put of a 2 x 2 block at [(0, 0)]
    into a 4 x 4 matrix on a 2 x 2 grid. *)
Definition put_2x1 : State Z :=
  final_state
    (AxpyLocalToGlobal_Z false never_complete 1 (local 2 1 [10; 20]) 0 0
       (attached_for_put (zeros 2 1 2 1 0 0))).

Definition put_2x2 : State Z :=
  final_state
    (AxpyLocalToGlobal_Z false never_complete 1 (local 2 2 [1; 2; 3; 4]) 0 0
       (attached_for_put (zeros 4 4 2 2 0 0))).

(** The End-Of-Message token for [peer]. *)
Definition eom (peer : Z) : Send Z :=
  {| snd_dest := peer; snd_tag := EOM_TAG; snd_count := 1;
     snd_body := EomMsg |}.

(** An update message whose header has the row offset -1. *)
Definition bad_update : DataArrival Z :=
  {| da_source := 0; da_count := 32;
     da_header := {| lg_i := -1; lg_j := 0; lg_height := 1; lg_width := 1;
                     lg_alpha := 1 |};
     da_payload := [7] |}.

(** One round of the wait loop of a get with the row offset -1 on a 1 x 1
    grid: the process finds its own request, and then the reply to it. *)
Definition self_service : Tick Z :=
  {| tk_Test := never_complete; tk_TestEom := never_complete;
     tk_data := None;
     tk_request :=
       Some {| ra_source := 0;
               ra_header := {| rq_i := -1; rq_j := 0; rq_height := 1;
                               rq_width := 1 |} |};
     tk_reply :=
       Some {| pa_source := 0; pa_count := 16;
               pa_header := {| processRow := 0; processCol := 0 |};
               pa_payload := [1] |};
     tk_eom := None |}.

(** A buffer pool with two slots: the send of the first is in flight, the
    second is free. *)
Definition two_slots : Channel Z :=
  {| sendVectors := [{| buf_size := 32; buf_content := Unpacked |};
                     {| buf_size := 8; buf_content := Unpacked |}];
     requests := [1%nat; 2%nat];
     requestStatuses := [true; false] |}.

(** The scenario of the spec (section 8): on a 2 x 2 grid each process
    puts a 2 x 2 block of ones at its home quadrant [(2*row, 2*col)] of a
    4 x 4 matrix of zeros; [serviced row col] is the object of the process
    [(row, col)] after it has serviced every update message sent to it. *)
Definition process_state (row col : Z) : State Z :=
  attached_for_put (zeros 4 4 2 2 row col).

Definition home_put (row col : Z) : list (Send Z) :=
  mpi_sent
    (final_state
       (AxpyLocalToGlobal_Z false never_complete 1 (local 2 2 [1; 1; 1; 1])
          (2 * row) (2 * col) (process_state row col))).

Definition all_sends : list (Send Z) :=
  home_put 0 0 ++ home_put 1 0 ++ home_put 0 1 ++ home_put 1 1.

Definition arrival (m : Send Z) : option (DataArrival Z) :=
  match snd_body m with
  | DataMsg h payload =>
      Some {| da_source := 0; da_count := snd_count m; da_header := h;
              da_payload := payload |}
  | _ => None
  end.

Definition serviced (row col : Z) : State Z :=
  foldl (fun st m =>
           if snd_dest m =? row + 2 * col
           then final_state (HandleLocalToGlobalData_Z false (arrival m) st)
           else st)
        (process_state row col) all_sends.


(** One round of the loop of [Detach] on a 1 x 1 grid in which the
    End-Of-Message of the process itself arrives. *)
Definition eom_round : Tick Z :=
  {| tk_Test := never_complete; tk_TestEom := never_complete;
     tk_data := None; tk_request := None; tk_reply := None;
     tk_eom := Some 0 |}.

(** The object of the only process of a 1 x 1 grid after [Attach] and a
    [Detach] that takes this round. *)
Definition detached : State Z :=
  final_state
    (Detach utilities.Shift utilities.LocalLength false [eom_round]
       (attached_for_put (zeros 4 4 1 1 0 0))).

(** One round of the wait loop of a get of the entry [(0, 0)] on a 1 x 1
    grid: the process finds its own request, and then the reply to it. *)
Definition get_round : Tick Z :=
  {| tk_Test := never_complete; tk_TestEom := never_complete;
     tk_data := None;
     tk_request :=
       Some {| ra_source := 0;
               ra_header := {| rq_i := 0; rq_j := 0; rq_height := 1;
                               rq_width := 1 |} |};
     tk_reply :=
       Some {| pa_source := 0; pa_count := 16;
               pa_header := {| processRow := 0; processCol := 0 |};
               pa_payload := [1] |};
     tk_eom := None |}.

(** The object and the destination after that get. *)
Definition got : State Z * Matrix Z :=
  final_state
    (AxpyGlobalToLocal utilities.Shift utilities.LocalLength false
       never_complete [get_round] 1 0 0
       (attached_for_get (counting 4 4 1 1 0 0), local 1 1 [0])).

(** An update message for the block of the rows and columns 1 and 2 of a
    4 x 4 matrix on a 1 x 1 grid. *)
Definition block_update : DataArrival Z :=
  {| da_source := 0; da_count := 56;
     da_header := {| lg_i := 1; lg_j := 1; lg_height := 2; lg_width := 2;
                     lg_alpha := 3 |};
     da_payload := [1; 2; 3; 4] |}.

End Examples.


(** * Properties *)

(** ** Vectors *)

Lemma vat_of_nat {A} `{Inhabited A} (v : list A) (i : nat) :
  vat v (Z.of_nat i) = v !!! i.
Proof.
  unfold vat. destruct (Z.leb_spec 0 (Z.of_nat i)); [|lia].
  by rewrite Nat2Z.id.
Qed.

Lemma length_vupd {A} (f : A -> A) (v : list A) (k : Z) :
  length (vupd f v k) = length v.
Proof. unfold vupd. destruct (0 <=? k); [apply length_alter|done]. Qed.

(** ** ReadyForSend *)

Section ReadyForSend_properties.

Context {T : Type} {ST : Scalar T}.
Variable RELEASE : bool.
Variable Test : Request -> bool.
Variable sendSize : Z.
Hypothesis sendSize_nonneg : 0 <= sendSize.

Lemma in_flight_dec (ch : Channel T) (i : nat) :
  in_flight Test ch i \/ ~ in_flight Test ch i.
Proof.
  unfold in_flight.
  destruct (requestStatuses ch !!! i), (Test (requests ch !!! i));
    intuition congruence.
Qed.

Lemma ReadyForSend_slot_busy (ch : Channel T) (i : nat) :
  in_flight Test ch i ->
  ReadyForSend_slot Test sendSize i ch = Returned None ch.
Proof.
  intros [Hs Ht]. unfold ReadyForSend_slot. rewrite Hs, Ht. simpl.
  assert (<[i := true]> (requestStatuses ch) = requestStatuses ch) as ->.
  { destruct (decide (i < length (requestStatuses ch))%nat) as [Hi|Hi].
    - apply list_insert_id. rewrite list_lookup_total_alt in Hs.
      destruct (requestStatuses ch !! i) eqn:E; simpl in Hs; [by subst|].
      apply lookup_ge_None in E. lia.
    - apply list_insert_ge. lia. }
  rewrite Hs. simpl. by destruct ch.
Qed.

Lemma ReadyForSend_slot_free (ch : Channel T) (i : nat) :
  (i < length (requestStatuses ch))%nat ->
  ~ in_flight Test ch i ->
  ReadyForSend_slot Test sendSize i ch
  = Returned (Some (Z.of_nat i)) (claim sendSize ch i).
Proof.
  intros Hi Hfree. unfold ReadyForSend_slot, buf_resize, claim.
  destruct (Z.ltb_spec sendSize 0); [lia|].
  destruct (requestStatuses ch !!! i) eqn:Hs.
  - destruct (Test (requests ch !!! i)) eqn:Ht.
    + simpl. rewrite list_lookup_total_alt, list_lookup_insert_eq by done.
      simpl. by rewrite list_insert_insert_eq.
    + exfalso. apply Hfree. by split.
  - rewrite Hs. simpl. done.
Qed.

Lemma ReadyForSend_scan_spec (ch : Channel T) (slots : list nat) :
  (forall i, i ∈ slots -> (i < length (requestStatuses ch))%nat) ->
  (exists i, i ∈ slots /\ ~ in_flight Test ch i /\
             ReadyForSend_scan Test sendSize slots ch
             = Returned (Some (Z.of_nat i)) (claim sendSize ch i))
  \/ ((forall i, i ∈ slots -> in_flight Test ch i) /\
      ReadyForSend_scan Test sendSize slots ch = Returned None ch).
Proof.
  induction slots as [|i slots IH]; intros Hlt.
  - right. split; [|done]. intros i Hi. by apply elem_of_nil in Hi.
  - simpl. unfold bind.
    destruct (in_flight_dec ch i) as [Hb|Hf].
    + rewrite (ReadyForSend_slot_busy _ _ Hb).
      destruct IH as [(k & Hk & Hfree & Heq)|[Hall Heq]].
      * intros k Hk. apply Hlt. by right.
      * left. exists k. split; [by right|]. by split.
      * right. split; [|done]. intros k Hk.
        apply elem_of_cons in Hk as [->|Hk]; auto.
    + left. exists i. split; [by left|]. split; [done|].
      rewrite ReadyForSend_slot_free; [done| |done].
      apply Hlt. by left.
Qed.

End ReadyForSend_properties.

(** With a negative size the first free slot, or else the appended one,
    makes [resize] throw. *)
Lemma ReadyForSend_scan_negative {T : Type} (Test : Request -> bool)
    (sendSize : Z) (ch : Channel T) (slots : list nat) :
  sendSize < 0 ->
  (forall i, i ∈ slots -> (i < length (requestStatuses ch))%nat) ->
  (exists ch', ReadyForSend_scan Test sendSize slots ch
               = Thrown length_error ch')
  \/ ReadyForSend_scan Test sendSize slots ch = Returned None ch.
Proof.
  intros Hneg. induction slots as [|i slots IH]; intros Hlt; [by right|].
  simpl. unfold bind.
  destruct (in_flight_dec Test ch i) as [Hb|Hf].
  - rewrite (ReadyForSend_slot_busy _ _ _ _ Hb).
    apply IH. intros k Hk. apply Hlt. by right.
  - left. unfold ReadyForSend_slot, buf_resize.
    destruct (Z.ltb_spec sendSize 0); [|lia].
    assert (Hi : (i < length (requestStatuses ch))%nat) by (apply Hlt; by left).
    destruct (requestStatuses ch !!! i) eqn:Hs.
    + destruct (Test (requests ch !!! i)) eqn:Ht.
      * simpl. rewrite list_lookup_total_alt, list_lookup_insert_eq by done.
        simpl. by eexists.
      * exfalso. apply Hf. by split.
    + rewrite Hs. simpl. by eexists.
Qed.

Lemma ReadyForSend_negative {T : Type} {ST : Scalar T} (RELEASE : bool)
    (Test : Request -> bool) (sendSize : Z) (ch : Channel T) :
  aligned ch -> sendSize < 0 ->
  exists ch', ReadyForSend RELEASE Test sendSize ch = Thrown length_error ch'.
Proof.
  intros [Hreq Hst] Hneg. unfold ReadyForSend.
  rewrite Hreq, Hst, Nat.eqb_refl. simpl. rewrite andb_false_r.
  unfold bind.
  destruct (ReadyForSend_scan_negative Test sendSize ch
              (seq 0 (length (sendVectors ch))) Hneg) as [[ch' ->]| ->].
  - intros i Hi. apply elem_of_seq in Hi. lia.
  - by eexists.
  - unfold ReadyForSend_append, buf_resize.
    destruct (Z.ltb_spec sendSize 0); [|lia]. by eexists.
Qed.

(** The two ways in which [ReadyForSend] returns. *)
Lemma ReadyForSend_cases {T : Type} {ST : Scalar T}
    (RELEASE : bool) (Test : Request -> bool) (sendSize : Z)
    (ch : Channel T) :
  aligned ch ->
  0 <= sendSize ->
  (exists i, (i < length (sendVectors ch))%nat /\ ~ in_flight Test ch i
             /\ ReadyForSend RELEASE Test sendSize ch
                = Returned (Z.of_nat i) (claim sendSize ch i))
  \/ ((forall k, (k < length (sendVectors ch))%nat -> in_flight Test ch k)
      /\ ReadyForSend RELEASE Test sendSize ch
         = Returned (vsize (sendVectors ch)) (append_slot sendSize ch)).
Proof.
  intros [Hreq Hst] Hsize. unfold ReadyForSend.
  rewrite Hreq, Hst, Nat.eqb_refl. simpl. rewrite andb_false_r.
  unfold bind.
  destruct (ReadyForSend_scan_spec Test sendSize Hsize ch
              (seq 0 (length (sendVectors ch))))
    as [(i & Hi & Hfree & ->)|[Hall ->]].
  - intros i Hi. apply elem_of_seq in Hi. lia.
  - apply elem_of_seq in Hi. left. exists i. split; [lia|]. by split.
  - right. split; [intros k Hk; apply Hall, elem_of_seq; lia|].
    unfold ReadyForSend_append, buf_resize, append_slot, vsize.
    destruct (Z.ltb_spec sendSize 0); [lia|].
    set (n := length (sendVectors ch)).
    assert (vresize (n + 1) empty_Buffer (sendVectors ch)
            = sendVectors ch ++ [empty_Buffer]) as ->.
    { unfold vresize. rewrite take_ge by (fold n; lia).
      fold n. by replace (n + 1 - n)%nat with 1%nat by lia. }
    assert (vresize (n + 1) null_Request (requests ch)
            = requests ch ++ [null_Request]) as ->.
    { unfold vresize. rewrite take_ge by lia.
      rewrite Hreq. fold n. by replace (n + 1 - n)%nat with 1%nat by lia. }
    rewrite list_lookup_total_alt, lookup_app_r by (fold n; lia).
    fold n. rewrite Nat.sub_diag. simpl.
    f_equal. f_equal.
    replace n with (length (sendVectors ch) + 0)%nat at 1 by (fold n; lia).
    by rewrite insert_app_r.
Qed.

Lemma aligned_claim {T} (sendSize : Z) (ch : Channel T) (i : nat) :
  aligned ch -> aligned (claim sendSize ch i).
Proof. unfold aligned. simpl. by rewrite !length_insert. Qed.

Lemma aligned_append_slot {T} (sendSize : Z) (ch : Channel T) :
  aligned ch -> aligned (append_slot sendSize ch).
Proof.
  unfold aligned. simpl. rewrite !length_app. simpl. lia.
Qed.

(** C7.  Take a call of [ReadyForSend] on three vectors of one length.
    With a size that is not negative the call returns an index [idx] of a
    slot of the vectors as they are on return; there the buffer has
    [sendSize] bytes and the status is true.  If [idx] is a slot that
    existed before the call, the send of that slot was not in flight any
    more, and no vector has changed its length; if a slot has been
    appended, every vector has grown by one, [idx] is the new slot, and the
    send of every earlier slot is still in flight.  On return the three
    vectors have one length again.  The call does not return only when
    [sendSize] is negative: then [resize] throws. *)
Theorem ReadyForSend_returns_usable_slot {T : Type} {ST : Scalar T}
    (RELEASE : bool) (Test : Request -> bool) (sendSize : Z)
    (ch : Channel T) :
  aligned ch ->
  (0 <= sendSize ->
   exists idx ch',
     ReadyForSend RELEASE Test sendSize ch = Returned idx ch'
     /\ 0 <= idx < vsize (sendVectors ch')
     /\ buf_size (vat (sendVectors ch') idx) = sendSize
     /\ vat (requestStatuses ch') idx = true
     /\ (idx < vsize (sendVectors ch) ->
         ~ in_flight Test ch (Z.to_nat idx)
         /\ length (sendVectors ch') = length (sendVectors ch))
     /\ (vsize (sendVectors ch) <= idx ->
         idx = vsize (sendVectors ch)
         /\ length (sendVectors ch') = S (length (sendVectors ch))
         /\ length (requests ch') = S (length (requests ch))
         /\ length (requestStatuses ch') = S (length (requestStatuses ch))
         /\ forall k, (k < length (sendVectors ch))%nat ->
                      in_flight Test ch k)
     /\ aligned ch')
  /\ (sendSize < 0 ->
      exists ch',
        ReadyForSend RELEASE Test sendSize ch = Thrown length_error ch').
Proof.
  intros Hal. split; [|by apply ReadyForSend_negative].
  intros Hsize.
  destruct (ReadyForSend_cases RELEASE Test sendSize ch Hal Hsize)
    as [(i & Hi & Hfree & ->)|[Hall ->]].
  - exists (Z.of_nat i), (claim sendSize ch i).
    split; [done|]. destruct Hal as [Hreq Hst]. unfold vsize. simpl.
    rewrite !length_insert, !vat_of_nat, Nat2Z.id.
    rewrite !list_lookup_total_alt, !list_lookup_insert_eq by lia.
    simpl. split; [lia|]. split; [done|]. split; [done|].
    split; [by intros _|]. split; [lia|].
    by apply aligned_claim.
  - exists (vsize (sendVectors ch)), (append_slot sendSize ch).
    split; [done|]. destruct Hal as [Hreq Hst]. unfold vsize. simpl.
    rewrite !length_app, !vat_of_nat. simpl.
    rewrite !list_lookup_total_alt, !lookup_app_r by lia.
    rewrite Hst, Nat.sub_diag. simpl.
    split; [lia|]. split; [done|]. split; [done|]. split; [lia|].
    split; [|by apply aligned_append_slot].
    intros _. split; [done|]. split; [lia|]. split; [lia|]. split; [lia|].
    exact Hall.
Qed.

(** ** Loops whose body always returns *)

Lemma for_each_returns {S I} (body : I -> M S unit) (g : I -> S -> S)
    (l : list I) (s : S) :
  (forall i s0, body i s0 = Returned tt (g i s0)) ->
  for_each l body s = Returned tt (foldl (fun s0 i => g i s0) s l).
Proof.
  intros Hbody. revert s. induction l as [|i l IH]; intros s; [done|].
  simpl. unfold bind. rewrite Hbody. apply IH.
Qed.

Lemma foldl_invariant {S I} (P : S -> Prop) (g : S -> I -> S) (l : list I)
    (s : S) :
  P s -> (forall s0 i, P s0 -> P (g s0 i)) -> P (foldl g s l).
Proof.
  intros Hs Hg. revert s Hs. induction l as [|i l IH]; intros s Hs; [done|].
  simpl. apply IH, Hg, Hs.
Qed.

(** ** HandleEoms *)

Section HandleEoms_properties.

Context {T : Type} {ST : Scalar T}.
Implicit Types (st s : State T) (X i : Z).

Lemma scan_first_true (sending : list bool) :
  scan_first sending true = true <-> Forall (fun f => f = false) sending.
Proof.
  induction sending as [|f sending IH]; simpl.
  - split; [constructor|done].
  - destruct f.
    + split; [done|]. intros H. by inversion H.
    + rewrite IH. split; [by constructor|]. intros H. by inversion H.
Qed.

Lemma scan_next_true (sending : list bool) (b : bool) :
  scan_next sending b = true
  <-> b = true /\ Forall (fun f => f = false) sending.
Proof.
  induction sending as [|f sending IH]; simpl.
  - split; [by split|]. by intros [? _].
  - destruct b, f; simpl.
    + split; [done|]. intros [_ H]. by inversion H.
    + rewrite IH. split.
      * intros [? ?]. split; [done|]. by constructor.
      * intros [? H]. split; [done|]. by inversion H.
    + split; [done|]. by intros [? _].
    + split; [done|]. by intros [? _].
Qed.

Lemma shouldSendEom_true X st :
  shouldSendEom X st = true <-> no_send_in_flight X st.
Proof.
  unfold shouldSendEom, no_send_in_flight.
  rewrite !scan_next_true, scan_first_true. tauto.
Qed.

(** What one round of the loop does to the log and to the flags. *)
Lemma HandleEoms_peer_returns i st :
  HandleEoms_peer i st = Returned tt (final_state (HandleEoms_peer i st)).
Proof.
  unfold HandleEoms_peer.
  destruct (negb (vat (_sentEomTo st) i)); [|done].
  by destruct (shouldSendEom i st).
Qed.

Lemma HandleEoms_peer_log i st :
  (vat (_sentEomTo st) i = false /\ no_send_in_flight i st
   /\ mpi_sent (final_state (HandleEoms_peer i st))
      = mpi_sent st ++ [{| snd_dest := i; snd_tag := EOM_TAG;
                           snd_count := 1; snd_body := EomMsg |}])
  \/ final_state (HandleEoms_peer i st) = st.
Proof.
  unfold HandleEoms_peer.
  destruct (vat (_sentEomTo st) i) eqn:Hsent; simpl; [by right|].
  destruct (shouldSendEom i st) eqn:Hshould; simpl; [|by right].
  left. split; [done|]. split; [by apply shouldSendEom_true|done].
Qed.

Lemma HandleEoms_peer_Sending i st (k : Kind) :
  Sending k (final_state (HandleEoms_peer i st)) = Sending k st.
Proof.
  unfold HandleEoms_peer.
  destruct (negb (vat (_sentEomTo st) i)); [|done].
  destruct (shouldSendEom i st); [|done]. by destruct k.
Qed.

Lemma UpdateRequestStatuses_returns (Test : Request -> bool) st :
  UpdateRequestStatuses Test st
  = Returned tt (final_state (UpdateRequestStatuses Test st)).
Proof.
  unfold UpdateRequestStatuses.
  by erewrite for_each_returns by (intros; reflexivity).
Qed.

Lemma UpdateRequestStatuses_frame (Test : Request -> bool) st :
  let st' := final_state (UpdateRequestStatuses Test st) in
  mpi_sent st' = mpi_sent st
  /\ _sentEomTo st' = _sentEomTo st
  /\ _localToGlobalMat st' = _localToGlobalMat st
  /\ _globalToLocalMat st' = _globalToLocalMat st.
Proof.
  unfold UpdateRequestStatuses. simpl.
  erewrite for_each_returns by (intros; reflexivity). simpl.
  apply (foldl_invariant
           (fun s => mpi_sent s = mpi_sent st
                     /\ _sentEomTo s = _sentEomTo st
                     /\ _localToGlobalMat s = _localToGlobalMat st
                     /\ _globalToLocalMat s = _globalToLocalMat st));
    [done|].
  intros s0 i H. exact H.
Qed.

(** The sends of the rounds [l] of the loop, each with the state in which
    it was issued. *)
Lemma HandleEoms_rounds_log (l : list Z) st :
  let step := fun s i => final_state (HandleEoms_peer i s) in
  exists new,
    mpi_sent (foldl step st l) = mpi_sent st ++ new
    /\ forall m, m ∈ new ->
         exists n X,
           l !! n = Some X
           /\ snd_dest m = X /\ snd_tag m = EOM_TAG
           /\ vat (_sentEomTo (foldl step st (take n l))) X = false
           /\ no_send_in_flight X (foldl step st (take n l))
           /\ mpi_sent (foldl step st (take (S n) l))
              = mpi_sent (foldl step st (take n l)) ++ [m].
Proof.
  intros step. induction l as [|i l IH] using rev_ind.
  - exists []. split; [by rewrite app_nil_r|].
    intros m Hm. by apply elem_of_nil in Hm.
  - destruct IH as (new & Hlog & Hnew).
    rewrite foldl_app. simpl.
    assert (Hold : forall m, m ∈ new ->
              exists n X,
                (l ++ [i]) !! n = Some X
                /\ snd_dest m = X /\ snd_tag m = EOM_TAG
                /\ vat (_sentEomTo (foldl step st (take n (l ++ [i])))) X
                   = false
                /\ no_send_in_flight X (foldl step st (take n (l ++ [i])))
                /\ mpi_sent (foldl step st (take (S n) (l ++ [i])))
                   = mpi_sent (foldl step st (take n (l ++ [i]))) ++ [m]).
    { intros m Hm. destruct (Hnew m Hm) as (n & X & Hn & Hrest).
      pose proof (lookup_lt_Some _ _ _ Hn) as Hlt.
      exists n, X. rewrite lookup_app_l by done.
      rewrite !take_app_le by lia. by split. }
    unfold step at 1.
    destruct (HandleEoms_peer_log i (foldl step st l))
      as [(Hsent & Hidle & Hsend)|Hsame].
    + eexists (new ++ [_]). split.
      { rewrite Hsend, Hlog. by rewrite <- app_assoc. }
      intros m Hm. apply elem_of_app in Hm as [Hm|Hm]; [by apply Hold|].
      apply list_elem_of_singleton in Hm. subst m.
      exists (length l), i. rewrite lookup_app_r by lia.
      rewrite Nat.sub_diag. simpl.
      rewrite take_app_length.
      replace (take (S (length l)) (l ++ [i])) with (l ++ [i])
        by (rewrite take_ge; [done|rewrite length_app; simpl; lia]).
      rewrite foldl_app. simpl. fold (step (foldl step st l) i).
      split; [done|]. split; [done|]. split; [done|]. split; [done|].
      split; [done|]. exact Hsend.
    + exists new. rewrite Hsame. by split.
Qed.

Lemma HandleEoms_rounds_Sending (l : list Z) st (k : Kind) :
  Sending k (foldl (fun s i => final_state (HandleEoms_peer i s)) st l)
  = Sending k st.
Proof.
  apply (foldl_invariant (fun s => Sending k s = Sending k st)); [done|].
  intros s0 i H. by rewrite HandleEoms_peer_Sending.
Qed.

Lemma no_send_in_flight_Sending X st st' :
  (forall k, Sending k st' = Sending k st) ->
  no_send_in_flight X st -> no_send_in_flight X st'.
Proof.
  intros H. unfold no_send_in_flight.
  pose proof (H Data) as Hd. pose proof (H Req) as Hq.
  pose proof (H Reply) as Hp. simpl in Hd, Hq, Hp. by rewrite Hd, Hq, Hp.
Qed.

Lemma HandleEoms_unfold (Test : Request -> bool) (haveEom : option Z) st :
  HandleEoms Test haveEom st
  = HandleEoms_receive haveEom
      (HandleEoms_at Test (length (upto (gSize (attached_Grid st)))) st).
Proof.
  unfold HandleEoms, HandleEoms_at, bind.
  rewrite UpdateRequestStatuses_returns.
  rewrite (for_each_returns _ (fun i s => final_state (HandleEoms_peer i s)))
    by (intros; apply HandleEoms_peer_returns).
  by rewrite take_ge by done.
Qed.

Lemma HandleEoms_receive_frame (haveEom : option Z) st :
  let st' := final_state (HandleEoms_receive haveEom st) in
  mpi_sent st' = mpi_sent st /\ (forall k, Sending k st' = Sending k st)
  /\ _localToGlobalMat st' = _localToGlobalMat st.
Proof. destruct haveEom; simpl; (split; [done|split; [by intros []|done]]). Qed.

End HandleEoms_properties.

(** C1.  Every send that a call [HandleEoms()] issues is the End-Of-Message
    token of one round [n] of its loop, for the peer [X] of that round; in
    the state of the object at that round, [_sentEomTo[X]] is still false
    and no flag of [_sendingData[X]], [_sendingRequest[X]] or
    [_sendingReply[X]] is set; and none is set when the call returns. *)
Theorem HandleEoms_sends_eom_only_when_idle {T : Type} {ST : Scalar T}
    (Test : Request -> bool) (haveEom : option Z) (st : State T)
    (m : Send T) :
  m ∈ new_sends st (final_state (HandleEoms Test haveEom st)) ->
  exists (n : nat) (X : Z),
    upto (gSize (attached_Grid st)) !! n = Some X
    /\ snd_dest m = X /\ snd_tag m = EOM_TAG
    /\ vat (_sentEomTo (HandleEoms_at Test n st)) X = false
    /\ no_send_in_flight X (HandleEoms_at Test n st)
    /\ mpi_sent (HandleEoms_at Test (S n) st)
       = mpi_sent (HandleEoms_at Test n st) ++ [m]
    /\ no_send_in_flight X (final_state (HandleEoms Test haveEom st)).
Proof.
  rewrite HandleEoms_unfold.
  destruct (HandleEoms_receive_frame haveEom
              (HandleEoms_at Test (length (upto (gSize (attached_Grid st))))
                 st)) as (Hlog & Hflags & _).
  unfold new_sends. rewrite Hlog. unfold HandleEoms_at at 1.
  rewrite take_ge by done.
  destruct (HandleEoms_rounds_log (upto (gSize (attached_Grid st)))
              (final_state (UpdateRequestStatuses Test st)))
    as (new & Hnew & Hall).
  rewrite Hnew.
  destruct (UpdateRequestStatuses_frame Test st) as (Hurs & _).
  rewrite Hurs, drop_app_length.
  intros Hm. destruct (Hall m Hm) as (n & X & Hn & Hd & Ht & Hs & Hi & Hl).
  exists n, X. unfold HandleEoms_at.
  split; [done|]. split; [done|]. split; [done|]. split; [done|].
  split; [done|]. split; [done|].
  eapply no_send_in_flight_Sending; [|exact Hi].
  intros k. rewrite Hflags. unfold HandleEoms_at.
  by rewrite !HandleEoms_rounds_Sending.
Qed.

(** ** Getting a slot, packing and sending *)

Section post_properties.

Context {T : Type} {ST : Scalar T}.
Variable RELEASE : bool.
Variable Test : Request -> bool.
Implicit Types (st : State T) (k : Kind) (ch : Channel T).

(** Whatever its outcome, the sequence leaves the rest of the object
    alone and adds at most its own message to the log; it adds the message
    when it returns. *)
Lemma post_frame k peer bufferSize body tag st :
  let o := post RELEASE Test k peer bufferSize body tag st in
  rest_of_State (final_state o) = rest_of_State st
  /\ (mpi_sent (final_state o) = mpi_sent st /\ returned o = false
      \/ mpi_sent (final_state o)
         = mpi_sent st ++ [wire peer bufferSize body tag]
         /\ o = Returned tt (final_state o)).
Proof.
  unfold post, bind, on_Channel.
  destruct (ReadyForSend RELEASE Test bufferSize (get_Channel k peer st))
    as [index ch|e ch|ch]; simpl.
  - split; [by destruct k|]. right. split; [by destruct k|done].
  - split; [by destruct k|]. left. split; [by destruct k|done].
  - split; [by destruct k|]. left. split; [by destruct k|done].
Qed.

Lemma shape_vupd {A} (g : list A -> list A) (v : list (list A)) (peer : Z) :
  (forall row, length (g row) = length row) ->
  length <$> vupd g v peer = length <$> v.
Proof.
  intros Hg. unfold vupd. destruct (0 <=? peer); [|done].
  rewrite (list_fmap_alter length g id).
  - by rewrite list_alter_id.
  - apply Forall_forall. intros row _. apply Hg.
Qed.

Lemma shape_vset {A} (v : list (list A)) (peer : Z) (row : list A) :
  length <$> vset v peer row = vset (length <$> v) peer (length row).
Proof.
  unfold vset, vupd. destruct (0 <=? peer); [|done].
  apply list_fmap_alter, Forall_forall. done.
Qed.

Lemma length_vat {A} (v : list (list A)) (peer : Z) :
  length (vat v peer) = vat (length <$> v) peer.
Proof.
  unfold vat. destruct (0 <=? peer); [|done].
  rewrite !list_lookup_total_alt, list_lookup_fmap.
  by destruct (v !! Z.to_nat peer).
Qed.

Lemma pools_aligned_get k peer st :
  pools_aligned st -> aligned (get_Channel k peer st).
Proof.
  intros H. destruct (H k) as [Hr Hs]. unfold aligned. simpl.
  by rewrite !length_vat, Hr, Hs.
Qed.

Lemma pools_aligned_put k peer ch st :
  pools_aligned st -> aligned ch -> pools_aligned (put_Channel k peer ch st).
Proof.
  intros H [Hr Hs] k'. destruct (H k') as [Hr' Hs'].
  destruct k, k'; simpl in *; try done;
    rewrite !shape_vset, Hr, Hs, Hr', Hs'; done.
Qed.

Lemma pools_aligned_pack_into k peer index body st :
  pools_aligned st -> pools_aligned (pack_into k peer index body st).
Proof.
  intros H k'. destruct (H k') as [Hr' Hs'].
  destruct k, k'; simpl in *; try done;
    (rewrite shape_vupd;
     [done|intros row; apply length_vupd]).
Qed.

Lemma pools_aligned_store_request k peer index request st :
  pools_aligned st -> pools_aligned (store_request k peer index request st).
Proof.
  intros H k'. destruct (H k') as [Hr' Hs'].
  destruct k, k'; simpl in *; try done;
    (rewrite shape_vupd;
     [done|intros row; apply length_vupd]).
Qed.

(** With aligned pools and a size that is not negative, the sequence
    returns; the pools stay aligned and the message is on the wire. *)
Lemma post_returns k peer bufferSize body tag st :
  pools_aligned st ->
  0 <= bufferSize ->
  exists st',
    post RELEASE Test k peer bufferSize body tag st = Returned tt st'
    /\ pools_aligned st'
    /\ rest_of_State st' = rest_of_State st
    /\ mpi_sent st' = mpi_sent st ++ [wire peer bufferSize body tag].
Proof.
  intros Hal Hsize.
  pose proof (pools_aligned_get k peer st Hal) as Hch.
  assert (exists index ch',
            ReadyForSend RELEASE Test bufferSize (get_Channel k peer st)
            = Returned index ch' /\ aligned ch') as (index & ch' & Heq & Hch').
  { destruct (ReadyForSend_cases RELEASE Test bufferSize _ Hch Hsize)
      as [(i & _ & _ & ->)|[_ ->]].
    - eexists _, _. split; [done|]. by apply aligned_claim.
    - eexists _, _. split; [done|]. by apply aligned_append_slot. }
  unfold post, bind, on_Channel. rewrite Heq. simpl.
  eexists. split; [reflexivity|]. split.
  - apply pools_aligned_store_request.
    assert (Hp : pools_aligned
                   (pack_into k peer index body (put_Channel k peer ch' st)))
      by by apply pools_aligned_pack_into, pools_aligned_put.
    intros k'. destruct (Hp k') as [? ?]. by destruct k'.
  - split; by destruct k.
Qed.

End post_properties.

(** ** What leaves the attached matrices alone *)

Section frame_properties.

Context {T : Type} {ST : Scalar T}.
Variable Shift : Z -> Z -> Z -> Z.
Variable LocalLength : Z -> Z -> Z -> Z.
Variable RELEASE : bool.
Implicit Types (st : State T) (Test : Request -> bool).

Lemma attachment_rest st st' :
  rest_of_State st' = rest_of_State st -> attachment st' = attachment st.
Proof. unfold rest_of_State, attachment. congruence. Qed.

Lemma attachment_post Test k peer bufferSize body tag st :
  attachment (final_state (post RELEASE Test k peer bufferSize body tag st))
  = attachment st.
Proof. apply attachment_rest, post_frame. Qed.

Lemma attachment_for_each {I} (body : I -> M (State T) unit) (l : list I) st :
  (forall i s, attachment (final_state (body i s)) = attachment s) ->
  attachment (final_state (for_each l body st)) = attachment st.
Proof.
  intros Hbody. revert st. induction l as [|i l IH]; intros st; [done|].
  simpl. unfold bind. pose proof (Hbody i st) as Hi.
  destruct (body i st) as [[] s'|e s'|s']; simpl in *; [|done..].
  by rewrite IH.
Qed.

Lemma attachment_AxpyLocalToGlobal_slot Test header X r c ca ra row col st :
  attachment
    (final_state
       (AxpyLocalToGlobal_slot Shift LocalLength RELEASE Test header X r c
          ca ra row col st))
  = attachment st.
Proof.
  unfold AxpyLocalToGlobal_slot.
  destruct (negb _); [|done]. apply attachment_post.
Qed.

Lemma attachment_AxpyLocalToGlobal_loop Test header X r c ca ra steps :
  forall row col st,
    attachment
      (final_state
         (AxpyLocalToGlobal_loop Shift LocalLength RELEASE Test header X r c
            ca ra steps row col st))
    = attachment st.
Proof.
  induction steps as [|steps IH]; intros row col st; [done|].
  simpl. unfold bind.
  pose proof (attachment_AxpyLocalToGlobal_slot Test header X r c ca ra
                row col st) as Hs.
  destruct (AxpyLocalToGlobal_slot _ _ _ _ _ _ _ _ _ _ _ _ st)
    as [[] s'|e s'|s']; simpl in *; [|done..].
  by rewrite IH.
Qed.

Lemma attachment_AxpyLocalToGlobal Test alpha X i j st :
  attachment
    (final_state
       (AxpyLocalToGlobal Shift LocalLength RELEASE Test alpha X i j st))
  = attachment st.
Proof.
  unfold AxpyLocalToGlobal.
  destruct (_ || _); [done|]. destruct (_ || _); [done|].
  apply attachment_AxpyLocalToGlobal_loop.
Qed.

Lemma attachment_UpdateRequestStatuses Test st :
  attachment (final_state (UpdateRequestStatuses Test st)) = attachment st.
Proof. unfold UpdateRequestStatuses. by apply attachment_for_each. Qed.

Lemma attachment_HandleEoms_peer i st :
  attachment (final_state (HandleEoms_peer i st)) = attachment st.
Proof.
  unfold HandleEoms_peer. destruct (negb _); [|done].
  by destruct (shouldSendEom i st).
Qed.

Lemma attachment_HandleEoms Test haveEom st :
  attachment (final_state (HandleEoms Test haveEom st)) = attachment st.
Proof.
  rewrite HandleEoms_unfold. unfold HandleEoms_at.
  transitivity
    (attachment
       (foldl (fun s i => final_state (HandleEoms_peer i s))
          (final_state (UpdateRequestStatuses Test st))
          (take (length (upto (gSize (attached_Grid st))))
             (upto (gSize (attached_Grid st)))))).
  { by destruct haveEom. }
  apply (foldl_invariant (fun s => attachment s = attachment st)).
  - apply attachment_UpdateRequestStatuses.
  - intros s0 i H. by rewrite attachment_HandleEoms_peer.
Qed.

Lemma attachment_HandleGlobalToLocalRequest Test haveRequest st :
  attachment
    (final_state
       (HandleGlobalToLocalRequest Shift LocalLength RELEASE Test haveRequest
          st))
  = attachment st.
Proof.
  unfold HandleGlobalToLocalRequest. destruct haveRequest as [a|]; [|done].
  etransitivity; [apply attachment_post|done].
Qed.

Lemma attachment_Finished st :
  attachment (final_state (Finished RELEASE st)) = attachment st.
Proof. unfold Finished. by destruct (_ && _). Qed.

Lemma attachment_AxpyGlobalToLocal_wait alpha X i j height width p ticks :
  forall numReplies (sy : State T * Matrix T),
    attachment
      (fst (final_state
              (AxpyGlobalToLocal_wait Shift LocalLength RELEASE alpha X i j
                 height width p ticks numReplies sy)))
    = attachment (fst sy).
Proof.
  induction ticks as [|tk ticks IH]; intros numReplies sy; simpl.
  - by destruct (numReplies <? p).
  - destruct (numReplies <? p); [|done]. unfold bind, on_State.
    pose proof (attachment_HandleGlobalToLocalRequest (tk_Test tk)
                  (tk_request tk) (fst sy)) as Hs.
    destruct (HandleGlobalToLocalRequest _ _ _ _ _ (fst sy))
      as [[] s'|e s'|s']; simpl in *; [|done..].
    destruct (tk_reply tk) as [a|]; simpl; by rewrite IH.
Qed.

Lemma attachment_AxpyGlobalToLocal Test ticks alpha i j
    (sy : State T * Matrix T) :
  attachment
    (fst (final_state
            (AxpyGlobalToLocal Shift LocalLength RELEASE Test ticks alpha i j
               sy)))
  = attachment (fst sy).
Proof.
  unfold AxpyGlobalToLocal. destruct (_ || _); [done|].
  unfold bind, on_State.
  set (body := AxpyGlobalToLocal_request RELEASE Test _).
  pose proof (attachment_for_each body
                (upto (gSize (dGrid (deref (_globalToLocalMat (fst sy))))))
                (fst sy)) as Hs.
  destruct (for_each _ body (fst sy)) as [[] s'|e s'|s']; simpl in *;
    try (apply Hs; intros; apply attachment_post).
  rewrite attachment_AxpyGlobalToLocal_wait. simpl.
  apply Hs. intros. apply attachment_post.
Qed.

Lemma put_serviced_trans (A B C : option (DistMatrix T)) :
  put_serviced Shift LocalLength A B ->
  put_serviced Shift LocalLength B C ->
  put_serviced Shift LocalLength A C.
Proof.
  intros HAB HBC. induction HBC as [|B C h XBuffer HBC IH]; [done|].
  by constructor; apply IH.
Qed.

(** [HandleLocalToGlobalData] keeps the flags and the source matrix, and
    either keeps the target or accumulates the received message into it. *)
Lemma HandleLocalToGlobalData_writes haveData st :
  let st' :=
    final_state (HandleLocalToGlobalData Shift LocalLength RELEASE haveData st)
  in
  _attachedForLocalToGlobal st' = _attachedForLocalToGlobal st
  /\ _attachedForGlobalToLocal st' = _attachedForGlobalToLocal st
  /\ _globalToLocalMat st' = _globalToLocalMat st
  /\ (_localToGlobalMat st' = _localToGlobalMat st
      \/ exists a,
           haveData = Some a
           /\ _localToGlobalMat st'
              = accumulate Shift LocalLength (da_header a) (da_payload a)
                  <$> _localToGlobalMat st).
Proof.
  unfold HandleLocalToGlobalData. destruct haveData as [a|]; simpl.
  - repeat (destruct (negb RELEASE && _);
            [simpl; by repeat (split; [done|]); left|]).
    simpl. repeat (split; [done|]). right. by exists a.
  - by repeat (split; [done|]); left.
Qed.

Lemma put_serviced_Detach_round tk st :
  let st' := final_state (Detach_round Shift LocalLength RELEASE tk st) in
  _attachedForLocalToGlobal st' = _attachedForLocalToGlobal st
  /\ _attachedForGlobalToLocal st' = _attachedForGlobalToLocal st
  /\ _globalToLocalMat st' = _globalToLocalMat st
  /\ put_serviced Shift LocalLength
       (_localToGlobalMat st) (_localToGlobalMat st')
  /\ (_attachedForLocalToGlobal st = false ->
      _localToGlobalMat st' = _localToGlobalMat st).
Proof.
  unfold Detach_round, bind.
  destruct (_attachedForLocalToGlobal st) eqn:Hmode.
  - destruct (HandleLocalToGlobalData_writes (tk_data tk) st)
      as (H1 & H2 & H3 & H4).
    destruct (HandleLocalToGlobalData _ _ _ _ st) as [[] s'|e s'|s'];
      simpl in *.
    + pose proof (attachment_HandleEoms (tk_TestEom tk) (tk_eom tk) s') as He.
      unfold attachment in He. injection He as E1 E2 E3 E4.
      rewrite E1, E2, E3, E4, H1, H2, H3.
      repeat (split; [done|]). split; [|done].
      destruct H4 as [->|(a & _ & ->)]; repeat constructor.
    + rewrite H1, H2, H3. repeat (split; [done|]). split; [|done].
      destruct H4 as [->|(a & _ & ->)]; repeat constructor.
    + rewrite H1, H2, H3. repeat (split; [done|]). split; [|done].
      destruct H4 as [->|(a & _ & ->)]; repeat constructor.
  - pose proof (attachment_HandleGlobalToLocalRequest (tk_Test tk)
                  (tk_request tk) st) as Hr.
    destruct (HandleGlobalToLocalRequest _ _ _ _ _ st) as [[] s'|e s'|s'];
      simpl in *.
    + pose proof (attachment_HandleEoms (tk_TestEom tk) (tk_eom tk) s') as He.
      rewrite Hr in He. unfold attachment in He.
      injection He as E1 E2 E3 E4. rewrite E1, E2, E3, E4.
      repeat (split; [done|]). split; [constructor|done].
    + unfold attachment in Hr. injection Hr as E1 E2 E3 E4.
      rewrite E1, E2, E3, E4.
      repeat (split; [done|]). split; [constructor|done].
    + unfold attachment in Hr. injection Hr as E1 E2 E3 E4.
      rewrite E1, E2, E3, E4.
      repeat (split; [done|]). split; [constructor|done].
Qed.

Lemma put_serviced_Detach_drain ticks :
  forall st,
    let st' := final_state (Detach_drain Shift LocalLength RELEASE ticks st) in
    put_serviced Shift LocalLength
      (_localToGlobalMat st) (_localToGlobalMat st')
    /\ (_attachedForLocalToGlobal st = false ->
        _localToGlobalMat st' = _localToGlobalMat st).
Proof.
  induction ticks as [|tk ticks IH]; intros st; simpl; unfold bind.
  - pose proof (attachment_Finished st) as Hf.
    destruct (Finished RELEASE st) as [[] s'|e s'|s']; simpl in *;
      unfold attachment in Hf; injection Hf as E1 E2 E3 E4;
      rewrite E3; split; (constructor || done).
  - pose proof (attachment_Finished st) as Hf.
    destruct (Finished RELEASE st) as [[] s'|e s'|s']; simpl in *;
      unfold attachment in Hf; injection Hf as E1 E2 E3 E4;
      try (rewrite E3; split; (constructor || done)).
    rewrite <- E3, <- E1.
    destruct (put_serviced_Detach_round tk s') as (H1 & H2 & H3 & H4 & H5).
    destruct (Detach_round _ _ _ tk s') as [[] s''|e s''|s'']; simpl in *;
      try (split; done).
    destruct (IH s'') as [IH1 IH2]. split.
    + eapply put_serviced_trans; [exact H4|exact IH1].
    + intros Hmode. rewrite IH2 by congruence. by apply H5.
Qed.

End frame_properties.

(** C8.  [AxpyLocalToGlobal] leaves the attached target matrix as it is,
    whatever the arguments and whether it returns or throws, and so do
    [Axpy], [UpdateRequestStatuses], [HandleEoms], [Finished],
    [HandleGlobalToLocalRequest] and [AxpyGlobalToLocal].
    [HandleLocalToGlobalData] either leaves it as it is or accumulates the
    received message into it, and what [Detach] leaves is the result of
    such accumulations only. *)
Theorem target_written_only_by_HandleLocalToGlobalData
    {T : Type} {ST : Scalar T} (Shift LocalLength : Z -> Z -> Z -> Z)
    (RELEASE : bool) :
  (forall Test alpha X i j (st : State T),
      _localToGlobalMat
        (final_state
           (AxpyLocalToGlobal Shift LocalLength RELEASE Test alpha X i j st))
      = _localToGlobalMat st)
  /\ (forall Test alpha Z0 i j (st : State T),
         _localToGlobalMat
           (final_state
              (Axpy_const Shift LocalLength RELEASE Test alpha Z0 i j st))
         = _localToGlobalMat st)
  /\ (forall Test ticks alpha i j (sy : State T * Matrix T),
         _localToGlobalMat
           (fst (final_state
                   (Axpy Shift LocalLength RELEASE Test ticks alpha i j sy)))
         = _localToGlobalMat (fst sy))
  /\ (forall Test ticks alpha i j (sy : State T * Matrix T),
         _localToGlobalMat
           (fst (final_state
                   (AxpyGlobalToLocal Shift LocalLength RELEASE Test ticks
                      alpha i j sy)))
         = _localToGlobalMat (fst sy))
  /\ (forall Test haveRequest (st : State T),
         _localToGlobalMat
           (final_state
              (HandleGlobalToLocalRequest Shift LocalLength RELEASE Test
                 haveRequest st))
         = _localToGlobalMat st)
  /\ (forall Test (st : State T),
         _localToGlobalMat (final_state (UpdateRequestStatuses Test st))
         = _localToGlobalMat st)
  /\ (forall Test haveEom (st : State T),
         _localToGlobalMat (final_state (HandleEoms Test haveEom st))
         = _localToGlobalMat st)
  /\ (forall st : State T,
         _localToGlobalMat (final_state (Finished RELEASE st))
         = _localToGlobalMat st)
  /\ (forall haveData (st : State T),
         let st' :=
           final_state
             (HandleLocalToGlobalData Shift LocalLength RELEASE haveData st) in
         _localToGlobalMat st' = _localToGlobalMat st
         \/ exists a,
              haveData = Some a
              /\ _localToGlobalMat st'
                 = accumulate Shift LocalLength (da_header a) (da_payload a)
                     <$> _localToGlobalMat st)
  /\ (forall ticks (st : State T),
         put_serviced Shift LocalLength
           (_localToGlobalMat st)
           (_localToGlobalMat
              (final_state (Detach Shift LocalLength RELEASE ticks st)))).
Proof.
  assert (Hatt : forall s s' : State T,
             attachment s' = attachment s ->
             _localToGlobalMat s' = _localToGlobalMat s).
  { unfold attachment. intros s s' H. congruence. }
  split.
  { intros. apply Hatt, attachment_AxpyLocalToGlobal. }
  split.
  { intros. unfold Axpy_const.
    destruct (_attachedForLocalToGlobal st);
      [apply Hatt, attachment_AxpyLocalToGlobal|].
    by destruct (_attachedForGlobalToLocal st). }
  split.
  { intros. unfold Axpy.
    destruct (_attachedForLocalToGlobal (fst sy)).
    - unfold on_State.
      pose proof (attachment_AxpyLocalToGlobal Shift LocalLength RELEASE Test
                    alpha (snd sy) i j (fst sy)) as H.
      destruct (AxpyLocalToGlobal _ _ _ _ _ _ _ _ (fst sy)); simpl in *;
        by apply Hatt.
    - destruct (_attachedForGlobalToLocal (fst sy)); [|done].
      apply Hatt, attachment_AxpyGlobalToLocal. }
  split.
  { intros. apply Hatt, attachment_AxpyGlobalToLocal. }
  split.
  { intros. apply Hatt, attachment_HandleGlobalToLocalRequest. }
  split.
  { intros. apply Hatt, attachment_UpdateRequestStatuses. }
  split.
  { intros. apply Hatt, attachment_HandleEoms. }
  split.
  { intros. apply Hatt, attachment_Finished. }
  split.
  { intros. apply HandleLocalToGlobalData_writes. }
  intros. unfold Detach. destruct (_ && _); [constructor|].
  unfold bind.
  destruct (put_serviced_Detach_drain Shift LocalLength RELEASE ticks st)
    as [H _].
  by destruct (Detach_drain _ _ _ ticks st).
Qed.

(** ** Attach *)

(** C9.  On an attached object both overloads of [Attach] throw a logic
    error, and so does the overload for a constant matrix when it is asked
    to attach for LOCAL_TO_GLOBAL; the object is then exactly as it was: no
    send has been logged, and the attachment has not changed. *)
Theorem Attach_usage_errors {T : Type} (axpyType : AxpyType)
    (Z0 : DistMatrix T) (st : State T) :
  attached st = true \/ axpyType = LOCAL_TO_GLOBAL ->
  (exists what,
      Attach_const axpyType Z0 st = Thrown (logic_error what) st)
  /\ (attached st = true ->
      Attach axpyType Z0 st
      = Thrown (logic_error "Must detach before reattaching.") st
      /\ Attach_const axpyType Z0 st
         = Thrown (logic_error "Must detach before reattaching.") st).
Proof.
  unfold attached, Attach, Attach_const. intros H.
  destruct (_attachedForLocalToGlobal st || _attachedForGlobalToLocal st).
  - split; [by eexists|done].
  - destruct H as [H| ->]; [done|]. split; [by eexists|done].
Qed.

(** ** AxpyLocalToGlobal: the bounds *)

(** C2.  A put whose offsets are negative, or whose submatrix does not fit
    into the target, throws a logic error, and the object is then exactly
    as it was: no send has been logged, and neither the target matrix nor
    any buffer pool has changed.  The sums [i + X.Height()] and
    [j + X.Width()] of the test are taken to be in the range of [int], in
    which the code adds them. *)
Theorem AxpyLocalToGlobal_rejects_out_of_bounds {T : Type} {ST : Scalar T}
    (Shift LocalLength : Z -> Z -> Z -> Z) (RELEASE : bool)
    (Test : Request -> bool) (alpha : T) (X : Matrix T) (i j : Z)
    (st : State T) :
  fits_int (i + mHeight X) -> fits_int (j + mWidth X) ->
  i < 0 \/ j < 0
  \/ i + mHeight X > dHeight (deref (_localToGlobalMat st))
  \/ j + mWidth X > dWidth (deref (_localToGlobalMat st)) ->
  exists what,
    AxpyLocalToGlobal Shift LocalLength RELEASE Test alpha X i j st
    = Thrown (logic_error what) st.
Proof.
  intros _ _ H. unfold AxpyLocalToGlobal.
  destruct ((i <? 0) || (j <? 0)) eqn:Hneg; [by eexists|].
  destruct ((i + mHeight X >? dHeight (deref (_localToGlobalMat st)))
            || (j + mWidth X >? dWidth (deref (_localToGlobalMat st))))
    eqn:Hfit; [by eexists|].
  exfalso. apply orb_false_iff in Hneg as [Hi Hj].
  apply orb_false_iff in Hfit as [Hh Hw]. lia.
Qed.

(** ** HandleLocalToGlobalData: the header *)

(** C4, as the code has it.  In a build without [RELEASE], an update
    message whose header has a negative offset or extent, or whose region
    does not fit into the target, makes [HandleLocalToGlobalData] throw a
    logic error; the target matrix is then as it was.  The sums
    [i + height] and [j + width] of the test are taken to be in the range
    of [int], in which the code adds them. *)
Theorem HandleLocalToGlobalData_rejects_bad_header_in_debug
    {T : Type} {ST : Scalar T} (Shift LocalLength : Z -> Z -> Z -> Z)
    (a : DataArrival T) (st : State T) :
  fits_int (lg_i (da_header a) + lg_height (da_header a)) ->
  fits_int (lg_j (da_header a) + lg_width (da_header a)) ->
  lg_i (da_header a) < 0 \/ lg_j (da_header a) < 0
  \/ lg_height (da_header a) < 0 \/ lg_width (da_header a) < 0
  \/ lg_i (da_header a) + lg_height (da_header a)
     > dHeight (deref (_localToGlobalMat st))
  \/ lg_j (da_header a) + lg_width (da_header a)
     > dWidth (deref (_localToGlobalMat st)) ->
  exists what st',
    HandleLocalToGlobalData Shift LocalLength false (Some a) st
    = Thrown (logic_error what) st'
    /\ _localToGlobalMat st' = _localToGlobalMat st.
Proof.
  intros _ _ H. unfold HandleLocalToGlobalData. simpl.
  destruct ((lg_height (da_header a) <? 0) || (lg_width (da_header a) <? 0))
    eqn:H1; [by eexists _, _|].
  destruct ((lg_i (da_header a) <? 0) || (lg_j (da_header a) <? 0))
    eqn:H2; [by eexists _, _|].
  destruct ((lg_i (da_header a) + lg_height (da_header a)
             >? dHeight (deref (_localToGlobalMat st)))
            || (lg_j (da_header a) + lg_width (da_header a)
                >? dWidth (deref (_localToGlobalMat st))))
    eqn:H3; [by eexists _, _|].
  exfalso. apply orb_false_iff in H1 as [? ?].
  apply orb_false_iff in H2 as [? ?]. apply orb_false_iff in H3 as [? ?]. lia.
Qed.

(** ** AxpyLocalToGlobal: the messages *)

Lemma length_upto (n : Z) : length (upto n) = Z.to_nat n.
Proof. unfold upto. by rewrite length_fmap, length_seq. Qed.

Lemma lookup_upto (n : Z) (k : nat) :
  (k < Z.to_nat n)%nat -> upto n !! k = Some (Z.of_nat k).
Proof.
  intros Hk. unfold upto. rewrite list_lookup_fmap, lookup_seq_lt by done.
  done.
Qed.

Lemma length_flat_map_const {A B} (f : A -> list B) (n : nat) (l : list A) :
  (forall a, length (f a) = n) ->
  length (flat_map f l) = (length l * n)%nat.
Proof.
  intros Hf. induction l as [|a l IH]; [done|].
  simpl. rewrite length_app, Hf, IH. lia.
Qed.

Lemma lookup_flat_map_const {A B} (f : A -> list B) (n : nat) (l : list A)
    (i j : nat) (a : A) :
  (forall a', length (f a') = n) ->
  l !! i = Some a -> (j < n)%nat ->
  flat_map f l !! (i * n + j)%nat = f a !! j.
Proof.
  intros Hf. revert i. induction l as [|a' l IH]; intros i Hi Hj; [done|].
  simpl. destruct i as [|i]; simpl in *.
  - injection Hi as ->. by rewrite lookup_app_l by (rewrite Hf; lia).
  - rewrite lookup_app_r by (rewrite Hf; lia). rewrite Hf.
    replace (n + i * n + j - n)%nat with (i * n + j)%nat by lia.
    by apply IH.
Qed.

Section data_payload_properties.

Context {T : Type} {ST : Scalar T}.

Lemma length_data_payload (X : Matrix T)
    (r c colShift rowShift localHeight localWidth : Z) :
  length (data_payload X r c colShift rowShift localHeight localWidth)
  = (Z.to_nat localWidth * Z.to_nat localHeight)%nat.
Proof.
  unfold data_payload.
  rewrite (length_flat_map_const _ (Z.to_nat localHeight)), length_upto;
    [done|].
  intros t. by rewrite length_fmap, length_upto.
Qed.

Lemma lookup_data_payload (X : Matrix T)
    (r c colShift rowShift localHeight localWidth s t : Z) :
  0 <= s < localHeight -> 0 <= t < localWidth ->
  data_payload X r c colShift rowShift localHeight localWidth
    !! Z.to_nat (s + t * localHeight)
  = Some (mRead X ((rowShift + t * c) * LDim X + (colShift + s * r))).
Proof.
  intros Hs Ht. unfold data_payload.
  replace (Z.to_nat (s + t * localHeight))
    with (Z.to_nat t * Z.to_nat localHeight + Z.to_nat s)%nat by nia.
  rewrite (lookup_flat_map_const _ (Z.to_nat localHeight) _ _ _ t).
  - rewrite list_lookup_fmap, lookup_upto by lia. simpl.
    by rewrite Z2Nat.id by lia.
  - intros t'. by rewrite length_fmap, length_upto.
  - rewrite lookup_upto by lia. by rewrite Z2Nat.id by lia.
  - lia.
Qed.

End data_payload_properties.

Section AxpyLocalToGlobal_properties.

Context {T : Type} {ST : Scalar T}.
Variable Shift : Z -> Z -> Z -> Z.
Variable LocalLength : Z -> Z -> Z -> Z.
Variable RELEASE : bool.
Variable Test : Request -> bool.
Variable header : LocalToGlobalHeader T.
Variable X : Matrix T.
Variables r c colAlignment rowAlignment : Z.

Local Abbreviation owns :=
  (slot_owns Shift LocalLength header r c colAlignment rowAlignment).
Local Abbreviation message :=
  (slot_message Shift LocalLength header X r c colAlignment rowAlignment).
Local Abbreviation loop :=
  (AxpyLocalToGlobal_loop Shift LocalLength RELEASE Test header X r c
     colAlignment rowAlignment).
Local Abbreviation slot_body :=
  (AxpyLocalToGlobal_slot Shift LocalLength RELEASE Test header X r c
     colAlignment rowAlignment).

(** The body of the loop is the sending sequence for the message of the
    slot, if the slot owns an entry. *)
Lemma AxpyLocalToGlobal_slot_post (row col : Z) (st : State T) :
  slot_body row col st
  = if owns (row, col)
    then post RELEASE Test Data (snd_dest (message (row, col)))
           (snd_count (message (row, col))) (snd_body (message (row, col)))
           DATA_TAG st
    else Returned tt st.
Proof.
  unfold AxpyLocalToGlobal_slot, slot_owns, slot_numEntries. simpl.
  by destruct (negb _).
Qed.

(** Whatever the outcome of the loop, what it has logged are messages of
    slots that it has visited and that own an entry. *)
Lemma AxpyLocalToGlobal_loop_log (steps : nat) :
  forall (row col : Z) (st : State T),
  exists slots,
    Forall (fun slot => slot ∈ visits r c steps row col
                        /\ owns slot = true) slots
    /\ mpi_sent (final_state (loop steps row col st))
       = mpi_sent st ++ (message <$> slots).
Proof.
  induction steps as [|steps IH]; intros row col st.
  - exists []. split; [constructor|]. simpl. by rewrite app_nil_r.
  - simpl. unfold bind. rewrite AxpyLocalToGlobal_slot_post.
    destruct (owns (row, col)) eqn:Hown.
    + destruct (post_frame RELEASE Test Data
                  (snd_dest (message (row, col)))
                  (snd_count (message (row, col)))
                  (snd_body (message (row, col))) DATA_TAG st)
        as [_ [[Hlog Hret]|[Hlog Hret]]].
      * exists []. split; [constructor|]. simpl. rewrite app_nil_r.
        destruct (post _ _ _ _ _ _ _ st); simpl in *; done.
      * rewrite Hret.
        destruct (IH (next_receivingRow r row)
                    (next_receivingCol r c row col)
                    (final_state
                       (post RELEASE Test Data
                          (snd_dest (message (row, col)))
                          (snd_count (message (row, col)))
                          (snd_body (message (row, col))) DATA_TAG st)))
          as (slots & Hslots & Hrest).
        exists ((row, col) :: slots). split.
        -- constructor; [split; [by left|done]|].
           eapply Forall_impl; [exact Hslots|].
           intros slot [? ?]. split; [by right|done].
        -- rewrite Hrest, Hlog. simpl. by rewrite <- app_assoc.
    + destruct (IH (next_receivingRow r row)
                  (next_receivingCol r c row col) st)
        as (slots & Hslots & Hrest).
      exists slots. split; [|done].
      eapply Forall_impl; [exact Hslots|].
      intros slot [? ?]. split; [by right|done].
Qed.

(** With aligned pools and message sizes that are not negative the loop
    returns, and it has sent, in the order of the visits, the message of
    every visited slot that owns an entry. *)
Lemma AxpyLocalToGlobal_loop_returns (steps : nat) :
  (forall slot, 0 <= snd_count (message slot)) ->
  forall (row col : Z) (st : State T),
    pools_aligned st ->
    exists st',
      loop steps row col st = Returned tt st'
      /\ pools_aligned st'
      /\ mpi_sent st'
         = mpi_sent st
           ++ (message
                 <$> filter (fun slot => owns slot = true)
                       (visits r c steps row col)).
Proof.
  intros Hsize. induction steps as [|steps IH]; intros row col st Hal.
  - exists st. split; [done|]. split; [done|]. simpl. by rewrite app_nil_r.
  - simpl. unfold bind. rewrite AxpyLocalToGlobal_slot_post.
    rewrite filter_cons. destruct (owns (row, col)) eqn:Hown.
    + destruct (post_returns RELEASE Test Data
                  (snd_dest (message (row, col)))
                  (snd_count (message (row, col)))
                  (snd_body (message (row, col))) DATA_TAG st Hal
                  (Hsize (row, col)))
        as (st1 & -> & Hal1 & _ & Hlog).
      destruct (IH (next_receivingRow r row) (next_receivingCol r c row col)
                  st1 Hal1) as (st' & -> & Hal' & Hlog').
      exists st'. split; [done|]. split; [done|].
      rewrite Hlog', Hlog. rewrite decide_True by done.
      simpl. by rewrite <- app_assoc.
    + destruct (IH (next_receivingRow r row) (next_receivingCol r c row col)
                  st Hal) as (st' & -> & Hal' & Hlog').
      exists st'. split; [done|]. split; [done|].
      rewrite Hlog'. by rewrite decide_False by done.
Qed.

End AxpyLocalToGlobal_properties.

(** C5, as the code has it.  Every message that [AxpyLocalToGlobal] sends
    is an update message for one slot [(row, col)] of the grid: it goes to
    the rank [row + r*col] with the data tag; it is the header
    [{i, j, height, width, alpha}] of the call followed by a payload of
    [localHeight*localWidth] entries, the numbers of rows and of columns of
    the region that the slot owns, which are not both of them the [height]
    and [width] of the header; its size is that of the header and of these
    entries; and the payload is column-major within the packed part: entry
    [s + t*localHeight] is the entry [(colShift + s*r, rowShift + t*c)] of
    [X]. *)
Theorem AxpyLocalToGlobal_messages {T : Type} {ST : Scalar T}
    (Shift LocalLength : Z -> Z -> Z -> Z) (RELEASE : bool)
    (Test : Request -> bool) (alpha : T) (X : Matrix T) (i j : Z)
    (st : State T) (m : Send T) :
  m ∈ new_sends st
        (final_state
           (AxpyLocalToGlobal Shift LocalLength RELEASE Test alpha X i j st)) ->
  exists (row col : Z) (payload : list T),
    let Y := deref (_localToGlobalMat st) in
    let r := gHeight (dGrid Y) in
    let c := gWidth (dGrid Y) in
    let colShift := Shift row (Z.rem (ColAlignment Y + i) r) r in
    let rowShift := Shift col (Z.rem (RowAlignment Y + j) c) c in
    let localHeight := LocalLength (mHeight X) colShift r in
    let localWidth := LocalLength (mWidth X) rowShift c in
    snd_dest m = row + r * col
    /\ snd_tag m = DATA_TAG
    /\ snd_body m
       = DataMsg {| lg_i := i; lg_j := j; lg_height := mHeight X;
                    lg_width := mWidth X; lg_alpha := alpha |} payload
    /\ snd_count m
       = Z.pos sizeof_LocalToGlobalHeader
         + localHeight * localWidth * Z.pos sizeof_T
    /\ localHeight * localWidth <> 0
    /\ length payload = (Z.to_nat localWidth * Z.to_nat localHeight)%nat
    /\ forall s t,
         0 <= s < localHeight -> 0 <= t < localWidth ->
         payload !! Z.to_nat (s + t * localHeight)
         = Some (mRead X ((rowShift + t * c) * LDim X + (colShift + s * r))).
Proof.
  unfold AxpyLocalToGlobal, new_sends.
  destruct ((i <? 0) || (j <? 0)).
  { simpl. rewrite drop_all. intros H. by apply elem_of_nil in H. }
  destruct (_ || _).
  { simpl. rewrite drop_all. intros H. by apply elem_of_nil in H. }
  match goal with
  | |- context [AxpyLocalToGlobal_loop _ _ _ _ ?h _ ?r ?c ?ca ?ra ?n ?row ?col _] =>
      destruct (AxpyLocalToGlobal_loop_log Shift LocalLength RELEASE Test
                  h X r c ca ra n row col st) as (slots & Hslots & ->)
  end.
  rewrite drop_app_length. intros Hm.
  apply list_elem_of_fmap in Hm as ([row col] & -> & Hin).
  rewrite Forall_forall in Hslots. destruct (Hslots _ Hin) as [_ Hown].
  exists row, col. eexists. simpl.
  split; [done|]. split; [done|]. split; [done|]. split; [done|].
  split.
  { unfold slot_owns, slot_numEntries in Hown. simpl in Hown.
    apply negb_true_iff, Z.eqb_neq in Hown. exact Hown. }
  split; [apply length_data_payload|].
  intros s t Hs Ht. by apply lookup_data_payload.
Qed.

(** ** AxpyLocalToGlobal: the walk over the grid *)

Section walk.

Variables r c : Z.
Hypothesis r_pos : 0 < r.
Hypothesis c_pos : 0 < c.

Lemma next_slot (row col : Z) :
  0 <= row < r -> 0 <= col < c ->
  0 <= next_receivingRow r row < r
  /\ 0 <= next_receivingCol r c row col < c
  /\ next_receivingRow r row + r * next_receivingCol r c row col
     = (row + r * col + 1) mod (r * c).
Proof.
  intros Hrow Hcol. unfold next_receivingCol, next_receivingRow.
  destruct (decide (row + 1 < r)) as [Hlt|Hge].
  - rewrite Z.rem_small by lia.
    destruct (Z.eqb_spec (row + 1) 0); [lia|].
    rewrite Z.mod_small by nia. lia.
  - replace (row + 1) with r by lia. rewrite Z.rem_same by lia. simpl.
    destruct (decide (col + 1 < c)) as [Hlt'|Hge'].
    + rewrite Z.rem_small by lia. rewrite Z.mod_small by nia. lia.
    + replace (col + 1) with c by lia. rewrite Z.rem_same by lia.
      replace (row + r * col + 1) with (r * c) by nia.
      rewrite Z.mod_same by nia. lia.
Qed.

Lemma slot_of_rank_of_slot (row col : Z) :
  0 <= row < r -> slot_of_rank r (row + r * col) = (row, col).
Proof.
  intros Hrow. unfold slot_of_rank. f_equal.
  - rewrite (Z.mul_comm r col), Z.mod_add by lia. by apply Z.mod_small.
  - rewrite (Z.mul_comm r col), Z.div_add by lia.
    rewrite Z.div_small by lia. lia.
Qed.

Lemma rank_of_slot_of_rank (q : Z) :
  rank_of_slot r (slot_of_rank r q) = q.
Proof.
  unfold rank_of_slot, slot_of_rank. simpl.
  pose proof (Z.div_mod q r). lia.
Qed.

(** The walk goes through the ranks one by one, from the rank of the
    first slot on, and wraps around at [r*c]. *)
Lemma visits_ranks (steps : nat) :
  forall row col,
    0 <= row < r -> 0 <= col < c ->
    visits r c steps row col
    = (fun k => slot_of_rank r ((row + r * col + Z.of_nat k) mod (r * c)))
        <$> seq 0 steps.
Proof.
  induction steps as [|steps IH]; intros row col Hrow Hcol; [done|].
  simpl. f_equal.
  - rewrite Z.add_0_r, Z.mod_small by nia. by rewrite slot_of_rank_of_slot.
  - destruct (next_slot row col Hrow Hcol) as (Hr' & Hc' & Hq).
    rewrite IH by done. rewrite Hq, <- fmap_S_seq, <- list_fmap_compose.
    apply list_fmap_ext. intros _ k _. simpl. f_equal.
    rewrite Zplus_mod_idemp_l. f_equal. lia.
Qed.

Lemma rank_shift_inj (q0 k1 k2 : Z) :
  0 <= k1 < r * c -> 0 <= k2 < r * c ->
  (q0 + k1) mod (r * c) = (q0 + k2) mod (r * c) -> k1 = k2.
Proof.
  assert (Hp : 0 < r * c) by nia. revert Hp.
  generalize (r * c). intros p Hp H1 H2 Heq.
  pose proof (Z.div_mod (q0 + k1) p ltac:(lia)) as E1.
  pose proof (Z.div_mod (q0 + k2) p ltac:(lia)) as E2.
  rewrite Heq in E1.
  assert ((q0 + k1) / p = (q0 + k2) / p) as E by nia.
  rewrite E in E1. lia.
Qed.

(** In [r*c] steps the walk visits every slot of the grid, and none
    twice. *)
Lemma visits_all (row0 col0 : Z) :
  0 <= row0 < r -> 0 <= col0 < c ->
  let V := visits r c (Z.to_nat (r * c)) row0 col0 in
  NoDup V
  /\ (forall row col, 0 <= row < r -> 0 <= col < c -> (row, col) ∈ V)
  /\ (forall slot, slot ∈ V -> slot_of_rank r (rank_of_slot r slot) = slot).
Proof.
  intros Hrow0 Hcol0. simpl. rewrite visits_ranks by done.
  set (q0 := row0 + r * col0). split; [|split].
  - apply NoDup_fmap_2_strong; [|apply NoDup_seq].
    intros k1 k2 Hk1 Hk2 Heq. apply elem_of_seq in Hk1, Hk2.
    apply (f_equal (rank_of_slot r)) in Heq.
    rewrite !rank_of_slot_of_rank in Heq.
    apply rank_shift_inj in Heq; lia.
  - intros row col Hrow Hcol. apply list_elem_of_fmap.
    exists (Z.to_nat ((row + r * col - q0) mod (r * c))).
    pose proof (Z.mod_pos_bound (row + r * col - q0) (r * c)) as Hb.
    split; [|apply elem_of_seq; nia].
    rewrite Z2Nat.id by nia. rewrite Zplus_mod_idemp_r.
    replace (q0 + (row + r * col - q0)) with (row + r * col) by lia.
    rewrite Z.mod_small by nia. by rewrite slot_of_rank_of_slot.
  - intros slot Hin. apply list_elem_of_fmap in Hin as (k & -> & _).
    by rewrite rank_of_slot_of_rank.
Qed.

End walk.

Lemma filter_none {A} (P : A -> Prop) `{!forall x, Decision (P x)}
    (l : list A) :
  (forall y, y ∈ l -> ~ P y) -> filter P l = [].
Proof.
  induction l as [|a l IH]; intros Hnone; [done|].
  rewrite filter_cons, decide_False by (apply Hnone; by left).
  apply IH. intros y Hy. apply Hnone. by right.
Qed.

Lemma filter_fmap_length {A B} (f : A -> B) (P : B -> Prop)
    `{!forall y, Decision (P y)} (l : list A) :
  length (filter P (f <$> l)) = length (filter (fun x => P (f x)) l).
Proof.
  induction l as [|a l IH]; [done|].
  rewrite fmap_cons, !filter_cons. destruct (decide (P (f a))); simpl; lia.
Qed.

Lemma length_filter_unique {A} (P : A -> Prop) `{!forall x, Decision (P x)}
    (l : list A) (x : A) :
  NoDup l -> x ∈ l -> (forall y, y ∈ l -> P y -> y = x) ->
  length (filter P l) = if decide (P x) then 1%nat else 0%nat.
Proof.
  induction l as [|a l IH]; intros Hnd Hin Huniq.
  - by apply elem_of_nil in Hin.
  - apply NoDup_cons in Hnd as [Hnotin Hnd]. rewrite filter_cons.
    apply elem_of_cons in Hin as [->|Hin].
    + assert (filter P l = []) as ->.
      { apply filter_none. intros y Hy HP.
        apply Hnotin. rewrite <- (Huniq y); [done|by right|done]. }
      by destruct (decide (P a)).
    + rewrite decide_False.
      * apply IH; [done|done|]. intros y Hy. apply Huniq. by right.
      * intros HP. apply Hnotin. rewrite (Huniq a); [done|by left|done].
Qed.

(** C6, as the code has it.  An in-bounds put on an object with aligned
    buffer pools, on an r x c grid, returns.  Its loop visits the r*c slots
    of the grid by increasing rank [row + r*col], the row running fastest,
    starting at the slot of the calling process and wrapping around after
    the last rank.  What it sends is, in that order, one update message to
    each visited slot with [numEntries != 0]: each slot of the grid that
    owns an entry gets exactly one message, and a slot that owns none gets
    none.  The sums of the bounds test, and the size in bytes of the
    message for each slot of the grid, are taken to be in the range of
    [int], in which the code computes and stores them. *)
Theorem AxpyLocalToGlobal_one_message_per_owning_slot
    {T : Type} {ST : Scalar T} (Shift LocalLength : Z -> Z -> Z -> Z)
    (RELEASE : bool) (Test : Request -> bool) (alpha : T) (X : Matrix T)
    (i j : Z) (st : State T) (Y : DistMatrix T) (r c myRow myCol : Z) :
  _localToGlobalMat st = Some Y ->
  dGrid Y = {| gHeight := r; gWidth := c; MCRank := myRow; MRRank := myCol |} ->
  0 < r -> 0 < c -> 0 <= myRow < r -> 0 <= myCol < c ->
  pools_aligned st ->
  (forall n shift,
      0 <= LocalLength n shift r /\ 0 <= LocalLength n shift c) ->
  0 <= i -> 0 <= j ->
  i + mHeight X <= dHeight Y -> j + mWidth X <= dWidth Y ->
  fits_int (i + mHeight X) -> fits_int (j + mWidth X) ->
  (forall row col,
      0 <= row < r -> 0 <= col < c ->
      fits_int
        (Z.pos sizeof_LocalToGlobalHeader
         + LocalLength (mHeight X)
             (Shift row (Z.rem (ColAlignment Y + i) r) r) r
           * LocalLength (mWidth X)
               (Shift col (Z.rem (RowAlignment Y + j) c) c) c
           * Z.pos sizeof_T)) ->
  let header :=
    {| lg_i := i; lg_j := j; lg_height := mHeight X; lg_width := mWidth X;
       lg_alpha := alpha |} in
  let colAlignment := Z.rem (ColAlignment Y + i) r in
  let rowAlignment := Z.rem (RowAlignment Y + j) c in
  let owns :=
    slot_owns Shift LocalLength header r c colAlignment rowAlignment in
  let V := visits r c (Z.to_nat (r * c)) myRow myCol in
  exists st',
    AxpyLocalToGlobal Shift LocalLength RELEASE Test alpha X i j st
    = Returned tt st'
    /\ V = (fun k => slot_of_rank r ((myRow + r * myCol + k) mod (r * c)))
             <$> upto (r * c)
    /\ new_sends st st'
       = slot_message Shift LocalLength header X r c colAlignment rowAlignment
           <$> filter (fun slot => owns slot = true) V
    /\ forall row col,
         0 <= row < r -> 0 <= col < c ->
         length (filter (fun m => snd_dest m = row + r * col)
                   (new_sends st st'))
         = if owns (row, col) then 1%nat else 0%nat.
Proof.
  intros HY Hg Hr Hc Hrow Hcol Hal Hlen Hi Hj Hh Hw _ _ _.
  intros header ca ra owns V.
  unfold AxpyLocalToGlobal. rewrite HY. simpl. rewrite Hg. simpl.
  destruct (Z.ltb_spec i 0); [lia|]. destruct (Z.ltb_spec j 0); [lia|].
  simpl.
  destruct (Z.gtb_spec (i + mHeight X) (dHeight Y)); [lia|].
  destruct (Z.gtb_spec (j + mWidth X) (dWidth Y)); [lia|]. simpl.
  unfold gSize. simpl.
  destruct (AxpyLocalToGlobal_loop_returns Shift LocalLength RELEASE Test
              header X r c ca ra (Z.to_nat (r * c))) with
    (row := myRow) (col := myCol) (st := st) as (st' & Heq & _ & Hlog);
    [|done|].
  { intros slot. simpl.
    destruct (Hlen (mHeight X) (Shift (fst slot) ca r)) as [? _].
    destruct (Hlen (mWidth X) (Shift (snd slot) ra c)) as [_ ?]. nia. }
  exists st'. split; [exact Heq|]. split.
  { unfold V. rewrite visits_ranks by done.
    unfold upto. by rewrite <- list_fmap_compose. }
  assert (Hnew : new_sends st st'
                 = slot_message Shift LocalLength header X r c ca ra
                     <$> filter (fun slot => owns slot = true) V).
  { unfold new_sends. rewrite Hlog. by rewrite drop_app_length. }
  split; [exact Hnew|].
  intros row col Hrow' Hcol'. rewrite Hnew.
  destruct (visits_all r c Hr Hc myRow myCol Hrow Hcol)
    as (Hnd & Hall & Hinv). fold V in Hnd, Hall, Hinv.
  rewrite filter_fmap_length. simpl.
  rewrite list_filter_filter.
  rewrite (length_filter_unique _ V (row, col)).
  - destruct (owns (row, col)) eqn:Hown.
    + by rewrite decide_True by (split; done).
    + rewrite decide_False; [done|]. intros [_ ?]. congruence.
  - exact Hnd.
  - by apply Hall.
  - intros slot Hin [Hrank _].
    rewrite <- (Hinv slot Hin). unfold rank_of_slot in Hrank |- *.
    rewrite Hrank. by apply slot_of_rank_of_slot.
Qed.

(** * The properties at concrete inputs *)

Import Examples.

(** The scenario of the spec: afterwards every entry of the matrix is 1,
    at each of the four processes. *)
Example put_scenario_2x2 :
  (fun slot =>
     mBuffer
       (LocalMatrix
          (deref (_localToGlobalMat (serviced (fst slot) (snd slot))))))
    <$> [(0, 0); (1, 0); (0, 1); (1, 1)]
  = replicate 4 [1; 1; 1; 1].
Proof. vm_compute. reflexivity. Qed.

Lemma utilities_LocalLength_nonneg (n shift modulus : Z) :
  0 < modulus -> 0 <= utilities.LocalLength n shift modulus.
Proof.
  intros Hm. unfold utilities.LocalLength.
  destruct (Z.gtb_spec n shift); [|lia].
  pose proof (Z.quot_pos (n - shift - 1) modulus). lia.
Qed.

(** C1 at work: after the put [put_2x1] the send to rank 0 completes and
    the send to rank 1 does not; [HandleEoms] sends the End-Of-Message to
    rank 0. *)
Lemma HandleEoms_sends_eom_only_when_idle_witness :
  eom 0 ∈ new_sends put_2x1
            (final_state (HandleEoms only_first_complete None put_2x1))
  /\ exists (n : nat) (X : Z),
       upto (gSize (attached_Grid put_2x1)) !! n = Some X
       /\ snd_dest (eom 0) = X /\ snd_tag (eom 0) = EOM_TAG
       /\ vat (_sentEomTo (HandleEoms_at only_first_complete n put_2x1)) X
          = false
       /\ no_send_in_flight X (HandleEoms_at only_first_complete n put_2x1)
       /\ mpi_sent (HandleEoms_at only_first_complete (S n) put_2x1)
          = mpi_sent (HandleEoms_at only_first_complete n put_2x1) ++ [eom 0]
       /\ no_send_in_flight X
            (final_state (HandleEoms only_first_complete None put_2x1)).
Proof.
  assert (H : eom 0 ∈ new_sends put_2x1
                        (final_state
                           (HandleEoms only_first_complete None put_2x1))).
  { vm_compute. constructor. }
  split; [exact H|].
  exact (HandleEoms_sends_eom_only_when_idle only_first_complete None
           put_2x1 (eom 0) H).
Defined.

(** The End-Of-Message to rank 1, whose send is in flight, is withheld. *)
Example HandleEoms_withholds_eom :
  new_sends put_2x1
    (final_state (HandleEoms only_first_complete None put_2x1))
  = [eom 0].
Proof. reflexivity. Qed.

(** C2 at work: a put at the row offset -1. *)
Lemma AxpyLocalToGlobal_rejects_out_of_bounds_witness :
  exists what,
    AxpyLocalToGlobal_Z false never_complete 1 (local 2 2 [1; 2; 3; 4]) (-1) 0
      (attached_for_put (zeros 4 4 1 1 0 0))
    = Thrown (logic_error what) (attached_for_put (zeros 4 4 1 1 0 0)).
Proof.
  apply (AxpyLocalToGlobal_rejects_out_of_bounds utilities.Shift
           utilities.LocalLength false never_complete 1
           (local 2 2 [1; 2; 3; 4]) (-1) 0
           (attached_for_put (zeros 4 4 1 1 0 0))).
  - unfold fits_int, INT_MIN, INT_MAX. simpl. lia.
  - unfold fits_int, INT_MIN, INT_MAX. simpl. lia.
  - left. lia.
Defined.

(** C3: the code at a get with the row offset -1.  On a 1 x 1 grid, the
    get of a 1 x 1 block at [(-1, 0)] from a 4 x 4 matrix is not rejected:
    the request goes out, the process answers it with the entry [(0, 0)]
    of the matrix, and the reply is added to the destination buffer of the
    caller. *)
Theorem AxpyGlobalToLocal_accepts_negative_offset :
  let X := counting 4 4 1 1 0 0 in
  let Y := local 1 1 [0] in
  let o :=
    AxpyGlobalToLocal_Z false never_complete [self_service] 1 (-1) 0
      (attached_for_get X, Y) in
  returned o = true
  /\ mBuffer (snd (final_state o)) = [1]
  /\ mBuffer Y = [0]
  /\ (snd_tag <$> mpi_sent (fst (final_state o)))
     = [DATA_REQUEST_TAG; DATA_REPLY_TAG].
Proof. vm_compute. repeat split. Qed.

(** The part of C3 that the code has: a region that reaches beyond the
    last row or column of the source is rejected, and neither the object
    nor the destination buffer has changed. *)
Lemma AxpyGlobalToLocal_rejects_overflow {T : Type} {ST : Scalar T}
    (Shift LocalLength : Z -> Z -> Z -> Z) (RELEASE : bool)
    (Test : Request -> bool) (ticks : list (Tick T)) (alpha : T) (i j : Z)
    (sy : State T * Matrix T) :
  i + mHeight (snd sy) > dHeight (deref (_globalToLocalMat (fst sy)))
  \/ j + mWidth (snd sy) > dWidth (deref (_globalToLocalMat (fst sy))) ->
  AxpyGlobalToLocal Shift LocalLength RELEASE Test ticks alpha i j sy
  = Thrown (logic_error "Invalid AxpyGlobalToLocal submatrix") sy.
Proof.
  intros H. unfold AxpyGlobalToLocal.
  destruct (_ || _) eqn:E; [done|].
  apply orb_false_iff in E as [? ?]. lia.
Qed.

(** C4 fails in a build with [RELEASE]: the update message [bad_update],
    with the row offset -1, is not rejected; it is accumulated into the
    target. *)
Lemma HandleLocalToGlobalData_release_accepts_bad_header :
  let st := attached_for_put (zeros 4 4 1 1 0 0) in
  let o := HandleLocalToGlobalData_Z true (Some bad_update) st in
  lg_i (da_header bad_update) < 0
  /\ returned o = true
  /\ mBuffer (LocalMatrix (deref (_localToGlobalMat st)))
     = replicate 16 0
  /\ mBuffer (LocalMatrix (deref (_localToGlobalMat (final_state o))))
     = 7 :: replicate 15 0.
Proof. vm_compute. repeat split. Qed.

(** C4 at work in a build without [RELEASE]: the same message. *)
Lemma HandleLocalToGlobalData_rejects_bad_header_in_debug_witness :
  exists what st',
    HandleLocalToGlobalData_Z false (Some bad_update)
      (attached_for_put (zeros 4 4 1 1 0 0))
    = Thrown (logic_error what) st'
    /\ _localToGlobalMat st'
       = _localToGlobalMat (attached_for_put (zeros 4 4 1 1 0 0)).
Proof.
  apply (HandleLocalToGlobalData_rejects_bad_header_in_debug utilities.Shift
           utilities.LocalLength bad_update
           (attached_for_put (zeros 4 4 1 1 0 0))).
  - unfold fits_int, INT_MIN, INT_MAX. simpl. lia.
  - unfold fits_int, INT_MIN, INT_MAX. simpl. lia.
  - left. simpl. lia.
Defined.

(** C5 fails on a grid with more than one row: the put [put_2x1] of a
    2 x 1 column sends to rank 0 a message whose header has the height 2
    and the width 1, and whose payload is the one entry that rank 0 owns. *)
Lemma AxpyLocalToGlobal_payload_is_not_height_times_width :
  exists (m : Send Z) h payload,
    m ∈ new_sends (attached_for_put (zeros 2 1 2 1 0 0)) put_2x1
    /\ snd_body m = DataMsg h payload
    /\ lg_height h * lg_width h = 2
    /\ payload = [10].
Proof.
  eexists _, _, _. split; [vm_compute; constructor|].
  vm_compute. repeat split.
Qed.

(** C5 as the code has it, at work on that message. *)
Lemma AxpyLocalToGlobal_messages_witness :
  let st := attached_for_put (zeros 2 1 2 1 0 0) in
  let st' :=
    final_state
      (AxpyLocalToGlobal utilities.Shift utilities.LocalLength false
         never_complete 1 (local 2 1 [10; 20]) 0 0 st) in
  let m := wire 0 32 (DataMsg {| lg_i := 0; lg_j := 0; lg_height := 2;
                                 lg_width := 1; lg_alpha := 1 |} [10])
             DATA_TAG in
  m ∈ new_sends st st'
  /\ exists (row col : Z) (payload : list Z),
       snd_tag m = DATA_TAG
       /\ snd_body m
          = DataMsg {| lg_i := 0; lg_j := 0; lg_height := 2; lg_width := 1;
                       lg_alpha := 1 |} payload.
Proof.
  intros st st' m.
  assert (H : m ∈ new_sends st st') by (vm_compute; constructor).
  split; [exact H|].
  destruct (AxpyLocalToGlobal_messages utilities.Shift utilities.LocalLength
              false never_complete 1 (local 2 1 [10; 20]) 0 0 st m H)
    as (row & col & payload & _ & Ht & Hb & _).
  exists row, col, payload. split; [exact Ht|exact Hb].
Defined.

(** C6 fails in the order of the visits: on a 2 x 2 grid the process
    [(0, 0)] visits the slots [(0,0), (1,0), (0,1), (1,1)], which is not
    the row-major order, and the put [put_2x2] sends to the ranks 0, 1, 2,
    3 in this order, where the row-major order of the slots gives the
    ranks 0, 2, 1, 3. *)
Lemma AxpyLocalToGlobal_visits_are_not_row_major :
  visits 2 2 4 0 0 = [(0, 0); (1, 0); (0, 1); (1, 1)]
  /\ row_major_slots 2 2 = [(0, 0); (0, 1); (1, 0); (1, 1)]
  /\ visits 2 2 4 0 0 <> row_major_slots 2 2
  /\ (snd_dest <$> new_sends (attached_for_put (zeros 4 4 2 2 0 0)) put_2x2)
     = [0; 1; 2; 3]
  /\ (rank_of_slot 2 <$> row_major_slots 2 2) = [0; 2; 1; 3].
Proof. vm_compute. repeat split. discriminate. Qed.

(** C6 as the code has it, at work on that put. *)
Lemma AxpyLocalToGlobal_one_message_per_owning_slot_witness :
  let st := attached_for_put (zeros 4 4 2 2 0 0) in
  let X := local 2 2 [1; 2; 3; 4] in
  let header := {| lg_i := 0; lg_j := 0; lg_height := 2; lg_width := 2;
                   lg_alpha := 1 |} in
  let owns := slot_owns utilities.Shift utilities.LocalLength header 2 2 0 0 in
  exists st',
    AxpyLocalToGlobal_Z false never_complete 1 X 0 0 st = Returned tt st'
    /\ new_sends st st'
       = slot_message utilities.Shift utilities.LocalLength header X 2 2 0 0
           <$> filter (fun slot => owns slot = true) (visits 2 2 4 0 0)
    /\ forall row col,
         0 <= row < 2 -> 0 <= col < 2 ->
         length (filter (fun m => snd_dest m = row + 2 * col)
                   (new_sends st st'))
         = if owns (row, col) then 1%nat else 0%nat.
Proof.
  intros st X header owns.
  destruct (AxpyLocalToGlobal_one_message_per_owning_slot utilities.Shift
              utilities.LocalLength false never_complete 1 X 0 0 st
              (zeros 4 4 2 2 0 0) 2 2 0 0)
    as (st' & Heq & _ & Hsends & Hcount).
  - reflexivity.
  - reflexivity.
  - lia.
  - lia.
  - lia.
  - lia.
  - intros []; split; reflexivity.
  - intros n shift.
    split; apply utilities_LocalLength_nonneg; lia.
  - lia.
  - lia.
  - simpl. lia.
  - simpl. lia.
  - unfold fits_int, INT_MIN, INT_MAX. simpl. lia.
  - unfold fits_int, INT_MIN, INT_MAX. simpl. lia.
  - intros row col Hrow Hcol.
    assert (row = 0 \/ row = 1) as [-> | ->] by lia;
      (assert (col = 0 \/ col = 1) as [-> | ->] by lia);
      vm_compute; split; discriminate.
  - exists st'. split; [exact Heq|]. split; [exact Hsends|exact Hcount].
Defined.

(** C7 at work: of the two slots of [two_slots] the first is in flight
    and the second is free. *)
Lemma ReadyForSend_returns_usable_slot_witness :
  aligned two_slots
  /\ exists idx ch',
       ReadyForSend false never_complete 64 two_slots = Returned idx ch'
       /\ 0 <= idx < vsize (sendVectors ch')
       /\ buf_size (vat (sendVectors ch') idx) = 64
       /\ vat (requestStatuses ch') idx = true
       /\ aligned ch'.
Proof.
  assert (Hal : aligned two_slots) by (split; reflexivity).
  split; [exact Hal|].
  destruct (ReadyForSend_returns_usable_slot false never_complete 64
              two_slots Hal) as [Hret _].
  destruct Hret as (idx & ch' & Heq & Hidx & Hsize & Hst & _ & _ & Hal');
    [lia|].
  exists idx, ch'. repeat (split; [assumption|]). exact Hal'.
Defined.

Example ReadyForSend_takes_second_slot :
  ReadyForSend false never_complete 64 two_slots
  = Returned 1
      {| sendVectors := [{| buf_size := 32; buf_content := Unpacked |};
                         {| buf_size := 64; buf_content := Unpacked |}];
         requests := [1%nat; 2%nat];
         requestStatuses := [true; true] |}.
Proof. reflexivity. Qed.

(** C9 at work: a second [Attach] on an attached object. *)
Lemma Attach_usage_errors_witness :
  let st := attached_for_put (zeros 4 4 1 1 0 0) in
  attached st = true
  /\ (exists what,
         Attach_const GLOBAL_TO_LOCAL (zeros 2 1 2 1 0 0) st
         = Thrown (logic_error what) st)
  /\ Attach GLOBAL_TO_LOCAL (zeros 2 1 2 1 0 0) st
     = Thrown (logic_error "Must detach before reattaching.") st.
Proof.
  intros st.
  destruct (Attach_usage_errors GLOBAL_TO_LOCAL (zeros 2 1 2 1 0 0) st)
    as [Hconst Hboth].
  - left. reflexivity.
  - split; [reflexivity|]. split; [exact Hconst|].
    apply Hboth. reflexivity.
Defined.

(** After the failed call the caller may attach as the code allows. *)
Example Attach_after_usage_error :
  let st := AxpyInterface_new in
  (exists what,
      Attach_const LOCAL_TO_GLOBAL (zeros 4 4 1 1 0 0) st
      = Thrown (logic_error what) st)
  /\ returned (Attach_const GLOBAL_TO_LOCAL (zeros 4 4 1 1 0 0) st) = true.
Proof. split; [by eexists|reflexivity]. Qed.

(** * Further properties of the operations *)

(** ** Attach, Finished and Detach *)

Lemma vresize_nil {A} (n : nat) (d : A) : vresize n d [] = replicate n d.
Proof. unfold vresize. rewrite take_nil. simpl. by rewrite Nat.sub_0_r. Qed.

Lemma pristine_pools_aligned {T} (p : nat) (st : State T) :
  pristine p st -> pools_aligned st.
Proof.
  intros (_ & _ & _ & H) k. destruct (H k) as (-> & -> & ->).
  by rewrite !fmap_replicate.
Qed.

Lemma Attach_resize_cleared {T} (p : Z) (st : State T) :
  cleared st -> pristine (Z.to_nat p) (Attach_resize p st).
Proof.
  intros (H1 & H2 & H3 & H). unfold pristine. simpl.
  rewrite H1, H2, H3, !vresize_nil. repeat (split; [done|]).
  intros k. destruct (H k) as (Hv & Hs & Hr).
  destruct k; simpl in *; rewrite Hv, Hs, Hr, !vresize_nil; done.
Qed.

Lemma cleared_set_attachment {T} (st st' : State T) :
  cleared st ->
  _sentEomTo st' = _sentEomTo st ->
  _haveEomFrom st' = _haveEomFrom st ->
  _eomSendRequests st' = _eomSendRequests st ->
  (forall k, Vectors k st' = Vectors k st /\ Sending k st' = Sending k st
             /\ SendRequests k st' = SendRequests k st) ->
  cleared st'.
Proof.
  intros (H1 & H2 & H3 & H) E1 E2 E3 Hk. unfold cleared.
  rewrite E1, E2, E3. repeat (split; [done|]). intros k.
  destruct (Hk k) as (-> & -> & ->). apply H.
Qed.

(** X1.  On an object that is not attached and whose vectors are empty (a
    new object, or one that has been detached), [Attach] returns: the
    object is then attached in the mode asked for, to the matrix given;
    for each of the [p] processes of the grid of the matrix no
    End-Of-Message is marked as sent or received and every buffer pool is
    empty; nothing has been sent. *)
Theorem Attach_starts_pristine {T : Type} (axpyType : AxpyType)
    (Z0 : DistMatrix T) (st : State T) :
  attached st = false ->
  cleared st ->
  exists st',
    Attach axpyType Z0 st = Returned tt st'
    /\ pristine (Z.to_nat (gSize (dGrid Z0))) st'
    /\ _attachedForLocalToGlobal st'
       = match axpyType with LOCAL_TO_GLOBAL => true
                           | GLOBAL_TO_LOCAL => false end
    /\ _attachedForGlobalToLocal st'
       = match axpyType with LOCAL_TO_GLOBAL => false
                           | GLOBAL_TO_LOCAL => true end
    /\ match axpyType with
       | LOCAL_TO_GLOBAL => _localToGlobalMat st'
       | GLOBAL_TO_LOCAL => _globalToLocalMat st'
       end = Some Z0
    /\ attached_Grid st' = dGrid Z0
    /\ mpi_sent st' = mpi_sent st
    /\ (axpyType = GLOBAL_TO_LOCAL ->
        Attach_const axpyType Z0 st = Returned tt st').
Proof.
  intros Hatt Hcl. unfold attached in Hatt. unfold Attach, Attach_const.
  rewrite Hatt. apply orb_false_iff in Hatt as [Hput Hget].
  eexists. split; [reflexivity|]. split.
  { apply Attach_resize_cleared.
    destruct axpyType;
      (eapply cleared_set_attachment; [exact Hcl|done|done|done|]);
      intros []; done. }
  destruct axpyType; unfold attached_Grid; simpl; rewrite ?Hput, ?Hget;
    repeat (split; [done|]); done.
Qed.

(** The loop of [Finished] with its [break]. *)
Lemma Finished_loop_true {T} (ranks : list Z) (st : State T) :
  Finished_loop ranks st = true
  <-> forall rank, rank ∈ ranks ->
        vat (_sentEomTo st) rank = true /\ vat (_haveEomFrom st) rank = true.
Proof.
  induction ranks as [|rank ranks IH]; simpl.
  - split; [|done]. intros _ rank H. by apply elem_of_nil in H.
  - destruct (vat (_sentEomTo st) rank) eqn:Hs,
             (vat (_haveEomFrom st) rank) eqn:Hh; simpl.
    + rewrite IH. split.
      * intros H k Hk. apply elem_of_cons in Hk as [->|Hk]; auto.
      * intros H k Hk. apply H. by right.
    + split; [done|]. intros H.
      destruct (H rank) as [_ ?]; [by left|congruence].
    + split; [done|]. intros H.
      destruct (H rank) as [? _]; [by left|congruence].
    + split; [done|]. intros H.
      destruct (H rank) as [? _]; [by left|congruence].
Qed.

Lemma elem_of_upto (n k : Z) : k ∈ upto n <-> 0 <= k < n.
Proof.
  unfold upto. rewrite list_elem_of_fmap. split.
  - intros (i & -> & Hi). apply elem_of_seq in Hi. lia.
  - intros Hk. exists (Z.to_nat k). split; [lia|]. apply elem_of_seq. lia.
Qed.

(** X2.  On an attached object [Finished] returns, leaves the object as it
    is, and answers true exactly when for every rank of the grid an
    End-Of-Message has been sent and one has been received. *)
Theorem Finished_iff_all_eoms_exchanged {T : Type} (RELEASE : bool)
    (st : State T) :
  attached st = true ->
  exists finished,
    Finished RELEASE st = Returned finished st
    /\ (finished = true <-> all_eoms_exchanged st).
Proof.
  intros H. unfold Finished.
  assert (negb RELEASE && negb (_attachedForLocalToGlobal st)
          && negb (_attachedForGlobalToLocal st) = false) as ->.
  { unfold attached in H. destruct RELEASE; [done|]. simpl.
    by destruct (_attachedForLocalToGlobal st),
                (_attachedForGlobalToLocal st). }
  eexists. split; [reflexivity|]. rewrite Finished_loop_true.
  unfold all_eoms_exchanged. split.
  - intros Hall rank Hr. by apply Hall, elem_of_upto.
  - intros Hall rank Hr. by apply Hall, elem_of_upto.
Qed.


Section Detach_properties.

Context {T : Type} {ST : Scalar T}.
Variable Shift : Z -> Z -> Z -> Z.
Variable LocalLength : Z -> Z -> Z -> Z.
Variable RELEASE : bool.
Implicit Types (st : State T).

Lemma put_serviced_dGrid (Y Y' : option (DistMatrix T)) :
  put_serviced Shift LocalLength Y Y' ->
  dGrid (deref Y') = dGrid (deref Y).
Proof.
  induction 1 as [|Y Y' h XBuffer _ IH]; [done|].
  rewrite <- IH. by destruct Y'.
Qed.

(** A round of the loop of [Detach] keeps the mode and the grid. *)
Lemma Detach_round_mode tk st :
  let st' := final_state (Detach_round Shift LocalLength RELEASE tk st) in
  _attachedForLocalToGlobal st' = _attachedForLocalToGlobal st
  /\ _attachedForGlobalToLocal st' = _attachedForGlobalToLocal st
  /\ attached_Grid st' = attached_Grid st.
Proof.
  destruct (put_serviced_Detach_round Shift LocalLength RELEASE tk st)
    as (H1 & H2 & H3 & H4 & _).
  simpl. split; [done|]. split; [done|].
  unfold attached_Grid. rewrite H1, H3.
  by rewrite (put_serviced_dGrid _ _ H4).
Qed.

(** When the loop of [Detach] is left by [Finished], every End-Of-Message
    has been exchanged. *)
Lemma Detach_drain_returned ticks :
  forall st st_d,
    Detach_drain Shift LocalLength RELEASE ticks st = Returned tt st_d ->
    all_eoms_exchanged st_d
    /\ _attachedForLocalToGlobal st_d = _attachedForLocalToGlobal st
    /\ _attachedForGlobalToLocal st_d = _attachedForGlobalToLocal st
    /\ attached_Grid st_d = attached_Grid st.
Proof.
  assert (Hfin : forall st,
             Finished_loop (upto (gSize (attached_Grid st))) st = true ->
             all_eoms_exchanged st).
  { intros st H rank Hr.
    apply (proj1 (Finished_loop_true _ _) H), elem_of_upto, Hr. }
  induction ticks as [|tk ticks IH]; intros st st_d; simpl;
    unfold bind, Finished.
  - destruct (negb RELEASE && _ && _); [done|].
    destruct (Finished_loop _ st) eqn:Hf; [|done].
    unfold ret. intros [= <-]. split; [by apply Hfin|done].
  - destruct (negb RELEASE && _ && _); [done|].
    destruct (Finished_loop _ st) eqn:Hf.
    + unfold ret. intros [= <-]. split; [by apply Hfin|done].
    + destruct (Detach_round_mode tk st) as (H1 & H2 & H3).
      destruct (Detach_round _ _ _ tk st) as [[] s1|e s1|s1]; [|done..].
      simpl in *. intros Hd. destruct (IH _ _ Hd) as (Ha & Hb & Hc & He).
      split; [done|]. by rewrite Hb, Hc, He.
Qed.

Lemma Detach_returned ticks st st' :
  Detach Shift LocalLength RELEASE ticks st = Returned tt st' ->
  exists st_d,
    Detach_drain Shift LocalLength RELEASE ticks st = Returned tt st_d
    /\ st' = Detach_clear st_d.
Proof.
  unfold Detach. destruct (_ && _); [done|]. unfold bind.
  destruct (Detach_drain _ _ _ ticks st) as [[] st_d|e st_d|st_d]; [|done..].
  unfold modify. intros [= <-]. by exists st_d.
Qed.

Lemma cleared_Detach_clear st : cleared (Detach_clear st).
Proof. repeat (split; [done|]). by intros []. Qed.

End Detach_properties.

(** X3.  When [Detach] returns, its loop [while( !Finished() )] has run
    to a state [st_d] in which an End-Of-Message has been sent to and
    received from every rank of the grid; the object is what the final
    assignments make of that state: it is not attached any more and all
    its vectors are empty. *)
Theorem Detach_returns_only_when_finished {T : Type} {ST : Scalar T}
    (Shift LocalLength : Z -> Z -> Z -> Z) (RELEASE : bool)
    (ticks : list (Tick T)) (st st' : State T) :
  Detach Shift LocalLength RELEASE ticks st = Returned tt st' ->
  exists st_d,
    Detach_drain Shift LocalLength RELEASE ticks st = Returned tt st_d
    /\ all_eoms_exchanged st_d
    /\ attached_Grid st_d = attached_Grid st
    /\ st' = Detach_clear st_d
    /\ attached st' = false
    /\ cleared st'.
Proof.
  intros H. destruct (Detach_returned _ _ _ _ _ _ H) as (st_d & Hd & ->).
  destruct (Detach_drain_returned _ _ _ _ _ _ Hd) as (Ha & _ & _ & Hg).
  exists st_d. repeat (split; [done|]). apply cleared_Detach_clear.
Qed.

(** X4.  [Detach] on an object that is not attached throws a logic error
    and leaves the object as it is: nothing is polled, sent or cleared. *)
Theorem Detach_usage_error {T : Type} {ST : Scalar T}
    (Shift LocalLength : Z -> Z -> Z -> Z) (RELEASE : bool)
    (ticks : list (Tick T)) (st : State T) :
  attached st = false ->
  Detach Shift LocalLength RELEASE ticks st
  = Thrown (logic_error "Must attach before detaching.") st.
Proof.
  intros H. unfold attached in H. apply orb_false_iff in H as [H1 H2].
  unfold Detach. by rewrite H1, H2.
Qed.

(** X5.  After a [Detach] that has returned the object can be attached
    again, in either mode and to any matrix: [Attach] returns and the new
    attachment starts with no End-Of-Message marked as sent or received
    and with empty buffer pools, whatever the traffic of the attachment
    before; a second [Detach] instead throws. *)
Theorem Detach_then_Attach {T : Type} {ST : Scalar T}
    (Shift LocalLength : Z -> Z -> Z -> Z) (RELEASE : bool)
    (ticks : list (Tick T)) (st st' : State T)
    (axpyType : AxpyType) (Z0 : DistMatrix T) :
  Detach Shift LocalLength RELEASE ticks st = Returned tt st' ->
  (exists st'',
      Attach axpyType Z0 st' = Returned tt st''
      /\ pristine (Z.to_nat (gSize (dGrid Z0))) st''
      /\ pools_aligned st''
      /\ attached st'' = true
      /\ mpi_sent st'' = mpi_sent st')
  /\ forall ticks',
       Detach Shift LocalLength RELEASE ticks' st'
       = Thrown (logic_error "Must attach before detaching.") st'.
Proof.
  intros H. destruct (Detach_returned _ _ _ _ _ _ H) as (st_d & _ & ->).
  split; [|done].
  unfold Attach. simpl. eexists. split; [reflexivity|].
  assert (Hp : pristine (Z.to_nat (gSize (dGrid Z0)))
                 (Attach_resize (gSize (dGrid Z0))
                    match axpyType with
                    | LOCAL_TO_GLOBAL =>
                        set_localToGlobalMat (Some Z0)
                          (set_attachedForLocalToGlobal true
                             (Detach_clear st_d))
                    | GLOBAL_TO_LOCAL =>
                        set_globalToLocalMat (Some Z0)
                          (set_attachedForGlobalToLocal true
                             (Detach_clear st_d))
                    end)).
  { apply Attach_resize_cleared.
    destruct axpyType; (repeat (split; [done|])); by intros []. }
  split; [exact Hp|]. split; [by eapply pristine_pools_aligned|].
  by destruct axpyType.
Qed.


(** ** Axpy *)

(** X6.  On an object that is not attached for put, [Axpy] with a constant
    local matrix throws a logic error and leaves the object as it is: the
    matrix attached for get cannot be updated, and an object that is not
    attached cannot be used.  [Axpy] with a modifiable local matrix throws
    on an object that is not attached, and leaves the object and the
    matrix as they are. *)
Theorem Axpy_usage_errors {T : Type} {ST : Scalar T}
    (Shift LocalLength : Z -> Z -> Z -> Z) (RELEASE : bool)
    (Test : Request -> bool) (ticks : list (Tick T)) (alpha : T)
    (Z0 : Matrix T) (i j : Z) (st : State T) :
  _attachedForLocalToGlobal st = false ->
  (_attachedForGlobalToLocal st = true ->
   Axpy_const Shift LocalLength RELEASE Test alpha Z0 i j st
   = Thrown (logic_error "Cannot update a constant matrix.") st)
  /\ (_attachedForGlobalToLocal st = false ->
      Axpy_const Shift LocalLength RELEASE Test alpha Z0 i j st
      = Thrown (logic_error "Cannot axpy before attaching.") st
      /\ Axpy Shift LocalLength RELEASE Test ticks alpha i j (st, Z0)
         = Thrown (logic_error "Cannot axpy before attaching.") (st, Z0)).
Proof.
  intros Hput. unfold Axpy_const, Axpy. simpl. rewrite Hput.
  split; intros ->; done.
Qed.

(** ** HandleEoms: what it sends and what it records *)

Section HandleEoms_more.

Context {T : Type} {ST : Scalar T}.
Implicit Types (st s : State T) (X i : Z).

Lemma vat_vset_true (v : list bool) (i X : Z) :
  vat v X = true -> vat (vset v i true) X = true.
Proof.
  intros H. unfold vset, vat, vupd in *.
  destruct (0 <=? X) eqn:HX; [|done]. destruct (0 <=? i) eqn:Hi; [|done].
  rewrite list_lookup_total_alt in *.
  destruct (decide (Z.to_nat i = Z.to_nat X)) as [->|Hne].
  - rewrite list_lookup_alter_eq. by destruct (v !! Z.to_nat X).
  - by rewrite list_lookup_alter_ne.
Qed.

Lemma vat_vset_eq (v : list bool) (i : Z) :
  0 <= i < vsize v -> vat (vset v i true) i = true.
Proof.
  intros H. unfold vset, vat, vupd, vsize in *.
  destruct (Z.leb_spec 0 i); [|lia].
  rewrite list_lookup_total_alt, list_lookup_alter_eq.
  destruct (v !! Z.to_nat i) eqn:E; [done|].
  apply lookup_ge_None in E. lia.
Qed.

Lemma vat_vupd_ne {A} `{Inhabited A} (f : A -> A) (v : list A) (k k' : Z) :
  k <> k' -> vat (vupd f v k) k' = vat v k'.
Proof.
  intros Hne. unfold vat, vupd.
  destruct (Z.leb_spec 0 k'), (Z.leb_spec 0 k); try done.
  rewrite !list_lookup_total_alt, list_lookup_alter_ne; [done|lia].
Qed.

Lemma vsize_vset {A} (v : list A) (i : Z) (x : A) :
  vsize (vset v i x) = vsize v.
Proof. unfold vsize, vset. by rewrite length_vupd. Qed.

(** One round of the loop, in full. *)
Lemma HandleEoms_peer_cases i st :
  let st' := final_state (HandleEoms_peer i st) in
  (vat (_sentEomTo st) i = false /\ no_send_in_flight i st
   /\ mpi_sent st' = mpi_sent st ++ [eom_token i]
   /\ _sentEomTo st' = vset (_sentEomTo st) i true
   /\ _haveEomFrom st' = _haveEomFrom st)
  \/ ((vat (_sentEomTo st) i = true \/ ~ no_send_in_flight i st)
      /\ st' = st).
Proof.
  unfold HandleEoms_peer.
  destruct (vat (_sentEomTo st) i) eqn:Hsent; simpl.
  { right. split; [by left|done]. }
  destruct (shouldSendEom i st) eqn:Hshould; simpl.
  - left. split; [done|]. split; [by apply shouldSendEom_true|done].
  - right. split; [|done]. right. intros H.
    apply shouldSendEom_true in H. congruence.
Qed.

(** The rounds [l] of the loop: what they send, and the flags. *)
Lemma HandleEoms_rounds_tokens (l : list Z) :
  forall st,
    let st' := foldl (fun s i => final_state (HandleEoms_peer i s)) st l in
    exists L,
      mpi_sent st' = mpi_sent st ++ (eom_token <$> L)
      /\ L `sublist_of` l
      /\ (forall X, X ∈ L ->
            vat (_sentEomTo st) X = false /\ no_send_in_flight X st
            /\ (0 <= X < vsize (_sentEomTo st) ->
                vat (_sentEomTo st') X = true))
      /\ (forall X, vat (_sentEomTo st) X = true ->
                    vat (_sentEomTo st') X = true)
      /\ vsize (_sentEomTo st') = vsize (_sentEomTo st)
      /\ _haveEomFrom st' = _haveEomFrom st
      /\ (forall X, X ∈ l -> 0 <= X < vsize (_sentEomTo st) ->
            vat (_sentEomTo st') X = true \/ ~ no_send_in_flight X st)
      /\ (forall X, vat (_sentEomTo st') X = true ->
                    vat (_sentEomTo st) X = true \/ X ∈ L).
Proof.
  induction l as [|i l IH]; intros st; simpl.
  - exists []. simpl. rewrite app_nil_r. repeat (split; [done|]).
    split; [intros X H; by apply elem_of_nil in H|].
    repeat (split; [done|]).
    split; [intros X H; by apply elem_of_nil in H|]. intros X H. by left.
  - assert (Hflags : forall X,
              no_send_in_flight X (final_state (HandleEoms_peer i st))
              <-> no_send_in_flight X st).
    { intros X. split; apply no_send_in_flight_Sending; intros k;
        by rewrite HandleEoms_peer_Sending. }
    pose proof (HandleEoms_peer_cases i st) as Hcases. simpl in Hcases.
    revert Hflags Hcases.
    generalize (final_state (HandleEoms_peer i st)). intros s1 Hflags Hcases.
    destruct (IH s1)
      as (L & Hlog & Hsub & HL & Hmono & Hsize & Hhave & Hprog & Hmarks).
    destruct Hcases as [(Hs & Hidle & Hsend & Hset & Hh)|[Hwhy Hsame]].
    + exists (i :: L). simpl.
      split; [by rewrite Hlog, Hsend, <- app_assoc|].
      split; [by apply sublist_skip|].
      assert (Hmono1 : forall X, vat (_sentEomTo st) X = true ->
                                 vat (_sentEomTo s1) X = true).
      { intros X HX. rewrite Hset. by apply vat_vset_true. }
      assert (Hsize1 : vsize (_sentEomTo s1) = vsize (_sentEomTo st))
        by (rewrite Hset; apply vsize_vset).
      split.
      { intros X HX. apply elem_of_cons in HX as [->|HX].
        - split; [done|]. split; [done|]. intros Hr.
          apply Hmono. rewrite Hset. by apply vat_vset_eq.
        - destruct (HL X HX) as (Hf & Hi & Hr).
          split.
          { destruct (vat (_sentEomTo st) X) eqn:E; [|done].
            rewrite (Hmono1 X E) in Hf. done. }
          split; [by apply Hflags|]. intros Hin. apply Hr. by rewrite Hsize1. }
      split; [intros X HX; by apply Hmono, Hmono1|].
      split; [by rewrite Hsize, Hsize1|]. split; [by rewrite Hhave, Hh|].
      split.
      { intros X HX Hin. apply elem_of_cons in HX as [->|HX].
        * left. apply Hmono. rewrite Hset. by apply vat_vset_eq.
        * destruct (Hprog X HX) as [?|Hn]; [by rewrite Hsize1|by left|].
          right. intros H. by apply Hn, Hflags. }
      intros X HX. destruct (Hmarks X HX) as [H1|HL1]; [|right; by right].
      destruct (decide (X = i)) as [->|Hne]; [right; by left|left].
      rewrite Hset in H1. unfold vset in H1.
      by rewrite vat_vupd_ne in H1.
    + rewrite Hsame in *. exists L.
      split; [done|]. split; [by apply sublist_cons|].
      split; [done|]. split; [done|]. split; [done|]. split; [done|].
      split; [|done].
      intros X HX Hin. apply elem_of_cons in HX as [->|HX].
      * destruct Hwhy as [Hs|Hn]; [left; by apply Hmono|by right].
      * by apply Hprog.
Qed.

Lemma NoDup_upto (n : Z) : NoDup (upto n).
Proof.
  unfold upto. apply NoDup_fmap_2; [|apply NoDup_seq].
  intros a b. apply Nat2Z.inj.
Qed.

Lemma UpdateRequestStatuses_keeps_eoms (Test : Request -> bool) st :
  let st' := final_state (UpdateRequestStatuses Test st) in
  mpi_sent st' = mpi_sent st
  /\ _sentEomTo st' = _sentEomTo st
  /\ _haveEomFrom st' = _haveEomFrom st.
Proof.
  unfold UpdateRequestStatuses. simpl.
  erewrite for_each_returns by (intros; reflexivity). simpl.
  apply (foldl_invariant
           (fun s => mpi_sent s = mpi_sent st
                     /\ _sentEomTo s = _sentEomTo st
                     /\ _haveEomFrom s = _haveEomFrom st)); [done|].
  intros s0 i H. exact H.
Qed.

(** A whole call of [HandleEoms]. *)
Lemma HandleEoms_tokens (Test : Request -> bool) (haveEom : option Z) st :
  let st1 := final_state (UpdateRequestStatuses Test st) in
  let st' := final_state (HandleEoms Test haveEom st) in
  exists L,
    new_sends st st' = eom_token <$> L
    /\ NoDup L
    /\ (forall X, X ∈ L ->
          0 <= X < gSize (attached_Grid st)
          /\ vat (_sentEomTo st) X = false /\ no_send_in_flight X st1
          /\ (0 <= X < vsize (_sentEomTo st) ->
              vat (_sentEomTo st') X = true))
    /\ (forall X, vat (_sentEomTo st) X = true ->
                  vat (_sentEomTo st') X = true)
    /\ vsize (_sentEomTo st') = vsize (_sentEomTo st)
    /\ _haveEomFrom st'
       = match haveEom with
         | Some source => vset (_haveEomFrom st) source true
         | None => _haveEomFrom st
         end
    /\ (forall X, 0 <= X < gSize (attached_Grid st) ->
          0 <= X < vsize (_sentEomTo st) ->
          vat (_sentEomTo st') X = true \/ ~ no_send_in_flight X st1)
    /\ mpi_sent st' = mpi_sent st ++ (eom_token <$> L)
    /\ (forall X, vat (_sentEomTo st') X = true ->
                  vat (_sentEomTo st) X = true \/ X ∈ L).
Proof.
  simpl. rewrite HandleEoms_unfold. unfold HandleEoms_at.
  rewrite take_ge by done.
  destruct (UpdateRequestStatuses_keeps_eoms Test st) as (Hl1 & Hs1 & Hh1).
  destruct (HandleEoms_rounds_tokens (upto (gSize (attached_Grid st)))
              (final_state (UpdateRequestStatuses Test st)))
    as (L & Hlog & Hsub & HL & Hmono & Hsize & Hhave & Hprog & Hmarks).
  rewrite Hs1 in *. rewrite Hh1 in *. rewrite Hl1 in *.
  set (s2 := foldl _ _ _) in *.
  assert (Hrecv : mpi_sent (final_state (HandleEoms_receive haveEom s2))
                  = mpi_sent s2
                  /\ _sentEomTo (final_state (HandleEoms_receive haveEom s2))
                     = _sentEomTo s2
                  /\ _haveEomFrom (final_state (HandleEoms_receive haveEom s2))
                     = match haveEom with
                       | Some source => vset (_haveEomFrom s2) source true
                       | None => _haveEomFrom s2
                       end) by by destruct haveEom.
  destruct Hrecv as (Hr1 & Hr2 & Hr3). rewrite Hr2, Hr3, Hhave.
  exists L. split.
  { unfold new_sends. by rewrite Hr1, Hlog, drop_app_length. }
  split; [eapply sublist_NoDup; [apply NoDup_upto|exact Hsub]|].
  split.
  { intros X HX. destruct (HL X HX) as (? & ? & ?).
    split; [|done]. apply elem_of_upto.
    by apply (sublist_subseteq _ _ Hsub). }
  repeat (split; [done|]).
  split; [intros X HX Hin; apply Hprog; [|done]; by apply elem_of_upto|].
  split; [by rewrite Hr1|done].
Qed.

End HandleEoms_more.

(** X7.  Within one call [HandleEoms] sends nothing but End-Of-Message
    tokens, to pairwise distinct ranks of the grid, and none to a rank
    whose token was marked as sent before the call; it marks as sent each
    token that it sends, and a mark that was set stays set. *)
Theorem HandleEoms_sends_each_token_once {T : Type} {ST : Scalar T}
    (Test : Request -> bool) (haveEom : option Z) (st : State T) :
  (Z.to_nat (gSize (attached_Grid st)) <= length (_sentEomTo st))%nat ->
  let st' := final_state (HandleEoms Test haveEom st) in
  exists L,
    new_sends st st' = eom_token <$> L
    /\ NoDup L
    /\ (forall X, X ∈ L ->
          0 <= X < gSize (attached_Grid st)
          /\ vat (_sentEomTo st) X = false
          /\ vat (_sentEomTo st') X = true)
    /\ (forall X, vat (_sentEomTo st) X = true ->
                  (X ∉ L) /\ vat (_sentEomTo st') X = true).
Proof.
  intros Hp st'.
  destruct (HandleEoms_tokens Test haveEom st)
    as (L & Hnew & Hnd & HL & Hmono & _).
  exists L. split; [exact Hnew|]. split; [exact Hnd|]. split.
  - intros X HX. destruct (HL X HX) as (Hr & Hf & _ & Hset).
    split; [done|]. split; [done|]. apply Hset. unfold vsize. lia.
  - intros X HX. split; [|by apply Hmono].
    intros Hin. destruct (HL X Hin) as (_ & Hf & _). congruence.
Qed.

(** X8.  When [HandleEoms] returns, each rank of the grid either has its
    End-Of-Message marked as sent or has a data, request or reply send
    that was still in flight when the statuses were refreshed: the token
    goes out in the first call that finds the rank idle. *)
Theorem HandleEoms_sends_token_when_idle {T : Type} {ST : Scalar T}
    (Test : Request -> bool) (haveEom : option Z) (st : State T) (X : Z) :
  0 <= X < gSize (attached_Grid st) ->
  (Z.to_nat (gSize (attached_Grid st)) <= length (_sentEomTo st))%nat ->
  vat (_sentEomTo (final_state (HandleEoms Test haveEom st))) X = true
  \/ ~ no_send_in_flight X (final_state (UpdateRequestStatuses Test st)).
Proof.
  intros HX Hp.
  destruct (HandleEoms_tokens Test haveEom st)
    as (L & _ & _ & _ & _ & _ & _ & Hprog).
  apply Hprog; [done|]. unfold vsize. lia.
Qed.

(** X9.  [HandleEoms] records an End-Of-Message that has arrived: the
    rank it came from is marked, the marks of the other ranks stay as they
    are; without an arrival no mark changes. *)
Theorem HandleEoms_records_arrival {T : Type} {ST : Scalar T}
    (Test : Request -> bool) (source : Z) (st : State T) :
  0 <= source < vsize (_haveEomFrom st) ->
  let st' := final_state (HandleEoms Test (Some source) st) in
  vat (_haveEomFrom st') source = true
  /\ (forall X, X <> source ->
        vat (_haveEomFrom st') X = vat (_haveEomFrom st) X)
  /\ _haveEomFrom (final_state (HandleEoms Test None st)) = _haveEomFrom st.
Proof.
  intros Hs st'.
  destruct (HandleEoms_tokens Test (Some source) st)
    as (_ & _ & _ & _ & _ & _ & Hh & _).
  destruct (HandleEoms_tokens Test None st)
    as (_ & _ & _ & _ & _ & _ & Hn & _).
  unfold st'. rewrite Hh, Hn. split; [by apply vat_vset_eq|].
  split; [|done]. intros X HX. unfold vset. by apply vat_vupd_ne.
Qed.


(** ** UpdateRequestStatuses: what a refresh does to the flags *)

Lemma vat_vupd_eq {A} `{Inhabited A} (f : A -> A) (v : list A) (k : Z) :
  vat (vupd f v k) k
  = if decide (0 <= k < vsize v) then f (vat v k) else vat v k.
Proof.
  unfold vat, vupd, vsize. destruct (Z.leb_spec 0 k).
  - rewrite !list_lookup_total_alt, list_lookup_alter_eq. case_decide.
    + destruct (v !! Z.to_nat k) eqn:E; [done|].
      apply lookup_ge_None in E. lia.
    + destruct (v !! Z.to_nat k) eqn:E; [|done].
      apply lookup_lt_Some in E. lia.
  - case_decide; [lia|done].
Qed.

(** The loop over [j] of [UpdateRequestStatuses], slot by slot: a flag
    that is set is replaced by the negation of [mpi::Test], a flag that is
    not set is left alone. *)
Lemma update_statuses_lookup (Test : Request -> bool) (reqs : list Request)
    (sending : list bool) (j : nat) :
  update_statuses Test reqs sending !! j
  = match sending !! j with
    | Some b =>
        Some (if decide (j < length reqs)%nat
              then b && negb (Test (reqs !!! j)) else b)
    | None => None
    end.
Proof.
  unfold update_statuses. generalize (length reqs). intros n. revert j.
  induction n as [|n IH]; intros j.
  - cbn [seq foldl]. destruct (sending !! j); [|done].
    by rewrite decide_False by lia.
  - rewrite seq_S, foldl_app. cbn [foldl]. change (0 + n)%nat with n.
    revert IH. generalize (foldl
      (fun fl j0 =>
         if (fl !!! j0 : bool)
         then <[j0 := negb (Test (reqs !!! j0 : Request))]> fl else fl)
      sending (seq 0 n)).
    intros fl IH.
    assert (Hn : fl !! n = sending !! n).
    { rewrite IH. destruct (sending !! n); [|done].
      by rewrite decide_False by lia. }
    destruct (decide (j = n)) as [->|Hne].
    + rewrite (list_lookup_total_alt fl), Hn.
      destruct (sending !! n) as [b|] eqn:E; cbn [default].
      * rewrite decide_True by lia. destruct b; simpl.
        -- rewrite list_lookup_insert_eq; [done|].
           apply lookup_lt_is_Some. by rewrite Hn.
        -- by rewrite Hn.
      * rewrite list_insert_ge by (by apply lookup_ge_None).
        by destruct inhabitant.
    + assert ((if (fl !!! n : bool)
               then <[n := negb (Test (reqs !!! n : Request))]> fl
               else fl) !! j = fl !! j) as ->.
      { destruct (fl !!! n); [|done]. by rewrite list_lookup_insert_ne. }
      rewrite IH. destruct (sending !! j); [|done].
      f_equal. repeat case_decide; (done || lia).
Qed.

Lemma length_update_statuses (Test : Request -> bool) (reqs : list Request)
    (sending : list bool) :
  length (update_statuses Test reqs sending) = length sending.
Proof.
  unfold update_statuses. generalize (seq 0 (length reqs)). intros l.
  revert sending. induction l as [|j l IH]; intros sending; [done|].
  simpl. rewrite IH. destruct (sending !!! j); [|done]. apply length_insert.
Qed.

Section UpdateRequestStatuses_properties.

Context {T : Type} {ST : Scalar T}.
Variable Test : Request -> bool.
Implicit Types (st s : State T) (X i : Z) (k : Kind).

Lemma UpdateRequestStatuses_peer_Sending k i st X :
  vat (Sending k (UpdateRequestStatuses_peer Test i st)) X
  = if decide (X = i)
    then update_statuses Test (vat (SendRequests k st) X)
           (vat (Sending k st) X)
    else vat (Sending k st) X.
Proof.
  assert (Hgen : forall (v : list (list bool)) (reqs : list Request),
             vat (vupd (update_statuses Test reqs) v i) X
             = if decide (X = i)
               then update_statuses Test reqs (vat v X)
               else vat v X).
  { intros v reqs. case_decide as E.
    - subst X. rewrite vat_vupd_eq. case_decide as Hin; [done|].
      assert (vat v i = []) as ->.
      { unfold vat, vsize in *. destruct (Z.leb_spec 0 i); [|done].
        rewrite list_lookup_total_alt.
        rewrite (proj2 (lookup_ge_None _ _)); [done|lia]. }
      symmetry. apply nil_length_inv. by rewrite length_update_statuses.
    - by apply vat_vupd_ne. }
  destruct k; simpl; rewrite Hgen; case_decide; subst; done.
Qed.

Lemma UpdateRequestStatuses_peer_rest k i st :
  Vectors k (UpdateRequestStatuses_peer Test i st) = Vectors k st
  /\ SendRequests k (UpdateRequestStatuses_peer Test i st)
     = SendRequests k st
  /\ rest_of_State (UpdateRequestStatuses_peer Test i st) = rest_of_State st
  /\ mpi_sent (UpdateRequestStatuses_peer Test i st) = mpi_sent st
  /\ length <$> Sending k (UpdateRequestStatuses_peer Test i st)
     = length <$> Sending k st.
Proof.
  destruct k; simpl; repeat (split; [done|]);
    apply shape_vupd; intros row; apply length_update_statuses.
Qed.

(** The refresh of the peers [l]. *)
Lemma UpdateRequestStatuses_peers (l : list Z) :
  NoDup l ->
  forall st,
    let st' := foldl (fun s i => UpdateRequestStatuses_peer Test i s) st l in
    forall k,
      Vectors k st' = Vectors k st
      /\ SendRequests k st' = SendRequests k st
      /\ rest_of_State st' = rest_of_State st
      /\ mpi_sent st' = mpi_sent st
      /\ length <$> Sending k st' = length <$> Sending k st
      /\ forall X,
           vat (Sending k st') X
           = if decide (X ∈ l)
             then update_statuses Test (vat (SendRequests k st) X)
                    (vat (Sending k st) X)
             else vat (Sending k st) X.
Proof.
  induction l as [|i l IH]; intros Hnd st; cbn [foldl]; intros k.
  - repeat (split; [done|]). intros X.
    by rewrite decide_False by apply not_elem_of_nil.
  - apply NoDup_cons in Hnd as [Hi Hnd].
    destruct (IH Hnd (UpdateRequestStatuses_peer Test i st) k)
      as (H1 & H2 & H3 & H4 & H5 & H6).
    destruct (UpdateRequestStatuses_peer_rest k i st)
      as (E1 & E2 & E3 & E4 & E5).
    rewrite H1, H2, H3, H4, H5. repeat (split; [done|]).
    intros X. rewrite H6, E2, UpdateRequestStatuses_peer_Sending.
    destruct (decide (X = i)) as [->|Hne].
    + rewrite decide_False by done. by rewrite decide_True by (by left).
    + destruct (decide (X ∈ l)) as [Hin|Hnin].
      * by rewrite decide_True by (by right).
      * rewrite decide_False; [done|].
        intros H. apply elem_of_cons in H as [?|?]; done.
Qed.

End UpdateRequestStatuses_properties.


(** X10.  [UpdateRequestStatuses] returns and changes nothing but flags of
    [_sendingData], [_sendingRequest] and [_sendingReply]; it changes no
    length; and it only clears: the flag of slot [j] of a rank [X] of the
    grid, if it is set and the slot has a request, becomes the negation of
    what [mpi::Test] says about that request, and every other flag stays
    as it is, so that a flag that is not set is never set. *)
Theorem UpdateRequestStatuses_only_clears {T : Type} {ST : Scalar T}
    (Test : Request -> bool) (st : State T) :
  exists st',
    UpdateRequestStatuses Test st = Returned tt st'
    /\ rest_of_State st' = rest_of_State st
    /\ mpi_sent st' = mpi_sent st
    /\ forall k : Kind,
         Vectors k st' = Vectors k st
         /\ SendRequests k st' = SendRequests k st
         /\ length <$> Sending k st' = length <$> Sending k st
         /\ forall (X : Z) (j : nat),
              vat (Sending k st') X !! j
              = match vat (Sending k st) X !! j with
                | Some b =>
                    Some (if decide (0 <= X < gSize (attached_Grid st)
                                     /\ (j < length
                                               (vat (SendRequests k st) X))%nat)
                          then b && negb (Test
                                            (vat (SendRequests k st) X !!! j))
                          else b)
                | None => None
                end.
Proof.
  unfold UpdateRequestStatuses.
  erewrite for_each_returns by (intros; reflexivity).
  eexists. split; [reflexivity|].
  pose proof (UpdateRequestStatuses_peers Test
                (upto (gSize (attached_Grid st)))
                (NoDup_upto _) st) as H. cbv zeta in H.
  split; [apply (H Data)|]. split; [apply (H Data)|].
  intros k. destruct (H k) as (H1 & H2 & _ & _ & H5 & H6).
  split; [done|]. split; [done|]. split; [done|].
  intros X j. rewrite H6.
  destruct (decide (X ∈ upto (gSize (attached_Grid st)))) as [Hin|Hnin].
  - apply elem_of_upto in Hin. rewrite update_statuses_lookup.
    destruct (vat (Sending k st) X !! j); [|done]. f_equal.
    repeat case_decide; (done || tauto).
  - rewrite elem_of_upto in Hnin.
    destruct (vat (Sending k st) X !! j); [|done]. f_equal.
    rewrite decide_False; [done|tauto].
Qed.

(** ** ReadyForSend: which slot, and what it leaves alone *)

Section ReadyForSend_more.

Context {T : Type} {ST : Scalar T}.
Variable Test : Request -> bool.
Variable sendSize : Z.
Hypothesis sendSize_nonneg : 0 <= sendSize.

(** The scan stops at the first slot that is not in flight. *)
Lemma ReadyForSend_scan_first (ch : Channel T) (slots : list nat) :
  (forall i, i ∈ slots -> (i < length (requestStatuses ch))%nat) ->
  (exists l1 i l2,
      slots = l1 ++ i :: l2
      /\ (forall k, k ∈ l1 -> in_flight Test ch k)
      /\ ~ in_flight Test ch i
      /\ ReadyForSend_scan Test sendSize slots ch
         = Returned (Some (Z.of_nat i)) (claim sendSize ch i))
  \/ ((forall i, i ∈ slots -> in_flight Test ch i)
      /\ ReadyForSend_scan Test sendSize slots ch = Returned None ch).
Proof.
  induction slots as [|i slots IH]; intros Hlt.
  - right. split; [|done]. intros i Hi. by apply elem_of_nil in Hi.
  - simpl. unfold bind.
    destruct (in_flight_dec Test ch i) as [Hb|Hf].
    + rewrite (ReadyForSend_slot_busy _ _ _ _ Hb).
      destruct IH as [(l1 & k & l2 & -> & Hl1 & Hfree & Heq)|[Hall Heq]].
      * intros k Hk. apply Hlt. by right.
      * left. exists (i :: l1), k, l2. split; [done|].
        split; [|by split].
        intros k' Hk'. apply elem_of_cons in Hk' as [->|Hk']; auto.
      * right. split; [|done]. intros k Hk.
        apply elem_of_cons in Hk as [->|Hk]; auto.
    + left. exists [], i, slots. split; [done|].
      split; [intros k Hk; by apply elem_of_nil in Hk|]. split; [done|].
      rewrite ReadyForSend_slot_free; [done|done| |done].
      apply Hlt. by left.
Qed.

End ReadyForSend_more.

(** X11.  When [ReadyForSend] returns, on vectors of one length, the slot
    it returns is the first one whose send is not in flight, or the new
    slot if there is none; every other slot that there was has its buffer,
    its request and its status as before, so that a buffer whose send is in
    flight is neither resized nor handed out; and the request of the slot
    returned is not touched either. *)
Theorem ReadyForSend_takes_first_free_slot {T : Type} {ST : Scalar T}
    (RELEASE : bool) (Test : Request -> bool) (sendSize : Z)
    (ch ch' : Channel T) (idx : Z) :
  aligned ch ->
  ReadyForSend RELEASE Test sendSize ch = Returned idx ch' ->
  0 <= idx <= vsize (sendVectors ch)
  /\ (forall k, (k < Z.to_nat idx)%nat -> in_flight Test ch k)
  /\ (idx < vsize (sendVectors ch) -> ~ in_flight Test ch (Z.to_nat idx))
  /\ (forall k, k <> Z.to_nat idx ->
        (k < length (sendVectors ch))%nat ->
        sendVectors ch' !! k = sendVectors ch !! k
        /\ requests ch' !! k = requests ch !! k
        /\ requestStatuses ch' !! k = requestStatuses ch !! k)
  /\ (idx < vsize (sendVectors ch) ->
      requests ch' !! Z.to_nat idx = requests ch !! Z.to_nat idx).
Proof.
  intros Hal Hret.
  destruct (Z.ltb_spec sendSize 0) as [Hneg|Hsize].
  { destruct (ReadyForSend_negative RELEASE Test sendSize ch Hal Hneg)
      as [ch0 E]. congruence. }
  destruct Hal as [Hreq Hst]. revert Hret. unfold ReadyForSend.
  rewrite Hreq, Hst, Nat.eqb_refl. simpl. rewrite andb_false_r.
  unfold bind.
  destruct (ReadyForSend_scan_first Test sendSize Hsize ch
              (seq 0 (length (sendVectors ch))))
    as [(l1 & i & l2 & Hsplit & Hl1 & Hfree & ->)|[Hall ->]].
  - intros i Hi. apply elem_of_seq in Hi. lia.
  - unfold ret. intros [= <- <-].
    assert (Hi : length l1 = i /\ (i < length (sendVectors ch))%nat).
    { assert (seq 0 (length (sendVectors ch)) !! length l1 = Some i) as E
        by (rewrite Hsplit; apply list_lookup_middle; done).
      apply lookup_seq in E. lia. }
    destruct Hi as [Hlen Hi]. unfold vsize. rewrite Nat2Z.id.
    split; [lia|]. split.
    { intros k Hk. apply Hl1. apply list_elem_of_lookup. exists k.
      assert (seq 0 (length (sendVectors ch)) !! k = Some k) as E
        by (apply lookup_seq; lia).
      rewrite Hsplit, lookup_app_l in E by lia. exact E. }
    split; [done|]. simpl. split; [|done].
    intros k Hk _. by rewrite !list_lookup_insert_ne by done.
  - unfold ReadyForSend_append, buf_resize.
    destruct (Z.ltb_spec sendSize 0); [lia|].
    intros [= <- <-]. unfold vsize. rewrite Nat2Z.id. simpl.
    split; [lia|]. split.
    { intros k Hk. apply Hall, elem_of_seq. lia. }
    split; [lia|]. split; [|lia].
    intros k Hk Hlt. unfold vresize.
    rewrite list_lookup_insert_ne by done.
    rewrite !take_ge by lia.
    rewrite !lookup_app_l by lia. done.
Qed.


(** ** The buffer pools stay aligned *)

Section pools_invariant.

Context {T : Type} {ST : Scalar T}.
Variable Shift : Z -> Z -> Z -> Z.
Variable LocalLength : Z -> Z -> Z -> Z.
Variable RELEASE : bool.
Implicit Types (st : State T) (Test : Request -> bool) (k : Kind).

(** The pools are aligned if they have the shapes of aligned pools. *)
Lemma pools_aligned_shape st st' :
  (forall k, length <$> Vectors k st' = length <$> Vectors k st
             /\ length <$> SendRequests k st' = length <$> SendRequests k st
             /\ length <$> Sending k st' = length <$> Sending k st) ->
  pools_aligned st -> pools_aligned st'.
Proof.
  intros H Hal k. destruct (H k) as (-> & -> & ->). apply Hal.
Qed.

Lemma pools_aligned_post Test k peer bufferSize body tag st st' :
  pools_aligned st ->
  post RELEASE Test k peer bufferSize body tag st = Returned tt st' ->
  pools_aligned st'.
Proof.
  intros Hal Hret. destruct (Z.ltb_spec bufferSize 0) as [Hneg|Hsize].
  - destruct (ReadyForSend_negative RELEASE Test bufferSize
                (get_Channel k peer st) (pools_aligned_get k peer st Hal)
                Hneg) as [ch' E].
    unfold post, bind, on_Channel in Hret. by rewrite E in Hret.
  - destruct (post_returns RELEASE Test k peer bufferSize body tag st Hal
                Hsize) as (st'' & E & Hal'' & _).
    rewrite E in Hret. by injection Hret as <-.
Qed.

Lemma pools_aligned_AxpyLocalToGlobal_loop Test header X r c ca ra steps :
  forall row col st st',
    pools_aligned st ->
    AxpyLocalToGlobal_loop Shift LocalLength RELEASE Test header X r c ca ra
      steps row col st = Returned tt st' ->
    pools_aligned st'.
Proof.
  induction steps as [|steps IH]; intros row col st st' Hal; simpl.
  - unfold ret. by intros [= <-].
  - unfold bind. rewrite AxpyLocalToGlobal_slot_post.
    destruct (slot_owns _ _ _ _ _ _ _ _).
    + destruct (post _ _ _ _ _ _ _ st) as [[] s1|e s1|s1] eqn:E; [|done..].
      apply IH. by eapply pools_aligned_post.
    + by apply IH.
Qed.

Lemma pools_aligned_HandleGlobalToLocalRequest Test haveRequest st st' :
  pools_aligned st ->
  HandleGlobalToLocalRequest Shift LocalLength RELEASE Test haveRequest st
  = Returned tt st' ->
  pools_aligned st'.
Proof.
  intros Hal. unfold HandleGlobalToLocalRequest.
  destruct haveRequest as [a|]; [|by intros [= <-]].
  apply pools_aligned_post. intros k. destruct (Hal k). by destruct k.
Qed.

Lemma pools_aligned_HandleLocalToGlobalData haveData st :
  pools_aligned st ->
  pools_aligned
    (final_state
       (HandleLocalToGlobalData Shift LocalLength RELEASE haveData st)).
Proof.
  intros Hal. apply (pools_aligned_shape st); [|done].
  unfold HandleLocalToGlobalData. destruct haveData as [a|]; [|done].
  repeat (destruct (negb RELEASE && _); [by intros []|]). by intros [].
Qed.

Lemma pools_aligned_UpdateRequestStatuses Test st :
  pools_aligned st ->
  pools_aligned (final_state (UpdateRequestStatuses Test st)).
Proof.
  intros Hal. apply (pools_aligned_shape st); [|done].
  unfold UpdateRequestStatuses.
  erewrite for_each_returns by (intros; reflexivity). simpl.
  intros k.
  destruct (UpdateRequestStatuses_peers Test
              (upto (gSize (attached_Grid st))) (NoDup_upto _) st k)
    as (-> & -> & _ & _ & -> & _). done.
Qed.

Lemma HandleEoms_peer_pools i st k :
  Vectors k (final_state (HandleEoms_peer i st)) = Vectors k st
  /\ SendRequests k (final_state (HandleEoms_peer i st)) = SendRequests k st
  /\ Sending k (final_state (HandleEoms_peer i st)) = Sending k st.
Proof.
  unfold HandleEoms_peer. destruct (negb _); [|done].
  destruct (shouldSendEom i st); [|done]. by destruct k.
Qed.

Lemma pools_aligned_HandleEoms Test haveEom st :
  pools_aligned st ->
  pools_aligned (final_state (HandleEoms Test haveEom st)).
Proof.
  intros Hal. rewrite HandleEoms_unfold. unfold HandleEoms_at.
  apply (pools_aligned_shape
           (foldl (fun s i => final_state (HandleEoms_peer i s))
              (final_state (UpdateRequestStatuses Test st))
              (take (length (upto (gSize (attached_Grid st))))
                 (upto (gSize (attached_Grid st)))))).
  { destruct haveEom; by intros []. }
  apply (foldl_invariant pools_aligned).
  - by apply pools_aligned_UpdateRequestStatuses.
  - intros s0 i H. apply (pools_aligned_shape s0); [|done].
    intros k. by destruct (HandleEoms_peer_pools i s0 k) as (-> & -> & ->).
Qed.

Lemma pools_aligned_for_each {I} (body : I -> M (State T) unit)
    (l : list I) :
  (forall i s s', pools_aligned s -> body i s = Returned tt s' ->
                  pools_aligned s') ->
  forall st st',
    pools_aligned st -> for_each l body st = Returned tt st' ->
    pools_aligned st'.
Proof.
  intros Hbody. induction l as [|i l IH]; intros st st' Hal; simpl.
  - unfold ret. by intros [= <-].
  - unfold bind. destruct (body i st) as [[] s1|e s1|s1] eqn:E; [|done..].
    apply IH. by eapply Hbody.
Qed.

Lemma pools_aligned_AxpyGlobalToLocal_wait alpha X i j height width p ticks :
  forall numReplies (sy sy' : State T * Matrix T),
    pools_aligned (fst sy) ->
    AxpyGlobalToLocal_wait Shift LocalLength RELEASE alpha X i j height width
      p ticks numReplies sy = Returned tt sy' ->
    pools_aligned (fst sy').
Proof.
  induction ticks as [|tk ticks IH]; intros numReplies sy sy' Hal; simpl.
  - destruct (numReplies <? p); [done|]. by intros [= <-].
  - destruct (numReplies <? p); [|by intros [= <-]].
    unfold bind, on_State.
    destruct (HandleGlobalToLocalRequest _ _ _ _ _ (fst sy))
      as [[] s1|e s1|s1] eqn:E; [|done..].
    apply pools_aligned_HandleGlobalToLocalRequest in E; [|done].
    destruct (tk_reply tk) as [a|]; simpl; apply IH; simpl; [|done].
    intros k. destruct (E k). by destruct k.
Qed.

End pools_invariant.

(** X12.  The three vectors of vectors of every buffer pool keep one
    shape: each operation that works on an attached object with aligned
    pools and returns leaves the pools aligned. *)
Theorem pools_stay_aligned {T : Type} {ST : Scalar T}
    (Shift LocalLength : Z -> Z -> Z -> Z) (RELEASE : bool) (st : State T) :
  pools_aligned st ->
  (forall Test alpha X i j st',
      AxpyLocalToGlobal Shift LocalLength RELEASE Test alpha X i j st
      = Returned tt st' -> pools_aligned st')
  /\ (forall Test ticks alpha i j Y sy',
         AxpyGlobalToLocal Shift LocalLength RELEASE Test ticks alpha i j
           (st, Y) = Returned tt sy' -> pools_aligned (fst sy'))
  /\ (forall Test haveRequest st',
         HandleGlobalToLocalRequest Shift LocalLength RELEASE Test
           haveRequest st = Returned tt st' -> pools_aligned st')
  /\ (forall haveData,
         pools_aligned
           (final_state
              (HandleLocalToGlobalData Shift LocalLength RELEASE haveData st)))
  /\ (forall Test,
         pools_aligned (final_state (UpdateRequestStatuses Test st)))
  /\ (forall Test haveEom,
         pools_aligned (final_state (HandleEoms Test haveEom st))).
Proof.
  intros Hal. split.
  { intros Test alpha X i j st'. unfold AxpyLocalToGlobal.
    destruct (_ || _); [done|]. destruct (_ || _); [done|].
    by apply pools_aligned_AxpyLocalToGlobal_loop. }
  split.
  { intros Test ticks alpha i j Y sy'. unfold AxpyGlobalToLocal. simpl.
    destruct (_ || _); [done|]. unfold bind, on_State. simpl.
    destruct (for_each _ _ st) as [[] s1|e s1|s1] eqn:E; [|done..].
    apply pools_aligned_AxpyGlobalToLocal_wait. simpl.
    revert E. apply pools_aligned_for_each; [|done].
    intros rank s s' Hs. apply pools_aligned_post. exact Hs. }
  split; [intros; by eapply pools_aligned_HandleGlobalToLocalRequest|].
  split; [intros; by apply pools_aligned_HandleLocalToGlobalData|].
  split; [intros; by apply pools_aligned_UpdateRequestStatuses|].
  intros; by apply pools_aligned_HandleEoms.
Qed.


(** ** A send is marked as being in flight *)

Section marks.

Context {T : Type} {ST : Scalar T}.
Variable RELEASE : bool.
Implicit Types (st : State T) (Test : Request -> bool) (k : Kind).

Lemma ReadyForSend_slot_facts Test sendSize (ch : Channel T) :
  aligned ch -> 0 <= sendSize ->
  exists idx ch',
    ReadyForSend RELEASE Test sendSize ch = Returned idx ch'
    /\ aligned ch'
    /\ 0 <= idx < vsize (sendVectors ch')
    /\ buf_size (vat (sendVectors ch') idx) = sendSize
    /\ vat (requestStatuses ch') idx = true.
Proof.
  intros Hal Hsize.
  destruct (ReadyForSend_cases RELEASE Test sendSize ch Hal Hsize)
    as [(i & Hi & _ & ->)|[_ ->]]; destruct Hal as [Hreq Hst].
  - eexists _, _. split; [done|]. split; [by apply aligned_claim|].
    unfold vsize. simpl.
    rewrite !length_insert, !vat_of_nat.
    rewrite !list_lookup_total_alt, !list_lookup_insert_eq by lia.
    simpl. split; [lia|done].
  - eexists _, _. split; [done|]. split; [by apply aligned_append_slot|].
    unfold vsize. simpl. rewrite !length_app, !vat_of_nat. simpl.
    rewrite !list_lookup_total_alt, !lookup_app_r by lia.
    rewrite Hst, Nat.sub_diag. simpl. split; [lia|done].
Qed.

Lemma post_unfold Test k peer bufferSize body tag st :
  post RELEASE Test k peer bufferSize body tag st
  = match ReadyForSend RELEASE Test bufferSize (get_Channel k peer st) with
    | Returned index ch' =>
        Returned tt (post_state k peer index bufferSize body tag ch' st)
    | Thrown e ch' => Thrown e (put_Channel k peer ch' st)
    | Spinning ch' => Spinning (put_Channel k peer ch' st)
    end.
Proof.
  unfold post, bind, on_Channel.
  destruct (ReadyForSend RELEASE Test bufferSize (get_Channel k peer st));
    [by destruct k|done|done].
Qed.

Lemma vat_vset_same {A} `{Inhabited A} (v : list A) (i : Z) (x : A) :
  0 <= i < vsize v -> vat (vset v i x) i = x.
Proof.
  intros Hi. unfold vset. rewrite vat_vupd_eq. by rewrite decide_True.
Qed.

Lemma vsize_shape {A B} (v : list (list A)) (w : list (list B)) :
  length <$> v = length <$> w -> vsize v = vsize w.
Proof.
  intros H. unfold vsize. apply (f_equal length) in H.
  rewrite !length_fmap in H. lia.
Qed.

(** After the sending sequence for a peer that has a pool: a slot of the
    pool is marked as in flight, holds the message and has the request of
    the send; the flags of the other peers and kinds are as before. *)
Lemma post_slot Test k peer bufferSize body tag st :
  pools_aligned st ->
  0 <= bufferSize ->
  0 <= peer < vsize (Vectors k st) ->
  exists st' index,
    post RELEASE Test k peer bufferSize body tag st = Returned tt st'
    /\ 0 <= index < vsize (vat (Sending k st') peer)
    /\ vat (vat (Sending k st') peer) index = true
    /\ vat (vat (Vectors k st') peer) index
       = {| buf_size := bufferSize; buf_content := body |}
    /\ vat (vat (SendRequests k st') peer) index = mpi_next st
    /\ (forall peer', peer' <> peer ->
          vat (Sending k st') peer' = vat (Sending k st) peer')
    /\ (forall k', k' <> k -> Sending k' st' = Sending k' st).
Proof.
  intros Hal Hsize Hpeer.
  destruct (ReadyForSend_slot_facts Test bufferSize (get_Channel k peer st)
              (pools_aligned_get k peer st Hal) Hsize)
    as (idx & ch' & Heq & [Hreq Hst] & Hidx & Hbuf & Hflag).
  destruct (Hal k) as [Hshape1 Hshape2].
  apply vsize_shape in Hshape1, Hshape2.
  rewrite (post_unfold Test k peer bufferSize body tag st), Heq.
  exists (post_state k peer idx bufferSize body tag ch' st), idx.
  split; [reflexivity|].
  assert (HS : Sending k (post_state k peer idx bufferSize body tag ch' st)
               = vset (Sending k st) peer (requestStatuses ch'))
    by by destruct k.
  assert (HV : Vectors k (post_state k peer idx bufferSize body tag ch' st)
               = vupd (fun row => vupd (buf_pack body) row idx)
                   (vset (Vectors k st) peer (sendVectors ch')) peer)
    by by destruct k.
  assert (HR : SendRequests k
                 (post_state k peer idx bufferSize body tag ch' st)
               = vupd (fun row => vset row idx (mpi_next st))
                   (vset (SendRequests k st) peer (requests ch')) peer)
    by by destruct k.
  rewrite HS, HV, HR.
  assert (E1 : vat (vset (Sending k st) peer (requestStatuses ch')) peer
               = requestStatuses ch') by (apply vat_vset_same; lia).
  assert (E2 : vat (vupd (fun row => vupd (buf_pack body) row idx)
                      (vset (Vectors k st) peer (sendVectors ch')) peer) peer
               = vupd (buf_pack body) (sendVectors ch') idx).
  { rewrite vat_vupd_eq, vsize_vset, decide_True by lia.
    by rewrite vat_vset_same by lia. }
  assert (E3 : vat (vupd (fun row => vset row idx (mpi_next st))
                      (vset (SendRequests k st) peer (requests ch')) peer)
                 peer
               = vset (requests ch') idx (mpi_next st)).
  { rewrite vat_vupd_eq, vsize_vset, decide_True by lia.
    by rewrite vat_vset_same by lia. }
  rewrite E1, E2, E3.
  split; [unfold vsize in *; lia|]. split; [done|].
  split.
  { rewrite vat_vupd_eq, decide_True by done.
    unfold buf_pack. by rewrite Hbuf. }
  split; [apply vat_vset_same; unfold vsize in *; lia|].
  split.
  - intros peer' Hne. unfold vset. by apply vat_vupd_ne.
  - intros k' Hne. destruct k, k'; done.
Qed.

(** A flag that is set among the flags of a peer. *)
Lemma flag_set_not_idle k X st :
  true ∈ vat (Sending k st) X -> ~ no_send_in_flight X st.
Proof.
  intros Hin (Hd & Hq & Hp).
  assert (Forall (fun f => f = false) (vat (Sending k st) X)) as Hall
    by by destruct k.
  rewrite Forall_forall in Hall. by specialize (Hall true Hin).
Qed.

Lemma vat_elem_of (v : list bool) (index : Z) :
  0 <= index < vsize v -> vat v index ∈ v.
Proof.
  intros H. unfold vat, vsize in *. destruct (Z.leb_spec 0 index); [|lia].
  apply list_elem_of_lookup_total_2. lia.
Qed.

(** As long as [mpi::Test] reports nothing complete, a flag that is set
    survives the refresh, and [HandleEoms] sends no End-Of-Message to the
    peer. *)
Lemma HandleEoms_withholds Test haveEom k X st :
  (forall request, Test request = false) ->
  true ∈ vat (Sending k st) X ->
  eom_token X ∉ new_sends st (final_state (HandleEoms Test haveEom st)).
Proof.
  intros Hnever Hflag.
  assert (Hkeep : true ∈ vat (Sending k
                                (final_state (UpdateRequestStatuses Test st)))
                           X).
  { apply list_elem_of_lookup in Hflag as [j Hj].
    apply list_elem_of_lookup. exists j.
    unfold UpdateRequestStatuses.
    erewrite for_each_returns by (intros; reflexivity). simpl.
    destruct (UpdateRequestStatuses_peers Test
                (upto (gSize (attached_Grid st))) (NoDup_upto _) st k)
      as (_ & _ & _ & _ & _ & ->).
    case_decide; [|done].
    rewrite update_statuses_lookup, Hj, Hnever. simpl.
    by case_decide. }
  destruct (HandleEoms_tokens Test haveEom st) as (L & -> & _ & HL & _).
  intros Hin. apply list_elem_of_fmap in Hin as (X' & E & HX').
  injection E as <-. destruct (HL X HX') as (_ & _ & Hidle & _).
  by apply (flag_set_not_idle k X _ Hkeep).
Qed.

End marks.


Section marks_of_operations.

Context {T : Type} {ST : Scalar T}.
Variable Shift : Z -> Z -> Z -> Z.
Variable LocalLength : Z -> Z -> Z -> Z.
Variable RELEASE : bool.
Variable Test : Request -> bool.
Implicit Types (st : State T) (k : Kind).

Lemma post_keeps_peers k peer bufferSize body tag st st' :
  post RELEASE Test k peer bufferSize body tag st = Returned tt st' ->
  vsize (Vectors k st') = vsize (Vectors k st).
Proof.
  rewrite post_unfold.
  destruct (ReadyForSend _ _ _ _) as [index ch'|e ch'|ch']; [|done..].
  intros [= <-]. unfold vsize.
  destruct k; simpl; unfold vset; by rewrite !length_vupd.
Qed.

(** What the loop of [AxpyLocalToGlobal] leaves in the flags of the data
    pool: a flag for every slot that it has sent to. *)
Lemma AxpyLocalToGlobal_loop_marks header X r c ca ra (steps : nat) :
  (forall slot,
      0 <= snd_count
             (slot_message Shift LocalLength header X r c ca ra slot)) ->
  forall (row col : Z) st,
    pools_aligned st ->
    (forall slot, slot ∈ visits r c steps row col ->
                  0 <= rank_of_slot r slot < vsize (Vectors Data st)) ->
    exists st',
      AxpyLocalToGlobal_loop Shift LocalLength RELEASE Test header X r c ca ra
        steps row col st = Returned tt st'
      /\ (forall X0, true ∈ vat (Sending Data st) X0 ->
                     true ∈ vat (Sending Data st') X0)
      /\ (forall slot,
            slot ∈ visits r c steps row col ->
            slot_owns Shift LocalLength header r c ca ra slot = true ->
            true ∈ vat (Sending Data st') (rank_of_slot r slot)).
Proof.
  intros Hsize. induction steps as [|steps IH]; intros row col st Hal Hin.
  - exists st. split; [done|]. split; [done|].
    intros slot H. by apply elem_of_nil in H.
  - simpl. unfold bind. rewrite AxpyLocalToGlobal_slot_post.
    destruct (slot_owns _ _ _ _ _ _ _ (row, col)) eqn:Hown.
    + destruct (post_slot RELEASE Test Data
                  (snd_dest (slot_message Shift LocalLength header X r c ca ra
                               (row, col)))
                  (snd_count (slot_message Shift LocalLength header X r c ca
                                ra (row, col)))
                  (snd_body (slot_message Shift LocalLength header X r c ca ra
                               (row, col)))
                  DATA_TAG st Hal (Hsize (row, col)))
        as (s1 & index & Heq & Hidx & Hflag & _ & _ & Hothers & _).
      { apply (Hin (row, col)). by left. }
      rewrite Heq.
      assert (Hal1 : pools_aligned s1) by (by eapply pools_aligned_post).
      assert (Hmark : true ∈ vat (Sending Data s1)
                               (rank_of_slot r (row, col))).
      { rewrite <- Hflag. by apply vat_elem_of. }
      assert (Hkeep : forall X0, true ∈ vat (Sending Data st) X0 ->
                                 true ∈ vat (Sending Data s1) X0).
      { intros X0 H0.
        destruct (decide (X0 = rank_of_slot r (row, col))) as [->|Hne];
          [done|]. by rewrite (Hothers X0 Hne). }
      destruct (IH (next_receivingRow r row) (next_receivingCol r c row col)
                  s1 Hal1) as (st' & -> & Hk & Hm).
      { intros slot Hs. rewrite (post_keeps_peers _ _ _ _ _ _ _ Heq).
        apply Hin. by right. }
      exists st'. split; [done|]. split; [intros X0 H0; by apply Hk, Hkeep|].
      intros slot Hs Ho. apply elem_of_cons in Hs as [->|Hs].
      * by apply Hk.
      * by apply Hm.
    + destruct (IH (next_receivingRow r row) (next_receivingCol r c row col)
                  st Hal) as (st' & -> & Hk & Hm).
      { intros slot Hs. apply Hin. by right. }
      exists st'. split; [done|]. split; [done|].
      intros slot Hs Ho. apply elem_of_cons in Hs as [->|Hs]; [congruence|].
      by apply Hm.
Qed.

End marks_of_operations.

Lemma visits_in_grid (r c : Z) (row0 col0 : Z) (steps : nat) (slot : Z * Z) :
  0 < r -> 0 < c -> 0 <= row0 < r -> 0 <= col0 < c ->
  slot ∈ visits r c steps row0 col0 ->
  0 <= rank_of_slot r slot < r * c.
Proof.
  intros Hr Hc Hrow Hcol. rewrite visits_ranks by done.
  intros Hin. apply list_elem_of_fmap in Hin as (k & -> & _).
  rewrite rank_of_slot_of_rank by lia. apply Z.mod_pos_bound. nia.
Qed.

(** X13.  A put marks its sends: after an in-bounds [AxpyLocalToGlobal] on
    an r x c grid, every slot of the grid that owns an entry of the region
    has a flag set in [_sendingData]; and as long as [mpi::Test] reports no
    send complete, [HandleEoms] sends no End-Of-Message to that slot.  The
    sums of the bounds test, and the size in bytes of the message for each
    slot of the grid, are taken to be in the range of [int], in which the
    code computes and stores them. *)
Theorem AxpyLocalToGlobal_postpones_eom
    {T : Type} {ST : Scalar T} (Shift LocalLength : Z -> Z -> Z -> Z)
    (RELEASE : bool) (Test : Request -> bool) (alpha : T) (X : Matrix T)
    (i j : Z) (st : State T) (Y : DistMatrix T) (r c myRow myCol : Z) :
  _localToGlobalMat st = Some Y ->
  dGrid Y = {| gHeight := r; gWidth := c; MCRank := myRow; MRRank := myCol |} ->
  0 < r -> 0 < c -> 0 <= myRow < r -> 0 <= myCol < c ->
  pools_aligned st ->
  r * c <= vsize (_dataVectors st) ->
  (forall n shift,
      0 <= LocalLength n shift r /\ 0 <= LocalLength n shift c) ->
  0 <= i -> 0 <= j ->
  i + mHeight X <= dHeight Y -> j + mWidth X <= dWidth Y ->
  fits_int (i + mHeight X) -> fits_int (j + mWidth X) ->
  (forall row col,
      0 <= row < r -> 0 <= col < c ->
      fits_int
        (Z.pos sizeof_LocalToGlobalHeader
         + LocalLength (mHeight X)
             (Shift row (Z.rem (ColAlignment Y + i) r) r) r
           * LocalLength (mWidth X)
               (Shift col (Z.rem (RowAlignment Y + j) c) c) c
           * Z.pos sizeof_T)) ->
  exists st',
    AxpyLocalToGlobal Shift LocalLength RELEASE Test alpha X i j st
    = Returned tt st'
    /\ forall row col,
         0 <= row < r -> 0 <= col < c ->
         LocalLength (mHeight X)
           (Shift row (Z.rem (ColAlignment Y + i) r) r) r
         * LocalLength (mWidth X)
             (Shift col (Z.rem (RowAlignment Y + j) c) c) c <> 0 ->
         true ∈ vat (_sendingData st') (row + r * col)
         /\ ~ no_send_in_flight (row + r * col) st'
         /\ forall Test' haveEom,
              (forall request, Test' request = false) ->
              eom_token (row + r * col)
                ∉ new_sends st' (final_state (HandleEoms Test' haveEom st')).
Proof.
  intros HY Hg Hr Hc Hrow Hcol Hal Hpools Hlen Hi Hj Hh Hw _ _ _.
  unfold AxpyLocalToGlobal. rewrite HY. simpl. rewrite Hg. simpl.
  destruct (Z.ltb_spec i 0); [lia|]. destruct (Z.ltb_spec j 0); [lia|].
  simpl.
  destruct (Z.gtb_spec (i + mHeight X) (dHeight Y)); [lia|].
  destruct (Z.gtb_spec (j + mWidth X) (dWidth Y)); [lia|]. simpl.
  unfold gSize. simpl.
  set (header := {| lg_i := i; lg_j := j; lg_height := mHeight X;
                    lg_width := mWidth X; lg_alpha := alpha |}).
  destruct (AxpyLocalToGlobal_loop_marks Shift LocalLength RELEASE Test
              header X r c (Z.rem (ColAlignment Y + i) r)
              (Z.rem (RowAlignment Y + j) c) (Z.to_nat (r * c)))
    with (row := myRow) (col := myCol) (st := st)
    as (st' & Heq & _ & Hmark); [|done| |].
  { intros slot. simpl.
    destruct (Hlen (mHeight X)
                (Shift (fst slot) (Z.rem (ColAlignment Y + i) r) r)) as [? _].
    destruct (Hlen (mWidth X)
                (Shift (snd slot) (Z.rem (RowAlignment Y + j) c) c)) as [_ ?].
    nia. }
  { intros slot Hs.
    pose proof (visits_in_grid r c myRow myCol _ slot Hr Hc Hrow Hcol Hs).
    simpl. lia. }
  exists st'. split; [exact Heq|].
  intros row col Hrow' Hcol' Hown.
  destruct (visits_all r c Hr Hc myRow myCol Hrow Hcol) as (_ & Hall & _).
  assert (Hflag : true ∈ vat (_sendingData st') (row + r * col)).
  { apply (Hmark (row, col)); [by apply Hall|].
    unfold slot_owns, slot_numEntries. simpl.
    by apply negb_true_iff, Z.eqb_neq. }
  split; [exact Hflag|].
  split; [by apply (flag_set_not_idle Data)|].
  intros Test' haveEom Hnever.
  by apply (HandleEoms_withholds Test' haveEom Data).
Qed.

(** X14.  Servicing a read request marks the reply: with aligned pools,
    for a source that has a reply pool and a reply whose size in bytes is
    in the range of [int], [HandleGlobalToLocalRequest] returns with one
    message sent; a slot of the reply pool of the source
    is marked as in flight, its buffer has the size and the content of the
    message, and its request is the one of the send; and as long as
    [mpi::Test] reports no send complete, [HandleEoms] sends no
    End-Of-Message to the source. *)
Theorem HandleGlobalToLocalRequest_marks_reply
    {T : Type} {ST : Scalar T} (Shift LocalLength : Z -> Z -> Z -> Z)
    (RELEASE : bool) (Test : Request -> bool)
    (source i j height width : Z) (st : State T) :
  pools_aligned st ->
  0 <= source < vsize (_replyVectors st) ->
  (forall n shift,
      0 <= LocalLength n shift (gHeight (dGrid (deref (_globalToLocalMat st))))
      /\ 0 <= LocalLength n shift
                (gWidth (dGrid (deref (_globalToLocalMat st))))) ->
  fits_int
    (reply_bufferSize Shift LocalLength (deref (_globalToLocalMat st))
       i j height width) ->
  exists st' index m,
    HandleGlobalToLocalRequest Shift LocalLength RELEASE Test
      (Some {| ra_source := source;
               ra_header := {| rq_i := i; rq_j := j; rq_height := height;
                               rq_width := width |} |}) st
    = Returned tt st'
    /\ new_sends st st' = [m]
    /\ snd_dest m = source /\ snd_tag m = DATA_REPLY_TAG
    /\ vat (vat (_sendingReply st') source) index = true
    /\ vat (vat (_replyVectors st') source) index
       = {| buf_size := snd_count m; buf_content := snd_body m |}
    /\ vat (vat (_replySendRequests st') source) index = mpi_next st
    /\ forall Test' haveEom,
         (forall request, Test' request = false) ->
         eom_token source
           ∉ new_sends st' (final_state (HandleEoms Test' haveEom st')).
Proof.
  intros Hal Hsrc Hlen _. unfold HandleGlobalToLocalRequest. simpl.
  set (body := ReplyMsg _ _).
  set (localHeight := LocalLength height _ _).
  set (localWidth := LocalLength width _ _).
  set (bufferSize := _ + sizeof_GlobalToLocalReplyHeader).
  set (st1 := set_recvVector _ st).
  assert (Hal1 : pools_aligned st1).
  { intros k. destruct (Hal k). by destruct k. }
  assert (Hsize : 0 <= bufferSize).
  { destruct (Hlen height
                (Shift (MCRank (dGrid (deref (_globalToLocalMat st))))
                   (Z.rem (ColAlignment (deref (_globalToLocalMat st)) + i)
                      (gHeight (dGrid (deref (_globalToLocalMat st)))))
                   (gHeight (dGrid (deref (_globalToLocalMat st))))))
      as [Hh _].
    destruct (Hlen width
                (Shift (MRRank (dGrid (deref (_globalToLocalMat st))))
                   (Z.rem (RowAlignment (deref (_globalToLocalMat st)) + j)
                      (gWidth (dGrid (deref (_globalToLocalMat st)))))
                   (gWidth (dGrid (deref (_globalToLocalMat st))))))
      as [_ Hw].
    fold localHeight in Hh. fold localWidth in Hw.
    unfold bufferSize, sizeof_GlobalToLocalReplyHeader. nia. }
  destruct (post_slot RELEASE Test Reply source bufferSize body
              DATA_REPLY_TAG st1 Hal1 Hsize Hsrc)
    as (st' & index & Heq & Hidx & Hflag & Hbuf & Hreq & _).
  destruct (post_returns RELEASE Test Reply source bufferSize body
              DATA_REPLY_TAG st1 Hal1 Hsize) as (st'' & Heq' & _ & _ & Hlog).
  assert (st'' = st') as -> by congruence.
  exists st', index, (wire source bufferSize body DATA_REPLY_TAG).
  split; [exact Heq|]. split.
  { unfold new_sends. rewrite Hlog. simpl. by rewrite drop_app_length. }
  split; [done|]. split; [done|]. split; [exact Hflag|].
  split; [exact Hbuf|]. split; [exact Hreq|].
  intros Test' haveEom Hnever.
  apply (HandleEoms_withholds Test' haveEom Reply); [done|].
  simpl. rewrite <- Hflag. by apply vat_elem_of.
Qed.


Section get_properties.

Context {T : Type} {ST : Scalar T}.
Variable Shift : Z -> Z -> Z -> Z.
Variable LocalLength : Z -> Z -> Z -> Z.
Variable RELEASE : bool.
Implicit Types (st : State T) (Y : Matrix T) (sy : State T * Matrix T).

(** The replies that arrive during the rounds [ticks], in their order. *)
Local Abbreviation replies_of ticks := (omap (@tk_reply T) ticks).

(** The request that [AxpyGlobalToLocal] sends to [rank]. *)
Local Abbreviation request_to header rank :=
  (wire rank sizeof_GlobalToLocalRequestHeader (@RequestMsg T header)
     DATA_REQUEST_TAG).

Local Abbreviation unpack alpha X i j height width :=
  (fun Y (a : ReplyArrival T) =>
     unpack_reply Shift LocalLength alpha X i j height width a Y).

Lemma HandleGlobalToLocalRequest_returns Test haveRequest st :
  pools_aligned st ->
  (forall n shift,
      0 <= LocalLength n shift (gHeight (dGrid (deref (_globalToLocalMat st))))
      /\ 0 <= LocalLength n shift
                (gWidth (dGrid (deref (_globalToLocalMat st))))) ->
  exists st' replies,
    HandleGlobalToLocalRequest Shift LocalLength RELEASE Test haveRequest st
    = Returned tt st'
    /\ pools_aligned st'
    /\ attachment st' = attachment st
    /\ mpi_sent st' = mpi_sent st ++ replies
    /\ Forall (fun m => snd_tag m = DATA_REPLY_TAG) replies.
Proof.
  intros Hal Hlen. destruct haveRequest as [[source [i j height width]]|].
  - unfold HandleGlobalToLocalRequest. simpl.
    set (body := ReplyMsg _ _).
    set (localHeight := LocalLength height _ _).
    set (localWidth := LocalLength width _ _).
    set (bufferSize := _ + sizeof_GlobalToLocalReplyHeader).
    set (st1 := set_recvVector _ st).
    assert (Hal1 : pools_aligned st1).
    { intros k. destruct (Hal k). by destruct k. }
    assert (Hsize : 0 <= bufferSize).
    { destruct (Hlen height
                  (Shift (MCRank (dGrid (deref (_globalToLocalMat st))))
                     (Z.rem (ColAlignment (deref (_globalToLocalMat st)) + i)
                        (gHeight (dGrid (deref (_globalToLocalMat st)))))
                     (gHeight (dGrid (deref (_globalToLocalMat st))))))
        as [Hh _].
      destruct (Hlen width
                  (Shift (MRRank (dGrid (deref (_globalToLocalMat st))))
                     (Z.rem (RowAlignment (deref (_globalToLocalMat st)) + j)
                        (gWidth (dGrid (deref (_globalToLocalMat st)))))
                     (gWidth (dGrid (deref (_globalToLocalMat st))))))
        as [_ Hw].
      fold localHeight in Hh. fold localWidth in Hw.
      unfold bufferSize, sizeof_GlobalToLocalReplyHeader. nia. }
    destruct (post_returns RELEASE Test Reply source bufferSize body
                DATA_REPLY_TAG st1 Hal1 Hsize)
      as (st' & Heq & Hal' & Hrest & Hlog).
    exists st', [wire source bufferSize body DATA_REPLY_TAG].
    split; [exact Heq|]. split; [done|].
    split; [by rewrite (attachment_rest _ _ Hrest)|].
    split; [done|]. by repeat constructor.
  - exists st, []. split; [done|]. split; [done|]. split; [done|].
    split; [by rewrite app_nil_r|constructor].
Qed.

(** The loop "Send out the requests to all processes". *)
Lemma AxpyGlobalToLocal_requests_sent Test header (ranks : list Z) :
  forall st,
    pools_aligned st ->
    exists st',
      for_each ranks (AxpyGlobalToLocal_request RELEASE Test header) st
      = Returned tt st'
      /\ pools_aligned st'
      /\ attachment st' = attachment st
      /\ mpi_sent st'
         = mpi_sent st ++ ((fun rank => request_to header rank) <$> ranks).
Proof.
  induction ranks as [|rank ranks IH]; intros st Hal.
  - exists st. split; [done|]. split; [done|]. split; [done|].
    by rewrite app_nil_r.
  - simpl. unfold bind at 1.
    destruct (post_returns RELEASE Test Req rank
                sizeof_GlobalToLocalRequestHeader (RequestMsg header)
                DATA_REQUEST_TAG st Hal ltac:(done))
      as (s1 & Heq & Hal1 & Hrest & Hlog).
    change (AxpyGlobalToLocal_request RELEASE Test header rank st)
      with (post RELEASE Test Req rank sizeof_GlobalToLocalRequestHeader
              (RequestMsg header) DATA_REQUEST_TAG st).
    rewrite Heq.
    destruct (IH s1 Hal1) as (st' & -> & Hal' & Hatt & Hlog').
    exists st'. split; [done|]. split; [done|].
    split; [by rewrite Hatt, (attachment_rest _ _ Hrest)|].
    rewrite Hlog', Hlog, <- app_assoc. done.
Qed.

(** The loop "Receive all of the replies" returns only when the replies
    that are still missing have arrived, and has then unpacked just
    these. *)
Lemma AxpyGlobalToLocal_wait_returned alpha X i j height width p ticks :
  forall numReplies sy sy',
    AxpyGlobalToLocal_wait Shift LocalLength RELEASE alpha X i j height width
      p ticks numReplies sy = Returned tt sy' ->
    (Z.to_nat (p - numReplies) <= length (replies_of ticks))%nat
    /\ snd sy'
       = foldl (unpack alpha X i j height width) (snd sy)
           (take (Z.to_nat (p - numReplies)) (replies_of ticks)).
Proof.
  induction ticks as [|tk ticks IH]; intros numReplies sy sy'; simpl.
  - destruct (Z.ltb_spec numReplies p); [done|]. intros [= <-].
    replace (Z.to_nat (p - numReplies)) with 0%nat by lia. done.
  - destruct (Z.ltb_spec numReplies p) as [Hlt|Hge].
    + unfold bind at 1, on_State.
      destruct (HandleGlobalToLocalRequest _ _ _ _ _ (fst sy))
        as [[] s1|e s1|s1]; [|done..].
      destruct (tk_reply tk) as [a|]; simpl.
      * intros H. apply IH in H as [Hn HY]. simpl in HY.
        replace (Z.to_nat (p - numReplies))
          with (S (Z.to_nat (p - (numReplies + 1)))) by lia.
        split; [by apply le_n_S|done].
      * intros H. by apply IH in H.
    + intros [= <-].
      replace (Z.to_nat (p - numReplies)) with 0%nat by lia.
      split; [lia|done].
Qed.

(** The loop returns when the replies that are missing arrive: its
    handling of the requests of the others cannot fail. *)
Lemma AxpyGlobalToLocal_wait_returns alpha X i j height width p ticks :
  forall numReplies sy,
    pools_aligned (fst sy) ->
    (forall n shift,
        0 <= LocalLength n shift
               (gHeight (dGrid (deref (_globalToLocalMat (fst sy)))))
        /\ 0 <= LocalLength n shift
                  (gWidth (dGrid (deref (_globalToLocalMat (fst sy)))))) ->
    (Z.to_nat (p - numReplies) <= length (replies_of ticks))%nat ->
    exists sy' replies,
      AxpyGlobalToLocal_wait Shift LocalLength RELEASE alpha X i j height
        width p ticks numReplies sy = Returned tt sy'
      /\ mpi_sent (fst sy') = mpi_sent (fst sy) ++ replies
      /\ Forall (fun m => snd_tag m = DATA_REPLY_TAG) replies.
Proof.
  induction ticks as [|tk ticks IH]; intros numReplies sy Hal Hlen Hn; simpl.
  - simpl in Hn. destruct (Z.ltb_spec numReplies p); [lia|].
    exists sy, []. split; [done|]. split; [by rewrite app_nil_r|constructor].
  - destruct (Z.ltb_spec numReplies p) as [Hlt|Hge].
    + unfold bind at 1, on_State.
      destruct (HandleGlobalToLocalRequest_returns (tk_Test tk)
                  (tk_request tk) (fst sy) Hal Hlen)
        as (s1 & sent & -> & Hal1 & Hatt & Hlog & Htags).
      assert (Hlen1 : forall n shift,
                 0 <= LocalLength n shift
                        (gHeight (dGrid (deref (_globalToLocalMat s1))))
                 /\ 0 <= LocalLength n shift
                           (gWidth (dGrid (deref (_globalToLocalMat s1))))).
      { assert (_globalToLocalMat s1 = _globalToLocalMat (fst sy)) as ->
            by (unfold attachment in Hatt; congruence). done. }
      revert Hn. simpl. destruct (tk_reply tk) as [a|]; simpl; intros Hn;
        change (list_omap _ _ tk_reply ticks) with (omap tk_reply ticks) in Hn.
      * edestruct (IH (numReplies + 1)
                     (set_recvVector
                        {| buf_size := pa_count a;
                           buf_content :=
                             ReplyMsg (pa_header a) (pa_payload a) |} s1,
                      unpack_reply Shift LocalLength alpha X i j height width
                        a (snd sy)))
          as (sy' & more & Heq & Hlog' & Htags'); [| |simpl in *; lia|].
        { intros k. destruct (Hal1 k). by destruct k. }
        { done. }
        exists sy', (sent ++ more). split; [exact Heq|].
        split; [|by apply Forall_app].
        rewrite Hlog'. simpl. rewrite Hlog. by rewrite app_assoc.
      * edestruct (IH numReplies (s1, snd sy))
          as (sy' & more & Heq & Hlog' & Htags'); [done|done|done|].
        exists sy', (sent ++ more). split; [exact Heq|].
        split; [|by apply Forall_app].
        rewrite Hlog'. simpl. rewrite Hlog. by rewrite app_assoc.
    + exists sy, []. split; [done|].
      split; [by rewrite app_nil_r|constructor].
Qed.

End get_properties.

(** X15.  A get returns only after a reply from every process: when
    [AxpyGlobalToLocal] returns on a grid of [p] processes, at least [p]
    replies have arrived during its polling, and the destination [Y] is the
    one of the call with the first [p] of them unpacked into it in the
    order of their arrival; later replies are left alone. *)
Theorem AxpyGlobalToLocal_returns_after_all_replies
    {T : Type} {ST : Scalar T} (Shift LocalLength : Z -> Z -> Z -> Z)
    (RELEASE : bool) (Test : Request -> bool) (ticks : list (Tick T))
    (alpha : T) (i j : Z) (st st' : State T) (Y Y' : Matrix T) :
  AxpyGlobalToLocal Shift LocalLength RELEASE Test ticks alpha i j (st, Y)
  = Returned tt (st', Y') ->
  let X := deref (_globalToLocalMat st) in
  let p := Z.to_nat (gSize (dGrid X)) in
  (p <= length (omap tk_reply ticks))%nat
  /\ Y' = foldl (fun Y1 a =>
                   unpack_reply Shift LocalLength alpha X i j (mHeight Y)
                     (mWidth Y) a Y1)
            Y (take p (omap tk_reply ticks)).
Proof.
  unfold AxpyGlobalToLocal. simpl. destruct (_ || _); [done|].
  unfold bind at 1, on_State. simpl.
  destruct (for_each _ _ st) as [[] s1|e s1|s1]; [|done..].
  intros H. apply AxpyGlobalToLocal_wait_returned in H. simpl in H.
  by rewrite Z.sub_0_r in H.
Qed.

(** X16.  A get asks every process once and returns when all have
    answered: for a region within the last row and column of the source,
    with aligned pools, [AxpyGlobalToLocal] on a grid of [p] processes
    returns as soon as [p] replies arrive during its polling.  What it has
    sent are first the [p] requests, one to each rank [0 .. p-1] in this
    order, all with the header [(i, j, height, width)] of the call and the
    tag [DATA_REQUEST_TAG]; and then only replies to the requests of the
    others.  The sums of the bounds test, and the size in bytes of the
    reply to each request that arrives during the polling, are taken to be
    in the range of [int]. *)
Theorem AxpyGlobalToLocal_asks_every_process
    {T : Type} {ST : Scalar T} (Shift LocalLength : Z -> Z -> Z -> Z)
    (RELEASE : bool) (Test : Request -> bool) (ticks : list (Tick T))
    (alpha : T) (i j : Z) (st : State T) (Y : Matrix T) :
  let X := deref (_globalToLocalMat st) in
  let header := {| rq_i := i; rq_j := j; rq_height := mHeight Y;
                   rq_width := mWidth Y |} in
  pools_aligned st ->
  i + mHeight Y <= dHeight X -> j + mWidth Y <= dWidth X ->
  fits_int (i + mHeight Y) -> fits_int (j + mWidth Y) ->
  (forall n shift,
      0 <= LocalLength n shift (gHeight (dGrid X))
      /\ 0 <= LocalLength n shift (gWidth (dGrid X))) ->
  (Z.to_nat (gSize (dGrid X)) <= length (omap tk_reply ticks))%nat ->
  (forall tk a,
      tk ∈ ticks -> tk_request tk = Some a ->
      fits_int
        (reply_bufferSize Shift LocalLength X
           (rq_i (ra_header a)) (rq_j (ra_header a))
           (rq_height (ra_header a)) (rq_width (ra_header a)))) ->
  exists sy' replies,
    AxpyGlobalToLocal Shift LocalLength RELEASE Test ticks alpha i j (st, Y)
    = Returned tt sy'
    /\ new_sends st (fst sy')
       = ((fun rank =>
             wire rank sizeof_GlobalToLocalRequestHeader (RequestMsg header)
               DATA_REQUEST_TAG) <$> upto (gSize (dGrid X)))
         ++ replies
    /\ Forall (fun m => snd_tag m = DATA_REPLY_TAG) replies.
Proof.
  intros X header Hal Hh Hw _ _ Hlen Hn _. unfold AxpyGlobalToLocal. simpl.
  destruct (Z.gtb_spec (i + mHeight Y)
              (dHeight (deref (_globalToLocalMat st))));
    [unfold X in Hh; lia|].
  destruct (Z.gtb_spec (j + mWidth Y)
              (dWidth (deref (_globalToLocalMat st))));
    [unfold X in Hw; lia|]. simpl.
  unfold bind at 1, on_State. simpl.
  destruct (AxpyGlobalToLocal_requests_sent RELEASE Test header
              (upto (gSize (dGrid X))) st Hal)
    as (s1 & Heq & Hal1 & Hatt & Hlog).
  fold X. fold header. rewrite Heq.
  destruct (AxpyGlobalToLocal_wait_returns Shift LocalLength RELEASE alpha X
              i j (mHeight Y) (mWidth Y) (gSize (dGrid X)) ticks 0 (s1, Y))
    as (sy' & replies & Hret & Hlog' & Htags).
  { done. }
  { simpl. assert (_globalToLocalMat s1 = _globalToLocalMat st) as ->
        by (unfold attachment in Hatt; congruence). exact Hlen. }
  { by rewrite Z.sub_0_r. }
  exists sy', replies. split; [exact Hret|]. split; [|done].
  unfold new_sends. rewrite Hlog'. simpl. rewrite Hlog, <- app_assoc.
  by rewrite drop_app_length.
Qed.


(** ** The entries that the unpacking loops write *)

Section entries.

Context {T : Type} {ST : Scalar T}.
Implicit Types (A : Matrix T) (writes : list (Z * (T -> T))).

Lemma scatter_frame writes :
  forall A,
    mHeight (scatter writes A) = mHeight A
    /\ mWidth (scatter writes A) = mWidth A
    /\ LDim (scatter writes A) = LDim A
    /\ vsize (mBuffer (scatter writes A)) = vsize (mBuffer A).
Proof.
  induction writes as [|w writes IH]; intros A; [done|].
  change (scatter (w :: writes) A)
    with (scatter writes (mUpdate (snd w) A (fst w))).
  destruct (IH (mUpdate (snd w) A (fst w))) as (-> & -> & -> & ->).
  simpl. unfold vsize. by rewrite length_vupd.
Qed.

Lemma scatter_app writes1 writes2 A :
  scatter (writes1 ++ writes2) A = scatter writes2 (scatter writes1 A).
Proof. apply foldl_app. Qed.

Lemma mRead_scatter_other writes (k : Z) :
  k ∉ writes.*1 ->
  forall A, mRead (scatter writes A) k = mRead A k.
Proof.
  induction writes as [|[k0 f0] writes IH]; intros Hk A; [done|].
  apply not_elem_of_cons in Hk as [Hne Hk].
  change (scatter ((k0, f0) :: writes) A)
    with (scatter writes (mUpdate f0 A k0)).
  rewrite IH by done. unfold mRead. simpl. by apply vat_vupd_ne.
Qed.

Lemma mRead_scatter_at writes (k : Z) (f : T -> T) :
  NoDup writes.*1 -> (k, f) ∈ writes ->
  forall A,
    0 <= k < vsize (mBuffer A) ->
    mRead (scatter writes A) k = f (mRead A k).
Proof.
  induction writes as [|[k0 f0] writes IH]; intros Hnd Hin A Hk.
  - by apply elem_of_nil in Hin.
  - apply NoDup_cons in Hnd as [Hk0 Hnd].
    change (scatter ((k0, f0) :: writes) A)
      with (scatter writes (mUpdate f0 A k0)).
    apply elem_of_cons in Hin as [[= -> ->]|Hin].
    + rewrite mRead_scatter_other by done. unfold mRead. simpl.
      rewrite vat_vupd_eq. by rewrite decide_True.
    + assert (k <> k0).
      { intros ->. apply Hk0. apply list_elem_of_fmap. by exists (k0, f). }
      rewrite IH; [|done|done|].
      * unfold mRead. simpl. by rewrite vat_vupd_ne.
      * simpl. unfold vsize. by rewrite length_vupd.
Qed.

(** A loop over [s] within a loop over [t] that updates one entry per
    round, at an offset that depends on the leading dimension, is such a
    list of writes. *)
Lemma loop_scatter (offset : Z -> Z -> Z -> Z) (g : Z -> Z -> T -> T)
    (ss : list Z) :
  forall A (t : Z),
    foldl (fun A2 s => mUpdate (g t s) A2 (offset (LDim A2) t s)) A ss
    = scatter ((fun s => (offset (LDim A) t s, g t s)) <$> ss) A.
Proof.
  induction ss as [|s ss IH]; intros A t; [done|].
  simpl. by rewrite IH.
Qed.

Lemma loops_scatter (offset : Z -> Z -> Z -> Z) (g : Z -> Z -> T -> T)
    (ts ss : list Z) :
  forall A,
    foldl (fun A1 t =>
             foldl (fun A2 s => mUpdate (g t s) A2 (offset (LDim A2) t s))
                   A1 ss)
          A ts
    = scatter
        (flat_map (fun t => (fun s => (offset (LDim A) t s, g t s)) <$> ss)
                  ts)
        A.
Proof.
  induction ts as [|t ts IH]; intros A; [done|].
  simpl. rewrite IH, loop_scatter, scatter_app.
  by destruct (scatter_frame
                 ((fun s => (offset (LDim A) t s, g t s)) <$> ss) A)
    as (_ & _ & -> & _).
Qed.

Lemma offsets_of_loops (offset : Z -> Z -> Z) (g : Z -> Z -> T -> T)
    (ts ss : list Z) :
  (flat_map (fun t => (fun s => (offset t s, g t s)) <$> ss) ts).*1
  = flat_map (fun t => offset t <$> ss) ts.
Proof.
  induction ts as [|t ts IH]; [done|].
  simpl. rewrite fmap_app, IH, <- list_fmap_compose. done.
Qed.

Lemma elem_of_loops {B} (h : Z -> Z -> B) (ts ss : list Z) (b : B) :
  b ∈ flat_map (fun t => h t <$> ss) ts
  <-> exists t s, t ∈ ts /\ s ∈ ss /\ b = h t s.
Proof.
  rewrite list_elem_of_In, in_flat_map. split.
  - intros (t & Ht & Hb). apply list_elem_of_In, list_elem_of_fmap in Hb
      as (s & -> & Hs).
    exists t, s. by rewrite list_elem_of_In.
  - intros (t & s & Ht & Hs & ->). exists t.
    rewrite <- !list_elem_of_In. split; [done|].
    apply list_elem_of_fmap. by exists s.
Qed.

Lemma NoDup_loops (offset : Z -> Z -> Z) (ts ss : list Z) :
  NoDup ts -> NoDup ss ->
  (forall t s t' s',
      t ∈ ts -> s ∈ ss -> t' ∈ ts -> s' ∈ ss ->
      offset t s = offset t' s' -> t = t' /\ s = s') ->
  NoDup (flat_map (fun t => offset t <$> ss) ts).
Proof.
  intros Hts Hss. induction Hts as [|t ts Ht Hts IH]; intros Hinj.
  - constructor.
  - simpl. apply NoDup_app. split; [|split].
    + apply NoDup_fmap_2_strong; [|done].
      intros s s' Hs Hs' Heq.
      by destruct (Hinj t s t s') as [_ ?]; [left|done|left|done|done|].
    + intros k Hk Hk'. apply list_elem_of_fmap in Hk as (s & -> & Hs).
      apply elem_of_loops in Hk' as (t' & s' & Ht' & Hs' & Heq).
      destruct (Hinj t s t' s') as [-> _]; [by left|done|by right|done|done|].
      done.
    + apply IH. intros t1 s1 t2 s2 H1 Hs1 H2 Hs2.
      apply Hinj; [by right|done|by right|done].
Qed.

(** The entries after such a pair of loops whose offsets are pairwise
    different. *)
Lemma loops_entries (offset : Z -> Z -> Z -> Z) (g : Z -> Z -> T -> T)
    (w h : Z) A :
  (forall t s t' s',
      0 <= t < w -> 0 <= s < h -> 0 <= t' < w -> 0 <= s' < h ->
      offset (LDim A) t s = offset (LDim A) t' s' -> t = t' /\ s = s') ->
  let A' :=
    foldl (fun A1 t =>
             foldl (fun A2 s => mUpdate (g t s) A2 (offset (LDim A2) t s))
                   A1 (upto h))
          A (upto w) in
  mHeight A' = mHeight A /\ mWidth A' = mWidth A /\ LDim A' = LDim A
  /\ vsize (mBuffer A') = vsize (mBuffer A)
  /\ (forall t s,
        0 <= t < w -> 0 <= s < h ->
        0 <= offset (LDim A) t s < vsize (mBuffer A) ->
        mRead A' (offset (LDim A) t s)
        = g t s (mRead A (offset (LDim A) t s)))
  /\ (forall k,
        (forall t s, 0 <= t < w -> 0 <= s < h -> k <> offset (LDim A) t s) ->
        mRead A' k = mRead A k).
Proof.
  intros Hinj A'. unfold A'. rewrite loops_scatter.
  destruct (scatter_frame
              (flat_map
                 (fun t => (fun s => (offset (LDim A) t s, g t s)) <$> upto h)
                 (upto w)) A) as (-> & -> & -> & ->).
  do 4 (split; [done|]). split.
  - intros t s Ht Hs Hk. apply mRead_scatter_at; [| |done].
    + rewrite offsets_of_loops.
      apply NoDup_loops; [apply NoDup_upto..|].
      intros t1 s1 t2 s2 H1 Hs1 H2 Hs2.
      apply elem_of_upto in H1, Hs1, H2, Hs2. by apply Hinj.
    + apply elem_of_loops. exists t, s. by rewrite !elem_of_upto.
  - intros k Hk. apply mRead_scatter_other.
    rewrite offsets_of_loops. intros Hin.
    apply elem_of_loops in Hin as (t & s & Ht & Hs & ->).
    apply elem_of_upto in Ht, Hs. by apply (Hk t s).
Qed.

End entries.


Lemma offsets_in_columns (base ldim h t s t' s' : Z) :
  h <= ldim -> 0 <= s < h -> 0 <= s' < h ->
  base + t * ldim + s = base + t' * ldim + s' ->
  t = t' /\ s = s'.
Proof.
  intros Hh Hs Hs' Heq.
  assert (t = t') as -> by nia. lia.
Qed.

Section round_trips.

Context {T : Type} {ST : Scalar T}.
Variable Shift : Z -> Z -> Z -> Z.
Variable LocalLength : Z -> Z -> Z -> Z.

(** The entries of the target after the part "Update Y" of
    [HandleLocalToGlobalData]. *)
Lemma accumulate_entries (header : LocalToGlobalHeader T) (XBuffer : list T)
    (Y : DistMatrix T) :
  let A := LocalMatrix Y in
  let r := gHeight (dGrid Y) in
  let c := gWidth (dGrid Y) in
  let colShift :=
    Shift (MCRank (dGrid Y)) (Z.rem (ColAlignment Y + lg_i header) r) r in
  let rowShift :=
    Shift (MRRank (dGrid Y)) (Z.rem (RowAlignment Y + lg_j header) c) c in
  let localHeight := LocalLength (lg_height header) colShift r in
  let localWidth := LocalLength (lg_width header) rowShift c in
  let iLocalOffset := LocalLength (lg_i header) (ColShift Y) r in
  let jLocalOffset := LocalLength (lg_j header) (RowShift Y) c in
  let A' := LocalMatrix (accumulate Shift LocalLength header XBuffer Y) in
  localHeight <= LDim A ->
  accumulate Shift LocalLength header XBuffer Y
  = with_LocalMatrix (fun _ => A') Y
  /\ mHeight A' = mHeight A /\ mWidth A' = mWidth A /\ LDim A' = LDim A
  /\ vsize (mBuffer A') = vsize (mBuffer A)
  /\ (forall s t,
        0 <= s < localHeight -> 0 <= t < localWidth ->
        0 <= mOffset A (iLocalOffset + s) (jLocalOffset + t)
          < vsize (mBuffer A) ->
        mRead A' (mOffset A (iLocalOffset + s) (jLocalOffset + t))
        = Tadd (mRead A (mOffset A (iLocalOffset + s) (jLocalOffset + t)))
            (Tmul (lg_alpha header) (vat XBuffer (t * localHeight + s))))
  /\ (forall k,
        (forall s t,
            0 <= s < localHeight -> 0 <= t < localWidth ->
            k <> mOffset A (iLocalOffset + s) (jLocalOffset + t)) ->
        mRead A' k = mRead A k).
Proof.
  intros A r c colShift rowShift localHeight localWidth iLocalOffset
    jLocalOffset A' Hh.
  set (offset := fun ldim t s : Z =>
                   iLocalOffset + (jLocalOffset + t) * ldim + s).
  set (g := fun (t s : Z) (y : T) =>
              Tadd y (Tmul (lg_alpha header)
                        (vat XBuffer (t * localHeight + s)))).
  destruct (loops_entries offset g localWidth localHeight A)
    as (HH & HW & HL & HB & Hat & Hother).
  { intros t s t' s' _ Hs _ Hs' Heq. unfold offset in Heq.
    destruct (offsets_in_columns iLocalOffset (LDim A) localHeight
                (jLocalOffset + t) s (jLocalOffset + t') s');
      [done|done|done|lia|]. split; lia. }
  split; [done|].
  split; [exact HH|]. split; [exact HW|]. split; [exact HL|].
  split; [exact HB|]. split.
  - intros s t Hs Ht Hk.
    replace (mOffset A (iLocalOffset + s) (jLocalOffset + t))
      with (offset (LDim A) t s) in * by (unfold offset, mOffset; lia).
    by apply Hat.
  - intros k Hk. apply Hother. intros t s Ht Hs.
    replace (offset (LDim A) t s)
      with (mOffset A (iLocalOffset + s) (jLocalOffset + t))
      by (unfold offset, mOffset; lia).
    by apply Hk.
Qed.

(** The entries of the destination after the part "Unpack the local
    matrix" of [AxpyGlobalToLocal]. *)
Lemma unpack_reply_entries (alpha : T) (X : DistMatrix T)
    (i j height width : Z) (a : ReplyArrival T) (Y : Matrix T) :
  let r := gHeight (dGrid X) in
  let c := gWidth (dGrid X) in
  let colShift :=
    Shift (processRow (pa_header a)) (Z.rem (ColAlignment X + i) r) r in
  let rowShift :=
    Shift (processCol (pa_header a)) (Z.rem (RowAlignment X + j) c) c in
  let localHeight := LocalLength height colShift r in
  let localWidth := LocalLength width rowShift c in
  let Y' := unpack_reply Shift LocalLength alpha X i j height width a Y in
  0 < r -> 0 < c -> 0 <= colShift ->
  (forall s, 0 <= s < localHeight -> colShift + s * r < LDim Y) ->
  mHeight Y' = mHeight Y /\ mWidth Y' = mWidth Y /\ LDim Y' = LDim Y
  /\ vsize (mBuffer Y') = vsize (mBuffer Y)
  /\ (forall s t,
        0 <= s < localHeight -> 0 <= t < localWidth ->
        0 <= mOffset Y (colShift + s * r) (rowShift + t * c)
          < vsize (mBuffer Y) ->
        mRead Y' (mOffset Y (colShift + s * r) (rowShift + t * c))
        = Tadd (mRead Y (mOffset Y (colShift + s * r) (rowShift + t * c)))
            (Tmul alpha (vat (pa_payload a) (t * localHeight + s))))
  /\ (forall k,
        (forall s t,
            0 <= s < localHeight -> 0 <= t < localWidth ->
            k <> mOffset Y (colShift + s * r) (rowShift + t * c)) ->
        mRead Y' k = mRead Y k).
Proof.
  intros r c colShift rowShift localHeight localWidth Y' Hr Hc Hcs Hfit.
  set (offset := fun ldim t s : Z =>
                   0 + (rowShift + t * c) * ldim + (colShift + s * r)).
  set (g := fun (t s : Z) (y : T) =>
              Tadd y (Tmul alpha (vat (pa_payload a) (t * localHeight + s)))).
  destruct (loops_entries offset g localWidth localHeight Y)
    as (HH & HW & HL & HB & Hat & Hother).
  { intros t s t' s' _ Hs _ Hs' Heq. unfold offset in Heq.
    pose proof (Hfit s Hs). pose proof (Hfit s' Hs').
    destruct (offsets_in_columns 0 (LDim Y) (LDim Y)
                (rowShift + t * c) (colShift + s * r)
                (rowShift + t' * c) (colShift + s' * r));
      [lia|nia|nia|lia|]. split; nia. }
  split; [exact HH|]. split; [exact HW|]. split; [exact HL|].
  split; [exact HB|]. split.
  - intros s t Hs Ht Hk.
    replace (mOffset Y (colShift + s * r) (rowShift + t * c))
      with (offset (LDim Y) t s) in * by (unfold offset, mOffset; lia).
    by apply Hat.
  - intros k Hk. apply Hother. intros t s Ht Hs.
    replace (offset (LDim Y) t s)
      with (mOffset Y (colShift + s * r) (rowShift + t * c))
      by (unfold offset, mOffset; lia).
    by apply Hk.
Qed.

Lemma vat_data_payload (X : Matrix T)
    (r c colShift rowShift localHeight localWidth s t : Z) :
  0 <= s < localHeight -> 0 <= t < localWidth ->
  vat (data_payload X r c colShift rowShift localHeight localWidth)
    (t * localHeight + s)
  = mRead X (mOffset X (colShift + s * r) (rowShift + t * c)).
Proof.
  intros Hs Ht. unfold vat. destruct (Z.leb_spec 0 (t * localHeight + s));
    [|nia].
  replace (t * localHeight + s) with (s + t * localHeight) by lia.
  rewrite list_lookup_total_alt, lookup_data_payload by done. simpl.
  f_equal. unfold mOffset. lia.
Qed.

Lemma vat_reply_payload (A : Matrix T)
    (localHeight localWidth iLocalOffset jLocalOffset s t : Z) :
  0 <= s < localHeight -> 0 <= t < localWidth ->
  vat (reply_payload A localHeight localWidth iLocalOffset jLocalOffset)
    (t * localHeight + s)
  = mRead A (mOffset A (iLocalOffset + s) (jLocalOffset + t)).
Proof.
  intros Hs Ht. unfold vat. destruct (Z.leb_spec 0 (t * localHeight + s));
    [|nia].
  rewrite list_lookup_total_alt. unfold reply_payload.
  replace (Z.to_nat (t * localHeight + s))
    with (Z.to_nat t * Z.to_nat localHeight + Z.to_nat s)%nat by nia.
  rewrite (lookup_flat_map_const _ (Z.to_nat localHeight) _ _ _ t).
  - rewrite list_lookup_fmap, lookup_upto by lia. simpl.
    rewrite Z2Nat.id by lia. f_equal. unfold mOffset. lia.
  - intros t'. by rewrite length_fmap, length_upto.
  - rewrite lookup_upto by lia. f_equal. lia.
  - lia.
Qed.

End round_trips.

(** ** HandleGlobalToLocalRequest: the reply *)

Lemma length_reply_payload {T : Type} {ST : Scalar T} (A : Matrix T)
    (localHeight localWidth iLocalOffset jLocalOffset : Z) :
  length (reply_payload A localHeight localWidth iLocalOffset jLocalOffset)
  = (Z.to_nat localWidth * Z.to_nat localHeight)%nat.
Proof.
  unfold reply_payload.
  rewrite (length_flat_map_const _ (Z.to_nat localHeight)), length_upto;
    [done|].
  intros t. by rewrite length_fmap, length_upto.
Qed.

Lemma lookup_reply_payload {T : Type} {ST : Scalar T} (A : Matrix T)
    (localHeight localWidth iLocalOffset jLocalOffset s t : Z) :
  0 <= s < localHeight -> 0 <= t < localWidth ->
  reply_payload A localHeight localWidth iLocalOffset jLocalOffset
    !! Z.to_nat (s + t * localHeight)
  = Some (mRead A (mOffset A (iLocalOffset + s) (jLocalOffset + t))).
Proof.
  intros Hs Ht. unfold reply_payload.
  replace (Z.to_nat (s + t * localHeight))
    with (Z.to_nat t * Z.to_nat localHeight + Z.to_nat s)%nat by nia.
  rewrite (lookup_flat_map_const _ (Z.to_nat localHeight) _ _ _ t).
  - rewrite list_lookup_fmap, lookup_upto by lia. simpl.
    rewrite Z2Nat.id by lia. f_equal. f_equal. unfold mOffset. lia.
  - intros t'. by rewrite length_fmap, length_upto.
  - rewrite lookup_upto by lia. f_equal. lia.
  - lia.
Qed.

(** C10.  [HandleGlobalToLocalRequest] does not validate the header of a
    request.  Whatever [(i, j, height, width)] is, with aligned buffer
    pools, local lengths that are not negative (as counts are) and a reply
    whose size in bytes is in the range of [int], it returns and has sent
    exactly one message: the reply, to the source of the request.  The
    reply has the size [numEntries*sizeof(T)] plus the size of its header,
    the header [(myRow, myCol)], and as payload the [localHeight] x
    [localWidth] entries of the local matrix of the source from
    [(iLocalOffset, jLocalOffset)] on, column by column; for a source that
    has a reply pool, a slot of the pool holds the packed reply and is
    marked as in flight. *)
Theorem HandleGlobalToLocalRequest_never_validates
    {T : Type} {ST : Scalar T} (Shift LocalLength : Z -> Z -> Z -> Z)
    (RELEASE : bool) (Test : Request -> bool)
    (source i j height width : Z) (st : State T) :
  let X := deref (_globalToLocalMat st) in
  let A := LocalMatrix X in
  let r := gHeight (dGrid X) in
  let c := gWidth (dGrid X) in
  let colShift := Shift (MCRank (dGrid X)) (Z.rem (ColAlignment X + i) r) r in
  let rowShift := Shift (MRRank (dGrid X)) (Z.rem (RowAlignment X + j) c) c in
  let localHeight := LocalLength height colShift r in
  let localWidth := LocalLength width rowShift c in
  let iLocalOffset := LocalLength i (ColShift X) r in
  let jLocalOffset := LocalLength j (RowShift X) c in
  let bufferSize :=
    localHeight * localWidth * Z.pos sizeof_T
    + sizeof_GlobalToLocalReplyHeader in
  let replyHeader :=
    {| processRow := MCRank (dGrid X); processCol := MRRank (dGrid X) |} in
  pools_aligned st ->
  (forall n shift,
      0 <= LocalLength n shift r /\ 0 <= LocalLength n shift c) ->
  fits_int bufferSize ->
  exists st' index payload,
    HandleGlobalToLocalRequest Shift LocalLength RELEASE Test
      (Some {| ra_source := source;
               ra_header := {| rq_i := i; rq_j := j; rq_height := height;
                               rq_width := width |} |}) st
    = Returned tt st'
    /\ new_sends st st'
       = [wire source bufferSize (ReplyMsg replyHeader payload)
            DATA_REPLY_TAG]
    /\ length payload = (Z.to_nat localWidth * Z.to_nat localHeight)%nat
    /\ (forall s t,
          0 <= s < localHeight -> 0 <= t < localWidth ->
          payload !! Z.to_nat (s + t * localHeight)
          = Some (mRead A (mOffset A (iLocalOffset + s) (jLocalOffset + t))))
    /\ (0 <= source < vsize (_replyVectors st) ->
        vat (vat (_replyVectors st') source) index
        = {| buf_size := bufferSize;
             buf_content := ReplyMsg replyHeader payload |}
        /\ vat (vat (_sendingReply st') source) index = true).
Proof.
  intros X A r c colShift rowShift localHeight localWidth iLocalOffset
    jLocalOffset bufferSize replyHeader Hal Hlen _.
  set (payload := reply_payload A localHeight localWidth iLocalOffset
                    jLocalOffset).
  set (body := ReplyMsg replyHeader payload).
  set (st1 := set_recvVector
                {| buf_size := sizeof_GlobalToLocalRequestHeader;
                   buf_content :=
                     RequestMsg {| rq_i := i; rq_j := j; rq_height := height;
                                   rq_width := width |} |} st).
  change (HandleGlobalToLocalRequest Shift LocalLength RELEASE Test
            (Some {| ra_source := source;
                     ra_header := {| rq_i := i; rq_j := j;
                                     rq_height := height;
                                     rq_width := width |} |}) st)
    with (post RELEASE Test Reply source bufferSize body DATA_REPLY_TAG st1).
  assert (Hal1 : pools_aligned st1).
  { intros k. destruct (Hal k). by destruct k. }
  assert (Hsize : 0 <= bufferSize).
  { destruct (Hlen height colShift) as [Hh _].
    destruct (Hlen width rowShift) as [_ Hw].
    fold localHeight in Hh. fold localWidth in Hw.
    unfold bufferSize, sizeof_GlobalToLocalReplyHeader. nia. }
  destruct (post_returns RELEASE Test Reply source bufferSize body
              DATA_REPLY_TAG st1 Hal1 Hsize) as (st' & Heq & _ & _ & Hlog).
  assert (Hnew : new_sends st st'
                 = [wire source bufferSize body DATA_REPLY_TAG]).
  { unfold new_sends. rewrite Hlog. simpl. by rewrite drop_app_length. }
  assert (Hslot : exists index,
             0 <= source < vsize (_replyVectors st) ->
             vat (vat (_replyVectors st') source) index
             = {| buf_size := bufferSize; buf_content := body |}
             /\ vat (vat (_sendingReply st') source) index = true).
  { destruct (decide (0 <= source < vsize (_replyVectors st))) as [Hsrc|Hsrc].
    - destruct (post_slot RELEASE Test Reply source bufferSize body
                  DATA_REPLY_TAG st1 Hal1 Hsize Hsrc)
        as (st'' & index & Heq' & _ & Hflag & Hbuf & _).
      assert (st'' = st') as -> by congruence.
      exists index. intros _. split; [exact Hbuf|exact Hflag].
    - exists 0. intros H. by destruct Hsrc. }
  destruct Hslot as (index & Hslot).
  exists st', index, payload.
  split; [exact Heq|]. split; [exact Hnew|].
  split; [apply length_reply_payload|].
  split; [intros s t Hs Ht; by apply lookup_reply_payload|exact Hslot].
Qed.

(** X17.  What an update message adds: when [HandleLocalToGlobalData]
    returns for a message with header [(i, j, height, width, alpha)], and
    the local height of the update is at most the leading dimension of the
    local matrix, then the entry [(iLocalOffset + s, jLocalOffset + t)] of
    the local matrix has grown by [alpha] times the payload at
    [t * localHeight + s], for every [s < localHeight] and
    [t < localWidth] whose entry lies in the buffer; every other entry of
    the buffer, the dimensions and the distribution of the target are as
    before. *)
Theorem HandleLocalToGlobalData_adds_payload
    {T : Type} {ST : Scalar T} (Shift LocalLength : Z -> Z -> Z -> Z)
    (RELEASE : bool) (a : DataArrival T) (st st' : State T)
    (Y : DistMatrix T) :
  let header := da_header a in
  let A := LocalMatrix Y in
  let r := gHeight (dGrid Y) in
  let c := gWidth (dGrid Y) in
  let colShift :=
    Shift (MCRank (dGrid Y)) (Z.rem (ColAlignment Y + lg_i header) r) r in
  let rowShift :=
    Shift (MRRank (dGrid Y)) (Z.rem (RowAlignment Y + lg_j header) c) c in
  let localHeight := LocalLength (lg_height header) colShift r in
  let localWidth := LocalLength (lg_width header) rowShift c in
  let iLocalOffset := LocalLength (lg_i header) (ColShift Y) r in
  let jLocalOffset := LocalLength (lg_j header) (RowShift Y) c in
  _localToGlobalMat st = Some Y ->
  HandleLocalToGlobalData Shift LocalLength RELEASE (Some a) st
  = Returned tt st' ->
  localHeight <= LDim A ->
  exists A',
    _localToGlobalMat st' = Some (with_LocalMatrix (fun _ => A') Y)
    /\ mHeight A' = mHeight A /\ mWidth A' = mWidth A /\ LDim A' = LDim A
    /\ vsize (mBuffer A') = vsize (mBuffer A)
    /\ (forall s t,
          0 <= s < localHeight -> 0 <= t < localWidth ->
          0 <= mOffset A (iLocalOffset + s) (jLocalOffset + t)
            < vsize (mBuffer A) ->
          mRead A' (mOffset A (iLocalOffset + s) (jLocalOffset + t))
          = Tadd (mRead A (mOffset A (iLocalOffset + s) (jLocalOffset + t)))
              (Tmul (lg_alpha header)
                 (vat (da_payload a) (t * localHeight + s))))
    /\ (forall k,
          (forall s t,
              0 <= s < localHeight -> 0 <= t < localWidth ->
              k <> mOffset A (iLocalOffset + s) (jLocalOffset + t)) ->
          mRead A' k = mRead A k).
Proof.
  intros header A r c colShift rowShift localHeight localWidth iLocalOffset
    jLocalOffset HY Hret Hh.
  destruct (accumulate_entries Shift LocalLength header (da_payload a) Y Hh)
    as (Hacc & Hrest).
  exists (LocalMatrix (accumulate Shift LocalLength header (da_payload a) Y)).
  split; [|exact Hrest].
  unfold HandleLocalToGlobalData in Hret.
  destruct (negb RELEASE && _); [done|].
  destruct (negb RELEASE && _); [done|].
  destruct (negb RELEASE && _); [done|].
  injection Hret as <-.
  transitivity
    (accumulate Shift LocalLength header (da_payload a)
       <$> _localToGlobalMat st); [reflexivity|].
  rewrite HY. exact (f_equal Some Hacc).
Qed.

(** X18.  A put arrives: let [m] be the message that the loop of
    [AxpyLocalToGlobal] sends for the slot [(row, col)] of an r x c grid,
    for the local matrix [X] and the header [(i, j, height, width, alpha)].
    When the process at [(row, col)], whose target [Y] has the alignments
    that the sender used, gets [m] and [HandleLocalToGlobalData] returns,
    then the entry [(iLocalOffset + s, jLocalOffset + t)] of its local
    matrix has grown by [alpha] times the entry
    [(colShift + s*r, rowShift + t*c)] of [X], for all [s < localHeight],
    [t < localWidth] whose entry lies in the buffer. *)
Theorem put_adds_alpha_times_sender_entries
    {T : Type} {ST : Scalar T} (Shift LocalLength : Z -> Z -> Z -> Z)
    (RELEASE : bool) (Test : Request -> bool)
    (header : LocalToGlobalHeader T) (X : Matrix T) (r c row col : Z)
    (sender : State T) (m : Send T)
    (a : DataArrival T) (st st' : State T) (Y : DistMatrix T) :
  let colAlignment := Z.rem (ColAlignment Y + lg_i header) r in
  let rowAlignment := Z.rem (RowAlignment Y + lg_j header) c in
  let colShift := Shift row colAlignment r in
  let rowShift := Shift col rowAlignment c in
  let localHeight := LocalLength (lg_height header) colShift r in
  let localWidth := LocalLength (lg_width header) rowShift c in
  let iLocalOffset := LocalLength (lg_i header) (ColShift Y) r in
  let jLocalOffset := LocalLength (lg_j header) (RowShift Y) c in
  let A := LocalMatrix Y in
  m ∈ new_sends sender
        (final_state
           (AxpyLocalToGlobal_slot Shift LocalLength RELEASE Test header X
              r c colAlignment rowAlignment row col sender)) ->
  _localToGlobalMat st = Some Y ->
  dGrid Y = {| gHeight := r; gWidth := c; MCRank := row; MRRank := col |} ->
  snd_body m = DataMsg (da_header a) (da_payload a) ->
  HandleLocalToGlobalData Shift LocalLength RELEASE (Some a) st
  = Returned tt st' ->
  localHeight <= LDim A ->
  exists A',
    _localToGlobalMat st' = Some (with_LocalMatrix (fun _ => A') Y)
    /\ forall s t,
         0 <= s < localHeight -> 0 <= t < localWidth ->
         0 <= mOffset A (iLocalOffset + s) (jLocalOffset + t)
           < vsize (mBuffer A) ->
         mRead A' (mOffset A (iLocalOffset + s) (jLocalOffset + t))
         = Tadd (mRead A (mOffset A (iLocalOffset + s) (jLocalOffset + t)))
             (Tmul (lg_alpha header)
                (mRead X (mOffset X (colShift + s * r) (rowShift + t * c)))).
Proof.
  intros colAlignment rowAlignment colShift rowShift localHeight localWidth
    iLocalOffset jLocalOffset A Hm HY Hg Hbody Hret Hh.
  assert (Hmsg : m = slot_message Shift LocalLength header X r c colAlignment
                       rowAlignment (row, col)).
  { rewrite AxpyLocalToGlobal_slot_post in Hm.
    destruct (slot_owns _ _ _ _ _ _ _ _).
    - destruct (post_frame RELEASE Test Data
                  (snd_dest (slot_message Shift LocalLength header X r c
                               colAlignment rowAlignment (row, col)))
                  (snd_count (slot_message Shift LocalLength header X r c
                                colAlignment rowAlignment (row, col)))
                  (snd_body (slot_message Shift LocalLength header X r c
                               colAlignment rowAlignment (row, col)))
                  DATA_TAG sender) as [_ [[Hlog _]|[Hlog _]]];
        unfold new_sends in Hm; rewrite Hlog in Hm.
      + rewrite drop_all in Hm. by apply elem_of_nil in Hm.
      + rewrite drop_app_length in Hm. by apply list_elem_of_singleton in Hm.
    - unfold new_sends in Hm. simpl in Hm. rewrite drop_all in Hm.
      by apply elem_of_nil in Hm. }
  rewrite Hmsg in Hbody. simpl in Hbody.
  injection Hbody as Hheader Hpayload.
  pose proof (accumulate_entries Shift LocalLength (da_header a)
                (da_payload a) Y) as Hacc.
  cbv zeta in Hacc. rewrite <- Hheader, !Hg in Hacc.
  cbn [gHeight gWidth MCRank MRRank] in Hacc.
  destruct (Hacc Hh) as (Heq & _ & _ & _ & _ & Hat & _).
  exists (LocalMatrix
            (accumulate Shift LocalLength header (da_payload a) Y)).
  split.
  - unfold HandleLocalToGlobalData in Hret.
    destruct (negb RELEASE && _); [done|].
    destruct (negb RELEASE && _); [done|].
    destruct (negb RELEASE && _); [done|].
    injection Hret as <-.
    transitivity
      (accumulate Shift LocalLength (da_header a) (da_payload a)
         <$> _localToGlobalMat st); [reflexivity|].
    rewrite HY, <- Hheader. exact (f_equal Some Heq).
  - intros s t Hs Ht Hk.
    etransitivity; [exact (Hat s t Hs Ht Hk)|]. f_equal. f_equal.
    rewrite <- Hpayload. by apply vat_data_payload.
Qed.


(** X19.  A get is answered: let [m] be the message that
    [HandleGlobalToLocalRequest] sends in answer to the request
    [(i, j, height, width)], on the process at [(myRow, myCol)] of an r x c
    grid that holds the local matrix [A] of the source.  When the reply
    arrives at a requester whose view [X] of the source has the grid
    dimensions and alignments of the owner, the part "Unpack the local
    matrix" of [AxpyGlobalToLocal] adds to the entry
    [(colShift + s*r, rowShift + t*c)] of the destination [Y] the number
    [alpha] times the entry [(iLocalOffset + s, jLocalOffset + t)] of [A],
    for all [s < localHeight], [t < localWidth] whose entry lies in the
    buffer of [Y]; the rows [colShift + s*r] are taken to lie within the
    leading dimension of [Y]. *)
Theorem get_adds_alpha_times_owner_entries
    {T : Type} {ST : Scalar T} (Shift LocalLength : Z -> Z -> Z -> Z)
    (RELEASE : bool) (Test : Request -> bool)
    (source i j height width : Z) (owner : State T) (m : Send T)
    (alpha : T) (X : DistMatrix T) (a : ReplyArrival T) (Y : Matrix T) :
  let XO := deref (_globalToLocalMat owner) in
  let A := LocalMatrix XO in
  let r := gHeight (dGrid XO) in
  let c := gWidth (dGrid XO) in
  let colShift :=
    Shift (MCRank (dGrid XO)) (Z.rem (ColAlignment XO + i) r) r in
  let rowShift :=
    Shift (MRRank (dGrid XO)) (Z.rem (RowAlignment XO + j) c) c in
  let localHeight := LocalLength height colShift r in
  let localWidth := LocalLength width rowShift c in
  let iLocalOffset := LocalLength i (ColShift XO) r in
  let jLocalOffset := LocalLength j (RowShift XO) c in
  let Y' := unpack_reply Shift LocalLength alpha X i j height width a Y in
  m ∈ new_sends owner
        (final_state
           (HandleGlobalToLocalRequest Shift LocalLength RELEASE Test
              (Some {| ra_source := source;
                       ra_header := {| rq_i := i; rq_j := j;
                                       rq_height := height;
                                       rq_width := width |} |}) owner)) ->
  snd_body m = ReplyMsg (pa_header a) (pa_payload a) ->
  gHeight (dGrid X) = r -> gWidth (dGrid X) = c ->
  ColAlignment X = ColAlignment XO -> RowAlignment X = RowAlignment XO ->
  0 < r -> 0 < c -> 0 <= colShift ->
  (forall s, 0 <= s < localHeight -> colShift + s * r < LDim Y) ->
  snd_dest m = source
  /\ forall s t,
       0 <= s < localHeight -> 0 <= t < localWidth ->
       0 <= mOffset Y (colShift + s * r) (rowShift + t * c)
         < vsize (mBuffer Y) ->
       mRead Y' (mOffset Y (colShift + s * r) (rowShift + t * c))
       = Tadd (mRead Y (mOffset Y (colShift + s * r) (rowShift + t * c)))
           (Tmul alpha
              (mRead A (mOffset A (iLocalOffset + s) (jLocalOffset + t)))).
Proof.
  intros XO A r c colShift rowShift localHeight localWidth iLocalOffset
    jLocalOffset Y' Hm Hbody Hgh Hgw Hca Hra Hr Hc Hcs Hfit.
  assert (Hmsg :
            m = wire source
                  (localHeight * localWidth * Z.pos sizeof_T
                   + sizeof_GlobalToLocalReplyHeader)
                  (ReplyMsg
                     {| processRow := MCRank (dGrid XO);
                        processCol := MRRank (dGrid XO) |}
                     (reply_payload A localHeight localWidth iLocalOffset
                        jLocalOffset))
                  DATA_REPLY_TAG).
  { unfold HandleGlobalToLocalRequest in Hm. cbv zeta in Hm.
    cbn [ra_source ra_header rq_i rq_j rq_height rq_width] in Hm.
    match type of Hm with
    | context [bind (on_Channel Reply ?s (ReadyForSend _ _ ?size)) _ ?st1] =>
        change (bind (on_Channel Reply s (ReadyForSend RELEASE Test size)) _
                  st1)
          with (post RELEASE Test Reply s size
                  (ReplyMsg
                     {| processRow := MCRank (dGrid XO);
                        processCol := MRRank (dGrid XO) |}
                     (reply_payload A localHeight localWidth iLocalOffset
                        jLocalOffset))
                  DATA_REPLY_TAG st1) in Hm;
        destruct (post_frame RELEASE Test Reply s size
                    (ReplyMsg
                       {| processRow := MCRank (dGrid XO);
                          processCol := MRRank (dGrid XO) |}
                       (reply_payload A localHeight localWidth iLocalOffset
                          jLocalOffset))
                    DATA_REPLY_TAG st1) as [_ [[Hlog _]|[Hlog _]]]
    end; unfold new_sends in Hm; rewrite Hlog in Hm; simpl in Hm.
    - rewrite drop_all in Hm. by apply elem_of_nil in Hm.
    - rewrite drop_app_length in Hm. by apply list_elem_of_singleton in Hm. }
  rewrite Hmsg in Hbody. simpl in Hbody.
  injection Hbody as Hheader Hpayload.
  split; [by rewrite Hmsg|].
  pose proof (unpack_reply_entries Shift LocalLength alpha X i j height width
                a Y) as Hu.
  cbv zeta in Hu. rewrite <- Hheader, !Hgh, !Hgw, Hca, Hra in Hu.
  cbn [processRow processCol] in Hu.
  destruct (Hu Hr Hc Hcs Hfit) as (_ & _ & _ & _ & Hat & _).
  intros s t Hs Ht Hk.
  etransitivity; [exact (Hat s t Hs Ht Hk)|]. f_equal. f_equal.
  rewrite <- Hpayload. by apply vat_reply_payload.
Qed.


(** ** The sends of Detach *)

Lemma filter_all {A} (P : A -> Prop) `{forall x, Decision (P x)}
    (l : list A) :
  Forall P l -> filter P l = l.
Proof.
  induction 1 as [|x l Hx _ IH]; [done|].
  by rewrite filter_cons, decide_True, IH.
Qed.

Section Detach_sends.

Context {T : Type} {ST : Scalar T}.
Variable Shift : Z -> Z -> Z -> Z.
Variable LocalLength : Z -> Z -> Z -> Z.
Variable RELEASE : bool.
Implicit Types (st : State T).

Local Abbreviation is_eom := (fun m : Send T => snd_tag m = EOM_TAG).
Local Abbreviation is_reply := (fun m : Send T => snd_tag m = DATA_REPLY_TAG).

(** The first call in the body of the loop of [Detach]: the handler of
    the mode. *)
Lemma Detach_round_handler tk st s0 :
  (if _attachedForLocalToGlobal st
   then HandleLocalToGlobalData Shift LocalLength RELEASE (tk_data tk)
   else HandleGlobalToLocalRequest Shift LocalLength RELEASE (tk_Test tk)
          (tk_request tk)) st = Returned tt s0 ->
  exists replies,
    mpi_sent s0 = mpi_sent st ++ replies
    /\ Forall is_reply replies
    /\ (_attachedForLocalToGlobal st = true -> replies = [])
    /\ _sentEomTo s0 = _sentEomTo st
    /\ attached_Grid s0 = attached_Grid st.
Proof.
  destruct (_attachedForLocalToGlobal st) eqn:Hmode.
  - intros H. exists []. rewrite app_nil_r.
    assert (mpi_sent s0 = mpi_sent st /\ _sentEomTo s0 = _sentEomTo st
            /\ attached_Grid s0 = attached_Grid st) as (-> & -> & ->);
      [|by repeat constructor].
    unfold HandleLocalToGlobalData in H.
    destruct (tk_data tk) as [a|]; [|by injection H as <-].
    destruct (negb RELEASE && _); [done|].
    destruct (negb RELEASE && _); [done|].
    destruct (negb RELEASE && _); [done|].
    injection H as <-. split; [done|]. split; [done|].
    unfold attached_Grid. simpl. rewrite Hmode.
    by destruct (_localToGlobalMat st).
  - intros H. unfold HandleGlobalToLocalRequest in H.
    destruct (tk_request tk) as [a|].
    + cbv zeta in H.
      match type of H with
      | bind (on_Channel Reply ?s (ReadyForSend _ ?Test ?size))
          (fun index =>
             bind (modify (pack_into Reply _ index ?body)) _) ?st1 = _ =>
          change (post RELEASE Test Reply s size body DATA_REPLY_TAG st1
                  = Returned tt s0) in H;
          destruct (post_frame RELEASE Test Reply s size body DATA_REPLY_TAG
                      st1) as [Hrest [[_ Hret]|[Hlog _]]]
      end.
      * rewrite H in Hret. done.
      * rewrite H in Hrest, Hlog. simpl in Hrest, Hlog.
        eexists. split; [exact Hlog|]. split; [by repeat constructor|].
        split; [done|].
        unfold rest_of_State in Hrest. simpl in Hrest.
        injection Hrest as H1 H2 H3 H4 H5 H6 H7 H8.
        split; [done|]. unfold attached_Grid. by rewrite H1, H3, H4.
    + injection H as <-. exists []. rewrite app_nil_r.
      by repeat constructor.
Qed.

(** One round of the loop of [Detach]. *)
Lemma Detach_round_sends tk st s1 :
  Detach_round Shift LocalLength RELEASE tk st = Returned tt s1 ->
  exists sends L,
    mpi_sent s1 = mpi_sent st ++ sends
    /\ filter is_eom sends = eom_token <$> L
    /\ Forall (fun m => is_eom m \/ is_reply m) sends
    /\ (_attachedForLocalToGlobal st = true -> Forall is_eom sends)
    /\ NoDup L
    /\ (forall X, X ∈ L ->
          0 <= X < gSize (attached_Grid st)
          /\ vat (_sentEomTo st) X = false
          /\ (0 <= X < vsize (_sentEomTo st) ->
              vat (_sentEomTo s1) X = true))
    /\ (forall X, vat (_sentEomTo st) X = true ->
                  vat (_sentEomTo s1) X = true)
    /\ (forall X, vat (_sentEomTo s1) X = true ->
                  vat (_sentEomTo st) X = true \/ X ∈ L)
    /\ vsize (_sentEomTo s1) = vsize (_sentEomTo st).
Proof.
  unfold Detach_round, bind.
  destruct ((if _attachedForLocalToGlobal st
             then HandleLocalToGlobalData Shift LocalLength RELEASE
                    (tk_data tk)
             else HandleGlobalToLocalRequest Shift LocalLength RELEASE
                    (tk_Test tk) (tk_request tk)) st)
    as [[] s0|e s0|s0] eqn:E; [|done..].
  apply Detach_round_handler in E
    as (replies & Hlog0 & Hreplies & Hput & Hsent0 & Hgrid0).
  intros H.
  destruct (HandleEoms_tokens (tk_TestEom tk) (tk_eom tk) s0)
    as (L & _ & Hnd & HL & Hmono & Hsize & _ & _ & Hlog & Hmarks).
  rewrite H in *. simpl in *. rewrite Hsent0, Hgrid0 in *.
  exists (replies ++ (eom_token <$> L)), L.
  split; [by rewrite Hlog, Hlog0, <- app_assoc|].
  assert (Htokens : Forall is_eom (eom_token <$> L : list (Send T))).
  { apply Forall_fmap, Forall_forall. by intros X _. }
  split.
  { rewrite filter_app, (filter_all _ _ Htokens).
    rewrite (filter_none (fun m : Send T => snd_tag m = EOM_TAG) replies);
      [done|].
    intros m Hm Heom. rewrite Forall_forall in Hreplies.
    specialize (Hreplies m Hm). simpl in Hreplies.
    by rewrite Hreplies in Heom. }
  split.
  { apply Forall_app. split.
    - eapply Forall_impl; [exact Hreplies|]. by right.
    - eapply Forall_impl; [exact Htokens|]. by left. }
  split; [intros Hmode; by rewrite (Hput Hmode)|].
  split; [done|]. split.
  { intros X HX. destruct (HL X HX) as (? & ? & _ & ?). done. }
  done.
Qed.

(** The loop of [Detach], left by [Finished]. *)
Lemma Detach_drain_sends ticks :
  forall st st_d,
    (Z.to_nat (gSize (attached_Grid st)) <= length (_sentEomTo st))%nat ->
    Detach_drain Shift LocalLength RELEASE ticks st = Returned tt st_d ->
    exists sends L,
      mpi_sent st_d = mpi_sent st ++ sends
      /\ filter is_eom sends = eom_token <$> L
      /\ Forall (fun m => is_eom m \/ is_reply m) sends
      /\ (_attachedForLocalToGlobal st = true -> Forall is_eom sends)
      /\ NoDup L
      /\ (forall X, X ∈ L ->
            0 <= X < gSize (attached_Grid st)
            /\ vat (_sentEomTo st) X = false)
      /\ (forall X, vat (_sentEomTo st_d) X = true ->
                    vat (_sentEomTo st) X = true \/ X ∈ L).
Proof.
  induction ticks as [|tk ticks IH]; intros st st_d Hp; simpl;
    unfold bind, Finished.
  - destruct (negb RELEASE && _ && _); [done|].
    destruct (Finished_loop _ st); [|done].
    unfold ret. intros [= <-]. exists [], []. rewrite app_nil_r.
    split; [done|]. split; [done|]. split; [constructor|].
    split; [constructor|]. split; [constructor|].
    split; [intros X H; by apply elem_of_nil in H|]. intros X H. by left.
  - destruct (negb RELEASE && _ && _); [done|].
    destruct (Finished_loop _ st).
    + unfold ret. intros [= <-]. exists [], []. rewrite app_nil_r.
      split; [done|]. split; [done|]. split; [constructor|].
      split; [constructor|]. split; [constructor|].
      split; [intros X H; by apply elem_of_nil in H|]. intros X H. by left.
    + destruct (Detach_round_mode Shift LocalLength RELEASE tk st)
        as (Hm1 & _ & Hg1).
      destruct (Detach_round _ _ _ tk st) as [[] s1|e s1|s1] eqn:E;
        [|done..].
      simpl in Hm1, Hg1.
      apply Detach_round_sends in E
        as (sends1 & L1 & Hlog1 & Hf1 & Hk1 & Hput1 & Hnd1 & HL1 & Hmono1
            & Hmarks1 & Hsize1).
      intros H. apply IH in H
        as (sends2 & L2 & Hlog2 & Hf2 & Hk2 & Hput2 & Hnd2 & HL2 & Hmarks2).
      2:{ rewrite Hg1. unfold vsize in Hsize1. lia. }
      exists (sends1 ++ sends2), (L1 ++ L2).
      split; [by rewrite Hlog2, Hlog1, <- app_assoc|].
      split; [by rewrite filter_app, fmap_app, Hf1, Hf2|].
      split; [by apply Forall_app|].
      split.
      { intros Hmode. apply Forall_app. split; [by apply Hput1|].
        apply Hput2. by rewrite Hm1. }
      split.
      { apply NoDup_app. split; [done|]. split; [|done].
        intros X HX1 HX2. destruct (HL1 X HX1) as (Hr & _ & Hset).
        destruct (HL2 X HX2) as (_ & Hf). rewrite Hset in Hf; [done|].
        unfold vsize. lia. }
      split.
      { intros X HX. apply elem_of_app in HX as [HX|HX].
        - destruct (HL1 X HX) as (? & ? & _). done.
        - destruct (HL2 X HX) as (Hr & Hf). rewrite Hg1 in Hr.
          split; [done|].
          destruct (vat (_sentEomTo st) X) eqn:E; [|done].
          rewrite (Hmono1 X E) in Hf. done. }
      intros X HX. rewrite elem_of_app.
      destruct (Hmarks2 X HX) as [H1|H2]; [|by right; right].
      destruct (Hmarks1 X H1) as [?|?]; [by left|by right; left].
Qed.

End Detach_sends.

(** X20.  [Detach] sends each missing End-Of-Message exactly once: when
    [Detach] returns, the End-Of-Message tokens among its sends go to
    pairwise distinct ranks, and these are just the ranks of the grid
    whose token was not marked as sent at the call.  Whatever else it has
    sent is a reply to a read request; and on an object attached for
    LOCAL_TO_GLOBAL there is nothing else. *)
Theorem Detach_sends_each_missing_eom_once {T : Type} {ST : Scalar T}
    (Shift LocalLength : Z -> Z -> Z -> Z) (RELEASE : bool)
    (ticks : list (Tick T)) (st st' : State T) :
  (Z.to_nat (gSize (attached_Grid st)) <= length (_sentEomTo st))%nat ->
  Detach Shift LocalLength RELEASE ticks st = Returned tt st' ->
  exists L,
    filter (fun m => snd_tag m = EOM_TAG) (new_sends st st')
    = eom_token <$> L
    /\ NoDup L
    /\ (forall X, X ∈ L <-> 0 <= X < gSize (attached_Grid st)
                            /\ vat (_sentEomTo st) X = false)
    /\ Forall (fun m => snd_tag m = EOM_TAG \/ snd_tag m = DATA_REPLY_TAG)
         (new_sends st st')
    /\ (_attachedForLocalToGlobal st = true ->
        new_sends st st' = eom_token <$> L).
Proof.
  intros Hp H. destruct (Detach_returned _ _ _ _ _ _ H) as (st_d & Hd & ->).
  destruct (Detach_drain_returned _ _ _ _ _ _ Hd) as (Hall & _ & _ & Hg).
  destruct (Detach_drain_sends _ _ _ _ _ _ Hp Hd)
    as (sends & L & Hlog & Hf & Hk & Hput & Hnd & HL & Hmarks).
  assert (Hnew : new_sends st (Detach_clear st_d) = sends).
  { unfold new_sends. simpl. by rewrite Hlog, drop_app_length. }
  rewrite Hnew. exists L. split; [done|]. split; [done|]. split.
  - intros X. split; [apply HL|]. intros [Hr Hfalse].
    destruct (Hall X) as [Hsent _]; [by rewrite Hg|].
    destruct (Hmarks X Hsent) as [Htrue|?]; [congruence|done].
  - split; [done|]. intros Hmode.
    by rewrite <- Hf, (filter_all _ _ (Hput Hmode)).
Qed.

(** * The further properties at concrete inputs *)

(** X1 at work: the first [Attach] of a fresh object, to a 4 x 4 matrix on
    a 2 x 2 grid. *)
Lemma Attach_starts_pristine_witness :
  exists st',
    Attach LOCAL_TO_GLOBAL (zeros 4 4 2 2 0 0) AxpyInterface_new
    = Returned tt st'
    /\ pristine (Z.to_nat (gSize (dGrid (zeros 4 4 2 2 0 0)))) st'
    /\ attached_Grid st' = dGrid (zeros 4 4 2 2 0 0).
Proof.
  destruct (Attach_starts_pristine LOCAL_TO_GLOBAL (zeros 4 4 2 2 0 0)
              AxpyInterface_new)
    as (st' & Heq & Hp & _ & _ & _ & Hg & _).
  - reflexivity.
  - repeat (split; [reflexivity|]). intros []; repeat split.
  - exists st'. split; [exact Heq|]. split; [exact Hp|exact Hg].
Defined.

(** X2 at work: right after [Attach]. *)
Lemma Finished_iff_all_eoms_exchanged_witness :
  exists finished,
    Finished false (attached_for_put (zeros 2 1 2 1 0 0))
    = Returned finished (attached_for_put (zeros 2 1 2 1 0 0))
    /\ (finished = true
        <-> all_eoms_exchanged (attached_for_put (zeros 2 1 2 1 0 0))).
Proof.
  apply (Finished_iff_all_eoms_exchanged false
           (attached_for_put (zeros 2 1 2 1 0 0))).
  reflexivity.
Defined.

(** X3 at work: the [Detach] of [detached]. *)
Lemma Detach_returns_only_when_finished_witness :
  exists st_d,
    Detach_drain utilities.Shift utilities.LocalLength false [eom_round]
      (attached_for_put (zeros 4 4 1 1 0 0)) = Returned tt st_d
    /\ all_eoms_exchanged st_d
    /\ attached_Grid st_d
       = attached_Grid (attached_for_put (zeros 4 4 1 1 0 0))
    /\ detached = Detach_clear st_d
    /\ attached detached = false
    /\ cleared detached.
Proof.
  apply (Detach_returns_only_when_finished utilities.Shift
           utilities.LocalLength false [eom_round]
           (attached_for_put (zeros 4 4 1 1 0 0)) detached).
  vm_compute. reflexivity.
Defined.

(** X4 at work: [Detach] on a fresh object. *)
Lemma Detach_usage_error_witness :
  Detach utilities.Shift utilities.LocalLength false [eom_round]
    AxpyInterface_new
  = Thrown (logic_error "Must attach before detaching.") AxpyInterface_new.
Proof.
  apply (Detach_usage_error utilities.Shift utilities.LocalLength false
           [eom_round] (AxpyInterface_new (T := Z))).
  reflexivity.
Defined.

(** X5 at work: [detached] is attached again, for get. *)
Lemma Detach_then_Attach_witness :
  (exists st'',
      Attach GLOBAL_TO_LOCAL (counting 4 4 2 2 0 0) detached
      = Returned tt st''
      /\ pristine (Z.to_nat (gSize (dGrid (counting 4 4 2 2 0 0)))) st''
      /\ pools_aligned st''
      /\ attached st'' = true
      /\ mpi_sent st'' = mpi_sent detached)
  /\ forall ticks',
       Detach utilities.Shift utilities.LocalLength false ticks' detached
       = Thrown (logic_error "Must attach before detaching.") detached.
Proof.
  apply (Detach_then_Attach utilities.Shift utilities.LocalLength false
           [eom_round] (attached_for_put (zeros 4 4 1 1 0 0)) detached
           GLOBAL_TO_LOCAL (counting 4 4 2 2 0 0)).
  vm_compute. reflexivity.
Defined.

(** X6 at work: on a fresh object both overloads of [Axpy] throw. *)
Lemma Axpy_usage_errors_witness :
  Axpy_const utilities.Shift utilities.LocalLength false never_complete 1
    (local 1 1 [5]) 0 0 AxpyInterface_new
  = Thrown (logic_error "Cannot axpy before attaching.") AxpyInterface_new
  /\ Axpy utilities.Shift utilities.LocalLength false never_complete
       [get_round] 1 0 0 (AxpyInterface_new, local 1 1 [5])
     = Thrown (logic_error "Cannot axpy before attaching.")
         (AxpyInterface_new, local 1 1 [5]).
Proof.
  destruct (Axpy_usage_errors utilities.Shift utilities.LocalLength false
              never_complete [get_round] 1 (local 1 1 [5]) 0 0
              AxpyInterface_new) as [_ H].
  - reflexivity.
  - apply H. reflexivity.
Defined.

(** X7 at work: the first [HandleEoms] after [Attach] on a 2 x 1 grid. *)
Lemma HandleEoms_sends_each_token_once_witness :
  let st := attached_for_put (zeros 2 1 2 1 0 0) in
  let st' := final_state (HandleEoms never_complete None st) in
  exists L,
    new_sends st st' = eom_token <$> L
    /\ NoDup L
    /\ (forall X, X ∈ L ->
          0 <= X < gSize (attached_Grid st)
          /\ vat (_sentEomTo st) X = false
          /\ vat (_sentEomTo st') X = true)
    /\ (forall X, vat (_sentEomTo st) X = true ->
                  (X ∉ L) /\ vat (_sentEomTo st') X = true).
Proof.
  intros st.
  apply (HandleEoms_sends_each_token_once never_complete None st).
  vm_compute. lia.
Defined.

(** X8 at work: the same call, for the rank 1. *)
Lemma HandleEoms_sends_token_when_idle_witness :
  let st := attached_for_put (zeros 2 1 2 1 0 0) in
  vat (_sentEomTo (final_state (HandleEoms never_complete None st))) 1 = true
  \/ ~ no_send_in_flight 1
         (final_state (UpdateRequestStatuses never_complete st)).
Proof.
  intros st.
  apply (HandleEoms_sends_token_when_idle never_complete None st 1).
  - vm_compute. split; [discriminate|reflexivity].
  - vm_compute. lia.
Defined.

(** X9 at work: the End-Of-Message of rank 1 arrives. *)
Lemma HandleEoms_records_arrival_witness :
  let st := attached_for_put (zeros 2 1 2 1 0 0) in
  let st' := final_state (HandleEoms never_complete (Some 1) st) in
  vat (_haveEomFrom st') 1 = true
  /\ (forall X, X <> 1 ->
        vat (_haveEomFrom st') X = vat (_haveEomFrom st) X)
  /\ _haveEomFrom (final_state (HandleEoms never_complete None st))
     = _haveEomFrom st.
Proof.
  intros st.
  apply (HandleEoms_records_arrival never_complete 1 st).
  vm_compute. split; [discriminate|reflexivity].
Defined.

(** X11 at work: of the two slots of [two_slots] the second is taken. *)
Lemma ReadyForSend_takes_first_free_slot_witness :
  let ch' := final_state (ReadyForSend false never_complete 64 two_slots) in
  0 <= 1 <= vsize (sendVectors two_slots)
  /\ (forall k, (k < Z.to_nat 1)%nat -> in_flight never_complete two_slots k)
  /\ (1 < vsize (sendVectors two_slots) ->
      ~ in_flight never_complete two_slots (Z.to_nat 1))
  /\ (forall k, k <> Z.to_nat 1 ->
        (k < length (sendVectors two_slots))%nat ->
        sendVectors ch' !! k = sendVectors two_slots !! k
        /\ requests ch' !! k = requests two_slots !! k
        /\ requestStatuses ch' !! k = requestStatuses two_slots !! k)
  /\ (1 < vsize (sendVectors two_slots) ->
      requests ch' !! Z.to_nat 1 = requests two_slots !! Z.to_nat 1).
Proof.
  intros ch'.
  apply (ReadyForSend_takes_first_free_slot false never_complete 64
           two_slots ch' 1).
  - split; reflexivity.
  - vm_compute. reflexivity.
Defined.

(** X12 at work: the pools of an object right after [Attach]. *)
Lemma pools_stay_aligned_witness :
  let st := attached_for_put (zeros 4 4 2 2 0 0) in
  (forall Test alpha X i j st',
      AxpyLocalToGlobal utilities.Shift utilities.LocalLength false Test
        alpha X i j st = Returned tt st' -> pools_aligned st')
  /\ (forall Test haveEom,
         pools_aligned (final_state (HandleEoms Test haveEom st))).
Proof.
  intros st.
  destruct (pools_stay_aligned utilities.Shift utilities.LocalLength false st)
    as (Hput & _ & _ & _ & _ & Heoms).
  - intros []; split; reflexivity.
  - split; [exact Hput|exact Heoms].
Defined.

(** X13 at work: the put of a 2 x 2 block at [(0, 0)] of a 4 x 4 matrix
    on a 2 x 2 grid marks a send to each of the four ranks. *)
Lemma AxpyLocalToGlobal_postpones_eom_witness :
  let st := attached_for_put (zeros 4 4 2 2 0 0) in
  let X := local 2 2 [1; 2; 3; 4] in
  exists st',
    AxpyLocalToGlobal utilities.Shift utilities.LocalLength false
      never_complete 1 X 0 0 st = Returned tt st'
    /\ forall row col,
         0 <= row < 2 -> 0 <= col < 2 ->
         utilities.LocalLength (mHeight X)
           (utilities.Shift row
              (Z.rem (ColAlignment (zeros 4 4 2 2 0 0) + 0) 2) 2) 2
         * utilities.LocalLength (mWidth X)
             (utilities.Shift col
                (Z.rem (RowAlignment (zeros 4 4 2 2 0 0) + 0) 2) 2) 2 <> 0 ->
         true ∈ vat (_sendingData st') (row + 2 * col)
         /\ ~ no_send_in_flight (row + 2 * col) st'
         /\ forall Test' haveEom,
              (forall request, Test' request = false) ->
              eom_token (row + 2 * col)
                ∉ new_sends st' (final_state (HandleEoms Test' haveEom st')).
Proof.
  intros st X.
  apply (AxpyLocalToGlobal_postpones_eom utilities.Shift
           utilities.LocalLength false never_complete 1 X 0 0 st
           (zeros 4 4 2 2 0 0) 2 2 0 0).
  - reflexivity.
  - reflexivity.
  - lia.
  - lia.
  - lia.
  - lia.
  - intros []; split; reflexivity.
  - vm_compute. discriminate.
  - intros n shift. split; apply utilities_LocalLength_nonneg; lia.
  - lia.
  - lia.
  - simpl. lia.
  - simpl. lia.
  - unfold fits_int, INT_MIN, INT_MAX. simpl. lia.
  - unfold fits_int, INT_MIN, INT_MAX. simpl. lia.
  - intros row col Hrow Hcol.
    assert (row = 0 \/ row = 1) as [-> | ->] by lia;
      (assert (col = 0 \/ col = 1) as [-> | ->] by lia);
      vm_compute; split; discriminate.
Defined.

(** X14 at work: a request from rank 3 is serviced. *)
Lemma HandleGlobalToLocalRequest_marks_reply_witness :
  let st := attached_for_get (counting 4 4 2 2 0 0) in
  exists st' index m,
    HandleGlobalToLocalRequest utilities.Shift utilities.LocalLength false
      never_complete
      (Some {| ra_source := 3;
               ra_header := {| rq_i := 0; rq_j := 0; rq_height := 2;
                               rq_width := 2 |} |}) st
    = Returned tt st'
    /\ new_sends st st' = [m]
    /\ snd_dest m = 3 /\ snd_tag m = DATA_REPLY_TAG
    /\ vat (vat (_sendingReply st') 3) index = true
    /\ vat (vat (_replyVectors st') 3) index
       = {| buf_size := snd_count m; buf_content := snd_body m |}
    /\ vat (vat (_replySendRequests st') 3) index = mpi_next st
    /\ forall Test' haveEom,
         (forall request, Test' request = false) ->
         eom_token 3
           ∉ new_sends st' (final_state (HandleEoms Test' haveEom st')).
Proof.
  intros st.
  apply (HandleGlobalToLocalRequest_marks_reply utilities.Shift
           utilities.LocalLength false never_complete 3 0 0 2 2 st).
  - intros []; split; reflexivity.
  - vm_compute. split; [discriminate|reflexivity].
  - intros n shift. split; apply utilities_LocalLength_nonneg; simpl; lia.
  - vm_compute. split; discriminate.
Defined.

(** X15 at work: the get [got] on a 1 x 1 grid has seen its one reply. *)
Lemma AxpyGlobalToLocal_returns_after_all_replies_witness :
  let st := attached_for_get (counting 4 4 1 1 0 0) in
  let Y := local 1 1 [0] in
  let X := deref (_globalToLocalMat st) in
  let p := Z.to_nat (gSize (dGrid X)) in
  (p <= length (omap tk_reply [get_round]))%nat
  /\ snd got
     = foldl (fun Y1 a =>
                unpack_reply utilities.Shift utilities.LocalLength 1 X 0 0
                  (mHeight Y) (mWidth Y) a Y1)
         Y (take p (omap tk_reply [get_round])).
Proof.
  intros st Y.
  apply (AxpyGlobalToLocal_returns_after_all_replies utilities.Shift
           utilities.LocalLength false never_complete [get_round] 1 0 0
           st (fst got) Y (snd got)).
  vm_compute. reflexivity.
Defined.

(** X16 at work: the same get sends its request to the only rank. *)
Lemma AxpyGlobalToLocal_asks_every_process_witness :
  let st := attached_for_get (counting 4 4 1 1 0 0) in
  let Y := local 1 1 [0] in
  let X := deref (_globalToLocalMat st) in
  let header := {| rq_i := 0; rq_j := 0; rq_height := mHeight Y;
                   rq_width := mWidth Y |} in
  exists sy' replies,
    AxpyGlobalToLocal utilities.Shift utilities.LocalLength false
      never_complete [get_round] 1 0 0 (st, Y)
    = Returned tt sy'
    /\ new_sends st (fst sy')
       = ((fun rank =>
             wire rank sizeof_GlobalToLocalRequestHeader (RequestMsg header)
               DATA_REQUEST_TAG) <$> upto (gSize (dGrid X)))
         ++ replies
    /\ Forall (fun m => snd_tag m = DATA_REPLY_TAG) replies.
Proof.
  intros st Y.
  apply (AxpyGlobalToLocal_asks_every_process utilities.Shift
           utilities.LocalLength false never_complete [get_round] 1 0 0
           st Y).
  - intros []; split; reflexivity.
  - vm_compute. discriminate.
  - vm_compute. discriminate.
  - vm_compute. split; discriminate.
  - vm_compute. split; discriminate.
  - intros n shift. split; apply utilities_LocalLength_nonneg; simpl; lia.
  - vm_compute. lia.
  - intros tk a Htk. apply list_elem_of_singleton in Htk as ->.
    intros [= <-]. vm_compute. split; discriminate.
Defined.

(** X17 at work: [block_update] arrives at the only process of a 1 x 1
    grid. *)
Lemma HandleLocalToGlobalData_adds_payload_witness :
  let a := block_update in
  let Y := zeros 4 4 1 1 0 0 in
  let st := attached_for_put Y in
  let st' :=
    final_state
      (HandleLocalToGlobalData utilities.Shift utilities.LocalLength false
         (Some a) st) in
  let header := da_header a in
  let A := LocalMatrix Y in
  let r := gHeight (dGrid Y) in
  let c := gWidth (dGrid Y) in
  let colShift :=
    utilities.Shift (MCRank (dGrid Y))
      (Z.rem (ColAlignment Y + lg_i header) r) r in
  let rowShift :=
    utilities.Shift (MRRank (dGrid Y))
      (Z.rem (RowAlignment Y + lg_j header) c) c in
  let localHeight := utilities.LocalLength (lg_height header) colShift r in
  let localWidth := utilities.LocalLength (lg_width header) rowShift c in
  let iLocalOffset := utilities.LocalLength (lg_i header) (ColShift Y) r in
  let jLocalOffset := utilities.LocalLength (lg_j header) (RowShift Y) c in
  exists A',
    _localToGlobalMat st' = Some (with_LocalMatrix (fun _ => A') Y)
    /\ mHeight A' = mHeight A /\ mWidth A' = mWidth A /\ LDim A' = LDim A
    /\ vsize (mBuffer A') = vsize (mBuffer A)
    /\ (forall s t,
          0 <= s < localHeight -> 0 <= t < localWidth ->
          0 <= mOffset A (iLocalOffset + s) (jLocalOffset + t)
            < vsize (mBuffer A) ->
          mRead A' (mOffset A (iLocalOffset + s) (jLocalOffset + t))
          = Tadd (mRead A (mOffset A (iLocalOffset + s) (jLocalOffset + t)))
              (Tmul (lg_alpha header)
                 (@vat Z T_inhabited (da_payload a)
                    (t * localHeight + s))))
    /\ (forall k,
          (forall s t,
              0 <= s < localHeight -> 0 <= t < localWidth ->
              k <> mOffset A (iLocalOffset + s) (jLocalOffset + t)) ->
          mRead A' k = mRead A k).
Proof.
  intros a Y st st' header A r c colShift rowShift localHeight localWidth
    iLocalOffset jLocalOffset.
  apply (HandleLocalToGlobalData_adds_payload utilities.Shift
           utilities.LocalLength false a st st' Y).
  - reflexivity.
  - vm_compute. reflexivity.
  - vm_compute. discriminate.
Defined.

(** X18 at work: on a 1 x 1 grid the process puts the block
    [1 3; 2 4] times 3 at [(1, 1)] and services its own message. *)
Lemma put_adds_alpha_times_sender_entries_witness :
  let header := da_header block_update in
  let X := local 2 2 [1; 2; 3; 4] in
  let Y := zeros 4 4 1 1 0 0 in
  let st := attached_for_put Y in
  let st' :=
    final_state
      (HandleLocalToGlobalData utilities.Shift utilities.LocalLength false
         (Some block_update) st) in
  let colAlignment := Z.rem (ColAlignment Y + lg_i header) 1 in
  let rowAlignment := Z.rem (RowAlignment Y + lg_j header) 1 in
  let colShift := utilities.Shift 0 colAlignment 1 in
  let rowShift := utilities.Shift 0 rowAlignment 1 in
  let localHeight := utilities.LocalLength (lg_height header) colShift 1 in
  let localWidth := utilities.LocalLength (lg_width header) rowShift 1 in
  let iLocalOffset := utilities.LocalLength (lg_i header) (ColShift Y) 1 in
  let jLocalOffset := utilities.LocalLength (lg_j header) (RowShift Y) 1 in
  let A := LocalMatrix Y in
  exists A',
    _localToGlobalMat st' = Some (with_LocalMatrix (fun _ => A') Y)
    /\ forall s t,
         0 <= s < localHeight -> 0 <= t < localWidth ->
         0 <= mOffset A (iLocalOffset + s) (jLocalOffset + t)
           < vsize (mBuffer A) ->
         mRead A' (mOffset A (iLocalOffset + s) (jLocalOffset + t))
         = Tadd (mRead A (mOffset A (iLocalOffset + s) (jLocalOffset + t)))
             (Tmul (lg_alpha header)
                (mRead X (mOffset X (colShift + s * 1) (rowShift + t * 1)))).
Proof.
  intros header X Y st st' colAlignment rowAlignment colShift rowShift
    localHeight localWidth iLocalOffset jLocalOffset A.
  apply (put_adds_alpha_times_sender_entries utilities.Shift
           utilities.LocalLength false never_complete header X 1 1 0 0 st
           (slot_message utilities.Shift utilities.LocalLength header X 1 1
              0 0 (0, 0))
           block_update st st' Y).
  - vm_compute. constructor.
  - reflexivity.
  - reflexivity.
  - vm_compute. reflexivity.
  - vm_compute. reflexivity.
  - vm_compute. discriminate.
Defined.

(** X19 at work: on a 1 x 1 grid the owner of the matrix [counting]
    answers the request for the block of the rows and columns 1 and 2, and
    the requester unpacks the reply into a 2 x 2 matrix of zeros. *)
Lemma get_adds_alpha_times_owner_entries_witness :
  let owner := attached_for_get (counting 4 4 1 1 0 0) in
  let m := wire 0 40 (ReplyMsg {| processRow := 0; processCol := 0 |}
                        [6; 7; 10; 11]) DATA_REPLY_TAG in
  let a := {| pa_source := 0; pa_count := 40;
              pa_header := {| processRow := 0; processCol := 0 |};
              pa_payload := [6; 7; 10; 11] |} in
  let X := counting 4 4 1 1 0 0 in
  let Y := local 2 2 [0; 0; 0; 0] in
  let XO := deref (_globalToLocalMat owner) in
  let A := LocalMatrix XO in
  let r := gHeight (dGrid XO) in
  let c := gWidth (dGrid XO) in
  let colShift :=
    utilities.Shift (MCRank (dGrid XO)) (Z.rem (ColAlignment XO + 1) r) r in
  let rowShift :=
    utilities.Shift (MRRank (dGrid XO)) (Z.rem (RowAlignment XO + 1) c) c in
  let localHeight := utilities.LocalLength 2 colShift r in
  let localWidth := utilities.LocalLength 2 rowShift c in
  let iLocalOffset := utilities.LocalLength 1 (ColShift XO) r in
  let jLocalOffset := utilities.LocalLength 1 (RowShift XO) c in
  let Y' :=
    unpack_reply utilities.Shift utilities.LocalLength 2 X 1 1 2 2 a Y in
  snd_dest m = 0
  /\ forall s t,
       0 <= s < localHeight -> 0 <= t < localWidth ->
       0 <= mOffset Y (colShift + s * r) (rowShift + t * c)
         < vsize (mBuffer Y) ->
       mRead Y' (mOffset Y (colShift + s * r) (rowShift + t * c))
       = Tadd (mRead Y (mOffset Y (colShift + s * r) (rowShift + t * c)))
           (Tmul 2
              (mRead A (mOffset A (iLocalOffset + s) (jLocalOffset + t)))).
Proof.
  intros owner m a X Y XO A r c colShift rowShift localHeight localWidth
    iLocalOffset jLocalOffset Y'.
  apply (get_adds_alpha_times_owner_entries utilities.Shift
           utilities.LocalLength false never_complete 0 1 1 2 2 owner m 2 X
           a Y).
  - vm_compute. constructor.
  - reflexivity.
  - reflexivity.
  - reflexivity.
  - reflexivity.
  - reflexivity.
  - vm_compute. reflexivity.
  - vm_compute. reflexivity.
  - vm_compute. discriminate.
  - intros s Hs.
    change (0 <= s < 2) in Hs. change (0 + s * 1 < 2). lia.
Defined.

(** X20 at work: the [Detach] of [detached] sends the one missing
    End-Of-Message. *)
Lemma Detach_sends_each_missing_eom_once_witness :
  let st := attached_for_put (zeros 4 4 1 1 0 0) in
  exists L,
    filter (fun m => snd_tag m = EOM_TAG) (new_sends st detached)
    = eom_token <$> L
    /\ NoDup L
    /\ (forall X, X ∈ L <-> 0 <= X < gSize (attached_Grid st)
                            /\ vat (_sentEomTo st) X = false)
    /\ Forall (fun m => snd_tag m = EOM_TAG \/ snd_tag m = DATA_REPLY_TAG)
         (new_sends st detached)
    /\ (_attachedForLocalToGlobal st = true ->
        new_sends st detached = eom_token <$> L).
Proof.
  intros st.
  apply (Detach_sends_each_missing_eom_once utilities.Shift
           utilities.LocalLength false [eom_round] st detached).
  - vm_compute. lia.
  - vm_compute. reflexivity.
Defined.

(** C10 at work: a request with a negative row offset, a column offset
    beyond the matrix, and a height that exceeds it. *)
Lemma HandleGlobalToLocalRequest_never_validates_witness :
  let st := attached_for_get (counting 4 4 2 2 0 0) in
  let X := deref (_globalToLocalMat st) in
  let A := LocalMatrix X in
  let r := gHeight (dGrid X) in
  let c := gWidth (dGrid X) in
  let colShift :=
    utilities.Shift (MCRank (dGrid X)) (Z.rem (ColAlignment X + -3) r) r in
  let rowShift :=
    utilities.Shift (MRRank (dGrid X)) (Z.rem (RowAlignment X + 7) c) c in
  let localHeight := utilities.LocalLength 100 colShift r in
  let localWidth := utilities.LocalLength 2 rowShift c in
  let iLocalOffset := utilities.LocalLength (-3) (ColShift X) r in
  let jLocalOffset := utilities.LocalLength 7 (RowShift X) c in
  let bufferSize :=
    localHeight * localWidth * Z.pos sizeof_T
    + sizeof_GlobalToLocalReplyHeader in
  let replyHeader :=
    {| processRow := MCRank (dGrid X); processCol := MRRank (dGrid X) |} in
  exists st' index payload,
    HandleGlobalToLocalRequest utilities.Shift utilities.LocalLength false
      never_complete
      (Some {| ra_source := 3;
               ra_header := {| rq_i := -3; rq_j := 7; rq_height := 100;
                               rq_width := 2 |} |}) st
    = Returned tt st'
    /\ new_sends st st'
       = [wire 3 bufferSize (ReplyMsg replyHeader payload) DATA_REPLY_TAG]
    /\ length payload = (Z.to_nat localWidth * Z.to_nat localHeight)%nat
    /\ (forall s t,
          0 <= s < localHeight -> 0 <= t < localWidth ->
          payload !! Z.to_nat (s + t * localHeight)
          = Some (mRead A (mOffset A (iLocalOffset + s) (jLocalOffset + t))))
    /\ (0 <= 3 < vsize (_replyVectors st) ->
        vat (vat (_replyVectors st') 3) index
        = {| buf_size := bufferSize;
             buf_content := ReplyMsg replyHeader payload |}
        /\ vat (vat (_sendingReply st') 3) index = true).
Proof.
  intros st X A r c colShift rowShift localHeight localWidth iLocalOffset
    jLocalOffset bufferSize replyHeader.
  apply (HandleGlobalToLocalRequest_never_validates utilities.Shift
           utilities.LocalLength false never_complete 3 (-3) 7 100 2 st).
  - intros []; split; reflexivity.
  - intros n shift. split; apply utilities_LocalLength_nonneg; simpl; lia.
  - vm_compute. split; discriminate.
Defined.
